(** * 3brown1blue scene generator: a shallow embedding of
      [backend/scene_generator.py] and the properties of its
      generate-validate-retry loop, its per-scene orchestration, its
      audio/video duration reconciliation and its final assembly.

    Python values are modelled as follows.
    - [str] is [string]; [float] is the kernel's binary64 [float], so every
      duration computation rounds as CPython's does;
    - [dict] is an association list kept in insertion order (Python 3.7+);
    - the filesystem, the logger, the language model, the speech service,
      the manim subprocess and the video encoder live in an explicit [world]
      threaded through a state-and-exception monad; what the outside world
      answers is read from an [env] of oracles indexed by a clock;
    - the clips of moviepy are records of their start, end and duration,
      updated as moviepy 1.x updates them;
    - the asyncio tasks of a run finish in the order a schedule gives, each
      task running from start to end without interleaving: the two tasks of
      a scene work in the scene's own directory, and nothing a task does
      depends on another task. *)

From Stdlib Require Import ZArith List Bool Ascii String Lia.
From Stdlib Require Import Floats DecimalString.
From stdpp Require Import base gmap strings list.

Local Open Scope string_scope.
Local Open Scope list_scope.

(** ** Python built-ins *)

Module Py.

(** [s.lstrip(chars)] on the characters of [s]: drop leading characters as
    long as they belong to the set [chars]. *)
Fixpoint lstrip_list (chars : list ascii) (s : list ascii) : list ascii :=
  match s with
  | [] => []
  | c :: s' =>
      if existsb (Ascii.eqb c) chars then lstrip_list chars s' else s
  end.

Definition rstrip_list (chars s : list ascii) : list ascii :=
  rev (lstrip_list chars (rev s)).

(** [s.strip(chars)]: [chars] is a set of characters, not a prefix or a
    suffix; every leading and trailing character in the set is removed. *)
Definition strip (s chars : string) : string :=
  string_of_list_ascii
    (rstrip_list (list_ascii_of_string chars)
       (lstrip_list (list_ascii_of_string chars) (list_ascii_of_string s))).

(** The ASCII characters [str.isspace] accepts: TAB, LF, VT, FF, CR, the
    four separators FS..US and the space. *)
Definition whitespace : string :=
  string_of_list_ascii
    (map ascii_of_nat [9; 10; 11; 12; 13; 28; 29; 30; 31; 32]%nat).

(** [s.strip()] *)
Definition strip_ws (s : string) : string := strip s whitespace.

(** [sub in s] *)
Fixpoint contains (sub s : string) : bool :=
  String.prefix sub s
  || match s with
     | EmptyString => false
     | String _ s' => contains sub s'
     end.

(** [str(n)] for an [int] *)
Definition str_of_int (n : Z) : string := NilZero.string_of_int (Z.to_int n).

(** [min(x, y)] and [max(x, y)] on floats: CPython keeps the first
    argument unless the second compares strictly below (above) it. *)
Definition min (x y : float) : float := if (y <? x)%float then y else x.
Definition max (x y : float) : float := if (x <? y)%float then y else x.

(** [max(l)] for a non-empty list, [d] being its first element. *)
Definition max_list (d : float) (l : list float) : float := fold_left max l d.

(** A [dict] in insertion order. Assigning to a key that is present
    replaces its value where it stands; a new key goes to the end. *)
Section Dict.
Context {V : Type}.

Fixpoint dict_set (k : string) (v : V) (d : list (string * V)) : list (string * V) :=
  match d with
  | [] => [(k, v)]
  | (k', v') :: d' =>
      if String.eqb k' k then (k', v) :: d' else (k', v') :: dict_set k v d'
  end.

Fixpoint dict_get (k : string) (d : list (string * V)) : option V :=
  match d with
  | [] => None
  | (k', v') :: d' => if String.eqb k' k then Some v' else dict_get k d'
  end.

Definition keys (d : list (string * V)) : list string := map fst d.
End Dict.

End Py.

(** The newline character, for program texts. *)
Definition nl : string := String (ascii_of_nat 10) EmptyString.

(** ** Values exchanged with the outside world *)

(** A Python exception: its class name and [str(e)]. *)
Record exn := Exn { exn_type : string; exn_msg : string }.

(** One entry of the chat conversation, [{"role": ..., "content": ...}]. *)
Record message := Message { role : string; content : string }.

(** What the speech service returns under [synthesis['audio']]: the sound,
    of which only the playing time matters here. *)
Record wav := Wav { wav_duration : float }.

(** A video file: the playing time of its picture, of its sound track when
    it has one, and, for a concatenation, the files it was assembled from in
    playing order. *)
Record media := Media {
  video_duration : float;
  audio_duration : option float;
  parts : list string
}.

Inductive file :=
| TextFile (s : string)
| WavFile (a : wav)
| Mp4File (m : media).

(** What a call to an external service yields. *)
Inductive reply (A : Type) :=
| Returns (a : A)
| Raises (e : exn).
Arguments Returns {A} a.
Arguments Raises {A} e.

(** What [subprocess.run(..., check=True)] yields for the manim command:
    normal completion (manim leaves a clip of the given playing time under
    the media directory), [CalledProcessError], or any other exception. *)
Inductive process_result :=
| Completed (stdout : string) (rendered : float)
| CalledProcessError (returncode : Z) (stderr : string)
| ProcessException (e : exn).

(** The oracles. Each is asked with the clock value of the request, so that
    the same request may be answered differently at different times. *)
Record env := Env {
  uuid4 : nat -> string;
  chat_completions_create : nat -> list message -> reply string;
  speech_synthesize : nat -> string -> string -> string -> reply wav;
  subprocess_run : nat -> string -> process_result;
  fs_fault : nat -> string -> option exn;
  encode_fault : nat -> string -> option exn
}.

(** The names the three clips of [combine_manim_and_speech] are bound to. *)
Inductive clip_var := VideoVar | AudioVar | FinalClipVar.

(** The [logger] calls of the module, one constructor per call site. *)
Inductive log_record :=
| LogCommandOutput (stdout : string)
| LogSpeechGenerated (scene_id : string)
| LogGeneratedResponse (response : string)
| LogGeneratedCode (output : string)
| LogErrorWritingFile (e : exn)
| LogSceneStatus (scene_id : string) (render_output : bool * string)
| LogSceneRendered (scene_id : string)
| LogDurations (video_duration audio_duration : float)
| LogAudioLonger
| LogAudioAdded (scene_id : string)
| LogMissingVideo (scene_path : string)
| LogNoScenes
| LogFinalPath (final_video_path : string)
| LogResults (results : list (option string * option string))
| LogSceneNotGenerated (scene_id : string).

Inductive level := INFO | WARNING | ERROR.

Definition level_of (r : log_record) : level :=
  match r with
  | LogErrorWritingFile _ | LogMissingVideo _ | LogNoScenes
  | LogSceneNotGenerated _ => ERROR
  | LogAudioLonger => WARNING
  | _ => INFO
  end.

(** What a run leaves behind besides the filesystem, oldest first. *)
Inductive event :=
| LlmRequest (messages : list message)
| SpeechRequest (text voice format : string)
| Command (command : string)
| Printed (line : string)
| Logged (r : log_record)
| FrameRead (filename : string) (t : float)
| Closed (scene_id : string) (c : clip_var).

Record world := World {
  clock : nat;
  dirs : gset string;
  files : gmap string file;
  trace : list event
}.

Definition tick_clock (w : world) : world :=
  World (S (clock w)) (dirs w) (files w) (trace w).
Definition with_dirs (d : gset string) (w : world) : world :=
  World (clock w) d (files w) (trace w).
Definition with_files (f : gmap string file) (w : world) : world :=
  World (clock w) (dirs w) f (trace w).
Definition emit (e : event) (w : world) : world :=
  World (clock w) (dirs w) (files w) (trace w ++ [e]).

(** ** The monad of the embedding: state, Python exceptions, and fuel *)

Inductive outcome (A : Type) :=
| Ok (a : A)
| Raise (e : exn)
| OutOfFuel.
Arguments Ok {A} a.
Arguments Raise {A} e.
Arguments OutOfFuel {A}.

Definition M (A : Type) : Type := world -> outcome A * world.

Definition ret {A} (a : A) : M A := fun w => (Ok a, w).

Definition bind {A B} (m : M A) (k : A -> M B) : M B :=
  fun w =>
    match m w with
    | (Ok a, w') => k a w'
    | (Raise e, w') => (Raise e, w')
    | (OutOfFuel, w') => (OutOfFuel, w')
    end.

Definition raise {A} (e : exn) : M A := fun w => (Raise e, w).

(** [try: body  except Exception as e: handler e] *)
Definition try_except {A} (body : M A) (handler : exn -> M A) : M A :=
  fun w =>
    match body w with
    | (Raise e, w') => handler e w'
    | r => r
    end.

Declare Scope py_scope.
Delimit Scope py_scope with py.
Notation "'let*' x ':=' m 'in' k" := (bind m (fun x => k))
  (at level 10, x pattern, m at level 100, k at level 200) : py_scope.
Notation "m ';;;' k" := (bind m (fun _ => k))
  (at level 100, k at level 200, right associativity) : py_scope.
Local Open Scope py_scope.

Definition tick : M nat := fun w => (Ok (clock w), tick_clock w).
Definition record (e : event) : M unit := fun w => (Ok tt, emit e w).
Definition log (r : log_record) : M unit := record (Logged r).
Definition lift_reply {A} (r : reply A) : M A :=
  match r with
  | Returns a => ret a
  | Raises e => raise e
  end.
Definition when (b : bool) (m : M unit) : M unit := if b then m else ret tt.

(** ** The filesystem *)

Module os.

Definition slash : ascii := ascii_of_nat 47.

(** The proper ancestors of a relative path: [a], [a/b] for [a/b/c]. *)
Fixpoint ancestors_from (seen rest : list ascii) : list string :=
  match rest with
  | [] => []
  | c :: rest' =>
      (if Ascii.eqb c slash && negb (Nat.eqb (length seen) 0)
       then [string_of_list_ascii (rev seen)] else [])
      ++ ancestors_from (c :: seen) rest'
  end.
Definition ancestors (p : string) : list string :=
  ancestors_from [] (list_ascii_of_string p).

(** [os.path.dirname(p)] *)
Definition dirname (p : string) : string :=
  List.last (ancestors p) EmptyString.

(** [os.path.exists(p)] *)
Definition path_exists_in (w : world) (p : string) : bool :=
  bool_decide (p ∈ dirs w) || bool_decide (p ∈ dom (files w)).
Definition path_exists (p : string) : M bool :=
  fun w => (Ok (path_exists_in w p), w).

Section WithEnv.
Variable E : env.

(** An operation that touches the disk may fail for reasons outside the
    program (permissions, a full disk): the oracle says when. *)
Definition fault (p : string) : M unit :=
  let* t := tick in
  match fs_fault E t p with
  | Some e => raise e
  | None => ret tt
  end.

(** [os.makedirs(p)]: creates [p] and every missing ancestor; raises
    [FileExistsError] when [p] is there already. *)
Definition makedirs (p : string) : M unit :=
  fault p ;;;
  let* there := path_exists p in
  if there then raise (Exn "FileExistsError" p)
  else fun w =>
    (Ok tt, with_dirs (dirs w ∪ list_to_set (ancestors p) ∪ {[ p ]}) w).

(** [with open(p, mode) as f: f.write(data)], [mode] being ['w'] or
    ['wb']: the directory of [p] has to exist. *)
Definition write_file (p : string) (data : file) : M unit :=
  fault p ;;;
  fun w =>
    if bool_decide (dirname p ∈ dirs w)
    then (Ok tt, with_files (<[ p := data ]> (files w)) w)
    else (Raise (Exn "FileNotFoundError" p), w).

(** [os.remove(p)] *)
Definition remove (p : string) : M unit :=
  fault p ;;;
  fun w =>
    if bool_decide (p ∈ dom (files w))
    then (Ok tt, with_files (delete p (files w)) w)
    else (Raise (Exn "FileNotFoundError" p), w).
End WithEnv.

End os.

(** ** The clips of moviepy 1.x, as far as their timing goes *)

Module moviepy.

Record AudioClip := mkAudio {
  a_start : float;
  a_end : float;
  a_duration : float
}.

Record VideoClip := mkVideo {
  filename : string;
  v_start : float;
  v_end : float;
  v_duration : float;
  v_audio : option AudioClip;
  v_parts : list string
}.

(** [AudioClip(make_frame, duration=d)] *)
Definition new_AudioClip (d : float) : AudioClip := mkAudio 0 d d.

(** [clip.set_start(t)]: the end moves with the start, the duration stays. *)
Definition a_set_start (t : float) (c : AudioClip) : AudioClip :=
  mkAudio t (t + a_duration c) (a_duration c).
Definition v_set_start (t : float) (c : VideoClip) : VideoClip :=
  mkVideo (filename c) t (t + v_duration c) (v_duration c) (v_audio c) (v_parts c).

(** [clip.set_duration(t)]: the end is recomputed from the start. *)
Definition v_set_duration (t : float) (c : VideoClip) : VideoClip :=
  mkVideo (filename c) (v_start c) (v_start c + t) t (v_audio c) (v_parts c).

(** [CompositeAudioClip(clips)]: it lasts until its last clip ends. *)
Definition CompositeAudioClip (first : AudioClip) (others : list AudioClip) : AudioClip :=
  let ends := Py.max_list (a_end first) (map a_end others) in
  mkAudio 0 ends ends.

(** [ImageClip(frame)]: a still picture with no duration set yet. *)
Definition ImageClip (origin : string) : VideoClip :=
  mkVideo origin 0 0 0 None [].

(** [CompositeVideoClip([base, over])]: it lasts until its last clip ends
    and carries the sound of the clips that have one. *)
Definition CompositeVideoClip (base over : VideoClip) : VideoClip :=
  let ends := Py.max_list (v_end base) [v_end over] in
  let audio :=
    match v_audio base, v_audio over with
    | Some a, Some b => Some (CompositeAudioClip a [b])
    | Some a, None => Some (CompositeAudioClip a [])
    | None, Some b => Some (CompositeAudioClip b [])
    | None, None => None
    end in
  mkVideo (filename base) 0 ends ends audio (v_parts base).

(** [clip.subclip(0, t_end)]: refused when the clip's duration is below
    the start; a negative [t_end] counts from the end; the new duration is
    [t_end - t_start], computed as such. On a video clip the same cut is
    then applied to its sound, if it has one. *)
Definition subclip_bounds (duration t_end : float) : reply float :=
  if (duration <? 0)%float
  then Raises (Exn "ValueError" "t_start should be smaller than the clip's duration")
  else
    let t_end := if (t_end <? 0)%float then (duration + t_end)%float else t_end in
    Returns (t_end - 0)%float.

Definition a_subclip (t_end : float) (c : AudioClip) : reply AudioClip :=
  match subclip_bounds (a_duration c) t_end with
  | Returns d => Returns (mkAudio (a_start c) (a_start c + d) d)
  | Raises e => Raises e
  end.

Definition v_subclip (t_end : float) (c : VideoClip) : reply VideoClip :=
  match subclip_bounds (v_duration c) t_end with
  | Returns d =>
      let newclip audio :=
        mkVideo (filename c) (v_start c) (v_start c + d) d audio (v_parts c) in
      match v_audio c with
      | Some a => match a_subclip t_end a with
                  | Returns a' => Returns (newclip (Some a'))
                  | Raises e => Raises e
                  end
      | None => Returns (newclip None)
      end
  | Raises e => Raises e
  end.

(** [clip.set_audio(a)] *)
Definition set_audio (a : AudioClip) (c : VideoClip) : VideoClip :=
  mkVideo (filename c) (v_start c) (v_end c) (v_duration c) (Some a) (v_parts c).

(** [concatenate_videoclips(clips)]: the clips play one after the other in
    the order of the list; the duration is the running sum of theirs. *)
Definition concatenate_videoclips (clips : list VideoClip) : VideoClip :=
  let total := fold_left PrimFloat.add (map v_duration clips) 0%float in
  mkVideo EmptyString 0 total total None (map filename clips).

(** The file [write_videofile] leaves for a clip. *)
Definition media_of (c : VideoClip) : media :=
  Media (v_duration c) (option_map a_duration (v_audio c)) (v_parts c).

(** [VideoFileClip(path)] and [AudioFileClip(path)] *)
Definition VideoFileClip (path : string) : M VideoClip :=
  fun w =>
    match files w !! path with
    | Some (Mp4File m) =>
        (Ok (mkVideo path 0 (video_duration m) (video_duration m)
               (option_map new_AudioClip (audio_duration m)) (parts m)), w)
    | _ => (Raise (Exn "OSError" path), w)
    end.

Definition AudioFileClip (path : string) : M AudioClip :=
  fun w =>
    match files w !! path with
    | Some (WavFile a) => (Ok (new_AudioClip (wav_duration a)), w)
    | _ => (Raise (Exn "OSError" path), w)
    end.

Section WithEnv.
Variable E : env.

(** [clip.write_videofile(path, codec="libx264")]: the encoder may fail;
    when it does not, [path] holds the clip. *)
Definition write_videofile (path : string) (c : VideoClip) : M unit :=
  let* t := tick in
  match encode_fault E t path with
  | Some e => raise e
  | None => fun w => (Ok tt, with_files (<[ path := Mp4File (media_of c) ]> (files w)) w)
  end.
End WithEnv.

End moviepy.

(** ** The module [scene_generator] *)

Definition GENERATIONS_PATH : string := "generated".

Definition MAX_ITERATIONS : nat := 5.

Definition SYSTEM_SCENE_PROMPT : string := "
You are an expert teacher of simple and complex topics, similar to 3 Blue 1 Brown. Given a transcription for a video scene, you are to generate Manim code that will create an animation for the scene. The code should be able to run without errors.

Try to be creative in your visualization of the topic. The scene should be engaging and informative. ONLY generate and return the manim code. Nothing else. Not even markdown or the programming language name

Two elements should not be in the same location at the same time. Ensure that every asset you use is defined in the file, and that the file can be run without errors.

The classname of the root animation should always be VideoScene.
".

Definition VOICE_ID : string := "7d21119e-bb5d-4416-8164-9170ec4952c2".

Definition VIDEO_INTERNAL_PATH : string := "videos/video/480p15/video.mp4".

(** The three backquotes given to [strip]. *)
Definition fence : string := "```".

(** The literal [0.1] of the frame lookup, as CPython reads it. *)
Definition tenth : float := 0x1.999999999999ap-4%float.

(** An object of class [SceneGenerator]. The keys of the dictionary are the
    scenes' UUIDs, written as the f-strings of the module print them. *)
Record SceneGenerator := mkSceneGenerator {
  scene_transcriptions : list (string * string);
  video_id : string
}.

(** [f"{GENERATIONS_PATH}/{video_id}/{scene_id}"] *)
Definition scene_dir (scene_id video_id : string) : string :=
  GENERATIONS_PATH +:+ "/" +:+ video_id +:+ "/" +:+ scene_id.

Definition get_scene_path (scene_id video_id : string) : string :=
  GENERATIONS_PATH +:+ "/" +:+ video_id +:+ "/" +:+ scene_id +:+ "/" +:+ VIDEO_INTERNAL_PATH.

Definition get_audio_path (scene_id video_id : string) : string :=
  GENERATIONS_PATH +:+ "/" +:+ video_id +:+ "/" +:+ scene_id +:+ "/audio.wav".

Definition code_path (scene_id video_id : string) : string :=
  GENERATIONS_PATH +:+ "/" +:+ video_id +:+ "/" +:+ scene_id +:+ "/video.py".

Definition final_video_path (video_id : string) : string :=
  GENERATIONS_PATH +:+ "/" +:+ video_id +:+ "/final_video.mp4".

(** The time at which the frame to hold is read. *)
Definition last_frame_time (video_duration : float) : float :=
  (video_duration - tenth)%float.

(** A time [t] lies within a clip of duration [d] when [0 <= t <= d]. *)
Definition in_clip_range (t d : float) : bool :=
  (0 <=? t)%float && (t <=? d)%float.

(** The concurrent tasks of [generate_all_scenes]: two per scene. *)
Inductive task_kind := ManimTask | SpeechTask.

Global Instance task_kind_eq_dec : EqDecision task_kind.
Proof. solve_decision. Defined.

(** A task is named by the scene it works for and by what it does. *)
Definition task : Type := string * task_kind.

(** The tasks in the order [generate_all_scenes] creates them. *)
Definition all_tasks (scene_ids : list string) : list task :=
  flat_map (fun scene_id => [(scene_id, ManimTask); (scene_id, SpeechTask)]) scene_ids.

(** A list of tasks without its repetitions. *)
Fixpoint first_occurrences (l : list task) : list task :=
  match l with
  | [] => []
  | t :: l' => t :: List.filter (fun u => negb (bool_decide (u = t))) (first_occurrences l')
  end.

(** The order in which the event loop lets the tasks finish. Any list is a
    schedule: tasks it names twice or that do not exist are ignored, and the
    tasks it leaves out finish last, in creation order. *)
Definition run_order (schedule all : list task) : list task :=
  first_occurrences (List.filter (fun t => bool_decide (t ∈ all)) schedule ++ all).

(** What a finished task returned. *)
Definition result_of (finished : list (task * option string)) (t : task) : option string :=
  match list_find (fun r => fst r = t) finished with
  | Some (_, (_, r)) => r
  | None => None
  end.

Section SceneGenerator.
Variable E : env.

Definition new_uuid : M string :=
  let* t := tick in ret (uuid4 E t).

(** [{uuid.uuid4(): t for t in scene_transcriptions}] *)
Fixpoint dict_comprehension (ts : list string) (d : list (string * string))
  : M (list (string * string)) :=
  match ts with
  | [] => ret d
  | t :: ts' =>
      let* k := new_uuid in
      dict_comprehension ts' (Py.dict_set k t d)
  end.

(** [SceneGenerator.__init__] *)
Definition init (scene_transcriptions : list string) : M SceneGenerator :=
  let* d := dict_comprehension scene_transcriptions [] in
  let* v := new_uuid in
  ret (mkSceneGenerator d v).

(** [self.scene_transcriptions[scene_id]] *)
Definition transcription_of (self : SceneGenerator) (scene_id : string) : M string :=
  match Py.dict_get scene_id (scene_transcriptions self) with
  | Some t => ret t
  | None => raise (Exn "KeyError" scene_id)
  end.

(** [if not os.path.exists(d): os.makedirs(d)] *)
Definition ensure_dir (d : string) : M unit :=
  let* there := os.path_exists d in
  when (negb there) (os.makedirs E d).

(** [render_scene]. A completed manim run leaves the clip under the media
    directory, at the place [get_scene_path] names. *)
Definition render_scene (self : SceneGenerator) (scene_id : string) : M (bool * string) :=
  let command :=
    "manim render -ql " +:+ code_path scene_id (video_id self)
    +:+ " -o video --media_dir " +:+ scene_dir scene_id (video_id self) in
  record (Printed ("Running command: " +:+ command)) ;;;
  let* t := tick in
  record (Command command) ;;;
  match subprocess_run E t command with
  | Completed stdout rendered =>
      let path := get_scene_path scene_id (video_id self) in
      (fun w =>
         (Ok tt,
          with_files (<[ path := Mp4File (Media rendered None []) ]> (files w))
            (with_dirs (dirs w ∪ list_to_set (os.ancestors path)) w))) ;;;
      log (LogCommandOutput stdout) ;;;
      ret (true, EmptyString)
  | CalledProcessError returncode stderr =>
      let error_message := Py.strip_ws stderr in
      ret (false,
           "Command failed with exit code " +:+ Py.str_of_int returncode
           +:+ ". Error: " +:+ error_message)
  | ProcessException e => ret (false, exn_msg e)
  end.

(** [generate_speech]: the synthesis is awaited first, the directory and
    the file come after it. *)
Definition generate_speech (self : SceneGenerator) (scene_id video_id : string)
  : M (option string) :=
  let* scene_transcription := transcription_of self scene_id in
  let* t := tick in
  record (SpeechRequest scene_transcription VOICE_ID "wav") ;;;
  let* synthesis := lift_reply (speech_synthesize E t scene_transcription VOICE_ID "wav") in
  let audio_path := get_audio_path scene_id video_id in
  ensure_dir (scene_dir scene_id video_id) ;;;
  os.write_file E audio_path (WavFile synthesis) ;;;
  log (LogSpeechGenerated scene_id) ;;;
  ret (Some scene_id).

(** The body of the [try] of [generate_manim]. *)
Definition put_code_in_file (self : SceneGenerator) (scene_id output : string) : M unit :=
  ensure_dir (scene_dir scene_id (video_id self)) ;;;
  os.write_file E (code_path scene_id (video_id self)) (TextFile output).

(** The [while iteration < MAX_ITERATIONS] loop of [generate_manim]. The
    recursion is on [fuel]; [generate_manim] gives it [MAX_ITERATIONS]. *)
Fixpoint generate_manim_loop (fuel : nat) (self : SceneGenerator) (scene_id : string)
    (iteration : nat) (messages : list message) : M (option string) :=
  if negb (iteration <? MAX_ITERATIONS)%nat then ret None
  else
    match fuel with
    | O => fun w => (OutOfFuel, w)
    | S fuel' =>
        let* t := tick in
        record (LlmRequest messages) ;;;
        let* response := lift_reply (chat_completions_create E t messages) in
        log (LogGeneratedResponse response) ;;;
        let output := response in
        let output := Py.strip output fence in
        log (LogGeneratedCode output) ;;;
        let messages := messages ++ [Message "assistant" output] in
        let* written :=
          try_except
            (put_code_in_file self scene_id output ;;; ret true)
            (fun e => log (LogErrorWritingFile e) ;;; ret false) in
        if negb written then ret None
        else
          let* render_output := render_scene self scene_id in
          log (LogSceneStatus scene_id render_output) ;;;
          if fst render_output then
            log (LogSceneRendered scene_id) ;;;
            ret (Some scene_id)
          else
            let messages :=
              messages ++ [Message "user" ("Error: " +:+ snd render_output)] in
            generate_manim_loop fuel' self scene_id (S iteration) messages
    end.

Definition generate_manim (self : SceneGenerator) (scene_id : string) : M (option string) :=
  let iteration := 0%nat in
  let* scene_transcription := transcription_of self scene_id in
  let messages :=
    [Message "system" SYSTEM_SCENE_PROMPT; Message "user" scene_transcription] in
  generate_manim_loop MAX_ITERATIONS self scene_id iteration messages.

(** Lines 187-199 of [combine_manim_and_speech]: the shorter track is
    made as long as the other. *)
Definition pad_with_silence (video_duration audio_duration : float)
    (audio : moviepy.AudioClip) : moviepy.AudioClip :=
  let silence_duration := (video_duration - audio_duration)%float in
  let silence := moviepy.new_AudioClip silence_duration in
  moviepy.CompositeAudioClip audio [moviepy.a_set_start audio_duration silence].

Definition hold_last_frame (video_duration audio_duration : float)
    (video : moviepy.VideoClip) : moviepy.VideoClip :=
  let frozen_clip :=
    moviepy.v_set_duration (audio_duration - video_duration)%float
      (moviepy.ImageClip (moviepy.filename video)) in
  let video :=
    moviepy.CompositeVideoClip video (moviepy.v_set_start video_duration frozen_clip) in
  moviepy.v_set_duration audio_duration video.

Definition adjust_clips (video : moviepy.VideoClip) (audio : moviepy.AudioClip)
  : M (moviepy.VideoClip * moviepy.AudioClip) :=
  let video_duration := moviepy.v_duration video in
  let audio_duration := moviepy.a_duration audio in
  if (audio_duration <? video_duration)%float then
    ret (video, pad_with_silence video_duration audio_duration audio)
  else if (video_duration <? audio_duration)%float then
    log LogAudioLonger ;;;
    record (FrameRead (moviepy.filename video) (last_frame_time video_duration)) ;;;
    ret (hold_last_frame video_duration audio_duration video, audio)
  else ret (video, audio).

(** Lines 201-207: both tracks are cut to the shorter of the two and the
    sound is attached to the picture. *)
Definition trim_and_mux (video : moviepy.VideoClip) (audio : moviepy.AudioClip)
  : M moviepy.VideoClip :=
  let final_duration := Py.min (moviepy.v_duration video) (moviepy.a_duration audio) in
  let* video := lift_reply (moviepy.v_subclip final_duration video) in
  let* audio := lift_reply (moviepy.a_subclip final_duration audio) in
  ret (moviepy.set_audio audio video).

Definition combine_manim_and_speech (self : SceneGenerator) (scene_id video_id : string)
  : M unit :=
  let scene_path := get_scene_path scene_id video_id in
  let audio_path := get_audio_path scene_id video_id in
  let* video := moviepy.VideoFileClip scene_path in
  let* audio := moviepy.AudioFileClip audio_path in
  log (LogDurations (moviepy.v_duration video) (moviepy.a_duration audio)) ;;;
  let* adjusted := adjust_clips video audio in
  let '(video, audio) := adjusted in
  let* final_clip := trim_and_mux video audio in
  os.remove E scene_path ;;;
  moviepy.write_videofile E scene_path final_clip ;;;
  record (Closed scene_id VideoVar) ;;;
  record (Closed scene_id AudioVar) ;;;
  record (Closed scene_id FinalClipVar) ;;;
  log (LogAudioAdded scene_id).

(** The [for] loop of [combine_video_scenes]. *)
Fixpoint collect_clips (self : SceneGenerator) (ids scene_ids : list string)
    (video_clips : list moviepy.VideoClip)
  : M (list string * list moviepy.VideoClip) :=
  match ids with
  | [] => ret (scene_ids, video_clips)
  | scene_id :: rest =>
      let scene_path := get_scene_path scene_id (video_id self) in
      let* there := os.path_exists scene_path in
      if there then
        let* clip := moviepy.VideoFileClip scene_path in
        collect_clips self rest (scene_ids ++ [scene_id]) (video_clips ++ [clip])
      else
        log (LogMissingVideo scene_path) ;;;
        collect_clips self rest scene_ids video_clips
  end.

Definition combine_video_scenes (self : SceneGenerator) : M (option string) :=
  let* collected :=
    collect_clips self (Py.keys (scene_transcriptions self)) [] [] in
  let '(scene_ids, video_clips) := collected in
  match video_clips with
  | [] => log LogNoScenes ;;; ret None
  | _ :: _ =>
      let final_video := moviepy.concatenate_videoclips video_clips in
      let path := final_video_path (video_id self) in
      moviepy.write_videofile E path final_video ;;;
      log (LogFinalPath path) ;;;
      ret (Some path)
  end.

(** One task run to its end. *)
Definition run_task (self : SceneGenerator) (t : task) : M (option string) :=
  match snd t with
  | ManimTask => generate_manim self (fst t)
  | SpeechTask => generate_speech self (fst t) (video_id self)
  end.

(** [await asyncio.gather(...)]: the tasks finish in the order given; the
    first exception a task raises is raised to the caller at once. *)
Fixpoint run_tasks (self : SceneGenerator) (order : list task)
    (finished : list (task * option string)) : M (list (task * option string)) :=
  match order with
  | [] => ret finished
  | t :: rest =>
      let* r := run_task self t in
      run_tasks self rest (finished ++ [(t, r)])
  end.

(** The [for] loop of [generate_all_scenes]. *)
Fixpoint combine_each (self : SceneGenerator)
    (pairs : list ((option string * option string) * string)) : M unit :=
  match pairs with
  | [] => ret tt
  | ((manim_result, speech_result), scene_id) :: rest =>
      match manim_result, speech_result with
      | Some _, Some _ =>
          combine_manim_and_speech self scene_id (video_id self) ;;;
          combine_each self rest
      | _, _ =>
          log (LogSceneNotGenerated scene_id) ;;;
          combine_each self rest
      end
  end.

Definition generate_all_scenes (self : SceneGenerator) (schedule : list task) : M string :=
  let scene_ids := Py.keys (scene_transcriptions self) in
  let* finished := run_tasks self (run_order schedule (all_tasks scene_ids)) [] in
  let results :=
    map (fun scene_id =>
           (result_of finished (scene_id, ManimTask),
            result_of finished (scene_id, SpeechTask))) scene_ids in
  log (LogResults results) ;;;
  combine_each self (zip results scene_ids) ;;;
  combine_video_scenes self ;;;
  ret (video_id self).
End SceneGenerator.

(** ** What a run lets one observe *)

(** The number of requests sent to the language model. *)
Definition is_llm_request (e : event) : bool :=
  match e with LlmRequest _ => true | _ => false end.
Definition llm_requests (tr : list event) : nat :=
  length (List.filter is_llm_request tr).

(** What [render_scene] reported, attempt after attempt: the first component
    of each [render_output] the loop logs. *)
Definition render_report (e : event) : list bool :=
  match e with
  | Logged (LogSceneStatus _ render_output) => [fst render_output]
  | _ => []
  end.
Definition render_reports (tr : list event) : list bool :=
  flat_map render_report tr.

(** The clips closed, in order. *)
Definition closed_clip (e : event) : list (string * clip_var) :=
  match e with
  | Closed scene_id c => [(scene_id, c)]
  | _ => []
  end.
Definition closed_clips (tr : list event) : list (string * clip_var) :=
  flat_map closed_clip tr.

(** The frame lookups, in order. *)
Definition frame_read (e : event) : list float :=
  match e with
  | FrameRead _ t => [t]
  | _ => []
  end.
Definition frame_reads (tr : list event) : list float := flat_map frame_read tr.

(** The records logged at level [ERROR]. *)
Definition error_record (e : event) : list log_record :=
  match e with
  | Logged r => match level_of r with ERROR => [r] | _ => [] end
  | _ => []
  end.
Definition errors_logged (tr : list event) : list log_record :=
  flat_map error_record tr.

(** The scenes of a list whose clip is, or is not, on disk in [w]. *)
Definition scene_on_disk (w : world) (video_id scene_id : string) : bool :=
  os.path_exists_in w (get_scene_path scene_id video_id).
Definition present_scenes (w : world) (video_id : string) (ids : list string) : list string :=
  List.filter (scene_on_disk w video_id) ids.
Definition missing_scenes (w : world) (video_id : string) (ids : list string) : list string :=
  List.filter (fun scene_id => negb (scene_on_disk w video_id scene_id)) ids.

(** The world [w] with more events at the end of its trace. *)
Definition emit_all (evs : list event) (w : world) : world :=
  World (clock w) (dirs w) (files w) (trace w ++ evs).

(** The record [combine_video_scenes] logs for a scene without a clip. *)
Definition missing_log (video_id scene_id : string) : event :=
  Logged (LogMissingVideo (get_scene_path scene_id video_id)).

(** ** Binary64 in the terms of [SpecFloat] *)

(** The least exponent of a binary64 mantissa. *)
Definition emin64 : Z := (-1074)%Z.

(** A float that is neither a zero nor a NaN and has sign [sx]. *)
Definition signed (sx : bool) (r : spec_float) : Prop :=
  match r with
  | S754_finite s _ _ | S754_infinity s => s = sx
  | _ => False
  end.

(** The mantissa and the exponent of [tenth]. *)
Definition tenth_m : positive := 7205759403792794%positive.
Definition tenth_e : Z := (-56)%Z.

(** The exact difference of two finite floats, in units of [2 ^ ez]. *)
Definition exact_diff (s : bool) (m : positive) (e : Z) (m' : positive) (e' : Z) : Z :=
  let ez := Z.min e e' in
  (cond_Zopp s (Zpos (fst (shl_align m e ez)))
   - cond_Zopp false (Zpos (fst (shl_align m' e' ez))))%Z.

(** ** Sample runs *)

(** An empty disk at time 0. *)
Definition empty_world : world := World 0 ∅ ∅ [].

(** The scenes are named [a], [b], [c], ... in the order the UUIDs are drawn. *)
Definition sample_uuid (n : nat) : string :=
  String (ascii_of_nat (97 + n)) EmptyString.

(** A quiet environment: the model answers with a bare program, manim
    renders a clip of 2.5 seconds, the voice lasts 1.5 seconds, nothing
    fails. *)
Definition quiet_env : env :=
  Env sample_uuid
      (fun _ _ => Returns "from manim import *")
      (fun _ _ _ _ => Returns (Wav 1.5))
      (fun _ _ => Completed "" 2.5)
      (fun _ _ => None)
      (fun _ _ => None).

(** A generator for two scenes of the video [v]. *)
Definition two_scenes : SceneGenerator :=
  mkSceneGenerator [("a", "one"); ("b", "two")] "v".

(** A disk on which scene [a] has its muxed clip and scene [b] has none. *)
Definition only_a_on_disk : world :=
  World 0 ∅ {[ get_scene_path "a" "v" := Mp4File (Media 2.5 (Some 2.5%float) []) ]} [].

(** An environment in which the speech service is down. *)
Definition mute_env : env :=
  Env sample_uuid
      (fun _ _ => Returns "from manim import *")
      (fun _ _ _ _ => Raises (Exn "SpeechError" "503 Service Unavailable"))
      (fun _ _ => Completed "" 2.5)
      (fun _ _ => None)
      (fun _ _ => None).

(** An environment in which manim fails until time [t]: counted from an
    empty disk, the renderings of one scene happen at times 3, 6, 9, 12
    and 15. *)
Definition failing_until (t : nat) : env :=
  Env sample_uuid
      (fun _ _ => Returns "from manim import *")
      (fun _ _ _ _ => Returns (Wav 1.5))
      (fun now _ =>
         if (now <? t)%nat then CalledProcessError 1 "NameError: name 'Circl' is not defined"
         else Completed "" 2.5)
      (fun _ _ => None)
      (fun _ _ => None).

(** A disk on which scene [a] of video [v] has a silent rendered clip of
    [video] seconds and a voice of [audio] seconds. *)
Definition ready_world (video audio : float) : world :=
  World 0 ∅
    (<[ get_scene_path "a" "v" := Mp4File (Media video None []) ]>
       {[ get_audio_path "a" "v" := WavFile (Wav audio) ]})
    [].

(** The floats CPython reads for [1.7] and [0.36], and the float just below
    [1.7], which prints as [1.6999999999999997]. *)
Definition f_1_7 : float := 0x1.b333333333333p+0%float.
Definition f_0_36 : float := 0x1.70a3d70a3d70ap-2%float.
Definition f_below_1_7 : float := 0x1.b333333333332p+0%float.

(** An environment in which the video encoder fails. *)
Definition broken_encoder_env : env :=
  Env sample_uuid
      (fun _ _ => Returns "from manim import *")
      (fun _ _ _ _ => Returns (Wav 1.5))
      (fun _ _ => Completed "" 2.5)
      (fun _ _ => None)
      (fun _ _ => Some (Exn "OSError" "[Errno 32] Broken pipe")).

(** A clip of one sixteenth of a second and a voice of a second and a half. *)
Definition one_frame_clip : moviepy.VideoClip :=
  moviepy.mkVideo (get_scene_path "a" "v") 0 0.0625 0.0625 None [].
Definition short_voice : moviepy.AudioClip := moviepy.new_AudioClip 1.5.

(** A model that fences its program, with a line break after the fence,
    and a first rendering that fails. *)
Definition fenced_response : string :=
  "```python" +:+ nl +:+ "from manim import *" +:+ nl +:+ "```" +:+ nl.
Definition fenced_env : env :=
  Env sample_uuid
      (fun _ _ => Returns fenced_response)
      (fun _ _ _ _ => Returns (Wav 1.5))
      (fun now _ =>
         if (now <? 4)%nat then CalledProcessError 1 "NameError: name 'python' is not defined"
         else Completed "" 2.5)
      (fun _ _ => None)
      (fun _ _ => None).

(** What [generate_manim] keeps of [fenced_response]. *)
Definition stored_code : string :=
  "python" +:+ nl +:+ "from manim import *" +:+ nl +:+ "```" +:+ nl.

(** The state in which [SceneGenerator(["one", "two"])] leaves an empty
    disk, and a schedule that lets the tasks of the second scene finish
    first. *)
Definition two_scenes_c : SceneGenerator :=
  mkSceneGenerator [("a", "one"); ("b", "two")] "c".
Definition after_init : world := World 3 ∅ ∅ [].
Definition second_scene_first : list task :=
  [("b", SpeechTask); ("b", ManimTask)].

(** A character of the set [chars], as [strip] tests it. *)
Definition in_chars (chars : list ascii) (c : ascii) : bool :=
  existsb (Ascii.eqb c) chars.

(** The command line of [render_scene]. *)
Definition render_command (self : SceneGenerator) (scene_id : string) : string :=
  "manim render -ql " +:+ code_path scene_id (video_id self)
  +:+ " -o video --media_dir " +:+ scene_dir scene_id (video_id self).

(** ** The runs of the generation loop, case by case *)

(** The world once the answer [response] to the request [messages] has
    been received and logged. *)
Definition answered (messages : list message) (response : string) (w : world) : world :=
  emit (Logged (LogGeneratedCode (Py.strip response fence)))
    (emit (Logged (LogGeneratedResponse response))
       (emit (LlmRequest messages) (tick_clock w))).

(** The conversation of the next attempt, after a rendering that failed
    with [error]. *)
Definition next_messages (messages : list message) (response error : string) : list message :=
  (messages ++ [Message "assistant" (Py.strip response fence)])
  ++ [Message "user" ("Error: " +:+ error)].

Section LoopRuns.
Variable E : env.
Variable self : SceneGenerator.
Variable scene_id : string.

(** [loop_run iteration messages w r w'] : entered at [iteration] with the
    conversation [messages] in the world [w], the [while] loop of
    [generate_manim] ends with [r] in the world [w']. *)
Inductive loop_run : nat -> list message -> world -> outcome (option string) -> world -> Prop :=
| loop_exhausted iteration messages w :
    (MAX_ITERATIONS <= iteration)%nat ->
    loop_run iteration messages w (Ok None) w
| loop_model_raises iteration messages w e :
    (iteration < MAX_ITERATIONS)%nat ->
    chat_completions_create E (clock w) messages = Raises e ->
    loop_run iteration messages w (Raise e) (emit (LlmRequest messages) (tick_clock w))
| loop_write_fails iteration messages w response e w1 :
    (iteration < MAX_ITERATIONS)%nat ->
    chat_completions_create E (clock w) messages = Returns response ->
    put_code_in_file E self scene_id (Py.strip response fence) (answered messages response w)
    = (Raise e, w1) ->
    loop_run iteration messages w (Ok None) (emit (Logged (LogErrorWritingFile e)) w1)
| loop_rendered iteration messages w response w1 msg w2 :
    (iteration < MAX_ITERATIONS)%nat ->
    chat_completions_create E (clock w) messages = Returns response ->
    put_code_in_file E self scene_id (Py.strip response fence) (answered messages response w)
    = (Ok tt, w1) ->
    render_scene E self scene_id w1 = (Ok (true, msg), w2) ->
    loop_run iteration messages w (Ok (Some scene_id))
      (emit (Logged (LogSceneRendered scene_id))
         (emit (Logged (LogSceneStatus scene_id (true, msg))) w2))
| loop_retry iteration messages w response w1 msg w2 r w3 :
    (iteration < MAX_ITERATIONS)%nat ->
    chat_completions_create E (clock w) messages = Returns response ->
    put_code_in_file E self scene_id (Py.strip response fence) (answered messages response w)
    = (Ok tt, w1) ->
    render_scene E self scene_id w1 = (Ok (false, msg), w2) ->
    loop_run (S iteration) (next_messages messages response msg)
      (emit (Logged (LogSceneStatus scene_id (false, msg))) w2) r w3 ->
    loop_run iteration messages w r w3.
End LoopRuns.

(** The conversations sent to the language model, oldest first. *)
Definition llm_conversation (e : event) : list (list message) :=
  match e with
  | LlmRequest messages => [messages]
  | _ => []
  end.
Definition llm_conversations (tr : list event) : list (list message) :=
  flat_map llm_conversation tr.

(** What [render_scene] reports of a manim process that did not complete:
    the exit code and the error output, or the text of the exception. *)
Definition render_message (r : process_result) : option string :=
  match r with
  | Completed _ _ => None
  | CalledProcessError returncode stderr =>
      Some ("Command failed with exit code " +:+ Py.str_of_int returncode
            +:+ ". Error: " +:+ Py.strip_ws stderr)
  | ProcessException e => Some (exn_msg e)
  end.

(** [continues E self scene_id prev rest]: each conversation of [rest] is
    the one before it, [prev] for the first, followed by the code kept from
    the answer the model gave to that conversation and by the report of a
    manim run for the scene that did not complete. *)
Fixpoint continues (E : env) (self : SceneGenerator) (scene_id : string)
    (prev : list message) (rest : list (list message)) : Prop :=
  match rest with
  | [] => True
  | next :: rest' =>
      (exists t response t' error,
          chat_completions_create E t prev = Returns response
          /\ render_message (subprocess_run E t' (render_command self scene_id)) = Some error
          /\ next = next_messages prev response error)
      /\ continues E self scene_id next rest'
  end.

(** An environment in which manim completes for scene [a] of [two_scenes]
    and fails for every other scene. *)
Definition only_a_renders_env : env :=
  Env sample_uuid
      (fun _ _ => Returns "from manim import *")
      (fun _ _ _ _ => Returns (Wav 1.5))
      (fun _ command =>
         if String.eqb command (render_command two_scenes "a") then Completed "" 2.5
         else CalledProcessError 1 "NameError: name 'Circl' is not defined")
      (fun _ _ => None)
      (fun _ _ => None).

(** Scene [a] renders, no other scene does. *)
Definition only_a (scene_id : string) : bool := String.eqb scene_id "a".

(** An environment in which the language model cannot be reached. *)
Definition model_down_env : env :=
  Env sample_uuid
      (fun _ _ => Raises (Exn "APIConnectionError" "Connection error."))
      (fun _ _ _ _ => Returns (Wav 1.5))
      (fun _ _ => Completed "" 2.5)
      (fun _ _ => None)
      (fun _ _ => None).

(** The number of requests sent to the speech service. *)
Definition is_speech_request (e : event) : bool :=
  match e with SpeechRequest _ _ _ => true | _ => false end.
Definition speech_requests (tr : list event) : nat :=
  length (List.filter is_speech_request tr).

(** The events by the function that gives rise to them: [generate_manim]
    with [render_scene], [generate_speech], [combine_manim_and_speech], and
    [combine_video_scenes]. *)
Definition manim_event (e : event) : bool :=
  match e with
  | LlmRequest _ | Printed _ | Command _ => true
  | Logged r =>
      match r with
      | LogCommandOutput _ | LogGeneratedResponse _ | LogGeneratedCode _
      | LogErrorWritingFile _ | LogSceneStatus _ _ | LogSceneRendered _ => true
      | _ => false
      end
  | _ => false
  end.

Definition speech_event (e : event) : bool :=
  match e with
  | SpeechRequest _ _ _ | Logged (LogSpeechGenerated _) => true
  | _ => false
  end.

Definition mux_event (e : event) : bool :=
  match e with
  | FrameRead _ _ | Closed _ _ => true
  | Logged r =>
      match r with
      | LogDurations _ _ | LogAudioLonger | LogAudioAdded _ => true
      | _ => false
      end
  | _ => false
  end.

Definition assembly_event (e : event) : bool :=
  match e with
  | Logged r =>
      match r with
      | LogMissingVideo _ | LogNoScenes | LogFinalPath _ => true
      | _ => false
      end
  | _ => false
  end.

(** The tasks of one kind in a list of tasks. *)
Definition tasks_of_kind (k : task_kind) (order : list task) : list task :=
  List.filter (fun t => bool_decide (snd t = k)) order.

(** The [for] loop of [generate_all_scenes] leaves one record per scene:
    either that the sound was added or that the scene was not generated. *)
Definition scene_outcome (e : event) : list (string * bool) :=
  match e with
  | Logged (LogAudioAdded scene_id) => [(scene_id, true)]
  | Logged (LogSceneNotGenerated scene_id) => [(scene_id, false)]
  | _ => []
  end.
Definition scene_outcomes (tr : list event) : list (string * bool) :=
  flat_map scene_outcome tr.

(** Neither result of a scene is [None]. *)
Definition both_done (results : option string * option string) : bool :=
  match results with
  | (Some _, Some _) => true
  | _ => false
  end.

(** The files a task writes. *)
Definition task_files (video_id : string) (t : task) : list string :=
  match snd t with
  | ManimTask => [code_path (fst t) video_id; get_scene_path (fst t) video_id]
  | SpeechTask => [get_audio_path (fst t) video_id]
  end.

(** The file a task is run for: the clip of the scene, or its voice. *)
Definition main_file (video_id : string) (t : task) : string :=
  match snd t with
  | ManimTask => get_scene_path (fst t) video_id
  | SpeechTask => get_audio_path (fst t) video_id
  end.

(** The file of a task is in place: a clip without sound, or a voice, of a
    positive duration. *)
Definition task_done (video_id : string) (t : task) (w : world) : Prop :=
  exists d : float,
    (0 <? d)%float = true
    /\ files w !! main_file video_id t
       = Some (match snd t with
               | ManimTask => Mp4File (Media d None [])
               | SpeechTask => WavFile (Wav d)
               end).

(** The files a task writes, and what it returns, when nothing fails but
    manim, which completes for the scenes of [good] and for no other. *)
Definition written (good : string -> bool) (video_id : string) (t : task) : list string :=
  match snd t with
  | ManimTask =>
      code_path (fst t) video_id
      :: (if good (fst t) then [get_scene_path (fst t) video_id] else [])
  | SpeechTask => [get_audio_path (fst t) video_id]
  end.

Definition task_result (good : string -> bool) (t : task) : option string :=
  match snd t with
  | ManimTask => if good (fst t) then Some (fst t) else None
  | SpeechTask => Some (fst t)
  end.

(** A scene id without a slash, as the UUIDs are. *)
Definition flat_name (scene_id : string) : Prop :=
  Forall (fun c => c <> os.slash) (list_ascii_of_string scene_id).

(** * Properties *)

(** ** The monad *)

Lemma bind_unfold {A B} (m : M A) (k : A -> M B) (w : world) :
  bind m k w = match m w with
               | (Ok a, w') => k a w'
               | (Raise e, w') => (Raise e, w')
               | (OutOfFuel, w') => (OutOfFuel, w')
               end.
Proof. reflexivity. Qed.

Lemma emit_all_nil w : emit_all [] w = w.
Proof. destruct w. unfold emit_all. cbn. by rewrite app_nil_r. Qed.

Lemma emit_all_emit e evs w : emit_all evs (emit e w) = emit_all (e :: evs) w.
Proof. unfold emit_all, emit. cbn. by rewrite <- app_assoc. Qed.

Lemma emit_all_emit_all evs evs' w :
  emit_all evs' (emit_all evs w) = emit_all (evs ++ evs') w.
Proof. unfold emit_all. cbn. by rewrite <- app_assoc. Qed.

(** ** Binary64 arithmetic *)

Module FloatFacts.
Local Open Scope Z_scope.

Lemma Prim2SF_zero : Prim2SF 0%float = S754_zero false.
Proof. reflexivity. Qed.

Lemma Prim2SF_tenth : Prim2SF tenth = S754_finite false 7205759403792794 (-56).
Proof. vm_compute. reflexivity. Qed.

(** [x - 0 = x] on every float, NaN and the zeros included. *)
Lemma sub_zero_r (x : float) : (x - 0)%float = x.
Proof.
  apply Prim2SF_inj. rewrite sub_spec, Prim2SF_zero.
  destruct (Prim2SF x) as [[]|[]| |s m e]; reflexivity.
Qed.

Lemma ltb_zero_pos (x : float) :
  (0 <? x)%float = true ->
  (exists m e, Prim2SF x = S754_finite false m e) \/ Prim2SF x = S754_infinity false.
Proof.
  rewrite ltb_spec, Prim2SF_zero. unfold SFltb.
  destruct (Prim2SF x) as [[]|[]| |[] m e]; simpl; try discriminate; eauto.
Qed.

Lemma pos_not_neg (x : float) : (0 <? x)%float = true -> (x <? 0)%float = false.
Proof.
  intros H. destruct (ltb_zero_pos x H) as [(m & e & Hx)|Hx];
    rewrite ltb_spec, Prim2SF_zero, Hx; reflexivity.
Qed.

Lemma above_pos_not_neg (a x : float) :
  (0 <? a)%float = true -> (a <? x)%float = true -> (x <? 0)%float = false.
Proof.
  intros Ha Hax. rewrite ltb_spec in Hax. rewrite ltb_spec, Prim2SF_zero.
  destruct (ltb_zero_pos a Ha) as [(m & e & Hx)|Hx]; rewrite Hx in Hax;
    unfold SFltb in *; destruct (Prim2SF x) as [[]|[]| |[] m' e']; simpl in *;
    try discriminate; reflexivity.
Qed.

(** *** The sign of a rounded sum *)

Lemma digits2_pos_lower (m : positive) : 2 ^ (Zpos (digits2_pos m) - 1) <= Zpos m.
Proof.
  induction m as [m IH|m IH|]; cbn [digits2_pos].
  - rewrite Pos2Z.inj_succ. replace (Z.succ (Zpos (digits2_pos m)) - 1) with (Z.succ (Zpos (digits2_pos m) - 1)) by lia.
    rewrite Z.pow_succ_r by lia. lia.
  - rewrite Pos2Z.inj_succ. replace (Z.succ (Zpos (digits2_pos m)) - 1) with (Z.succ (Zpos (digits2_pos m) - 1)) by lia.
    rewrite Z.pow_succ_r by lia. lia.
  - simpl. lia.
Qed.

Lemma digits2_pos_upper (m : positive) : Zpos m < 2 ^ Zpos (digits2_pos m).
Proof.
  induction m as [m IH|m IH|]; cbn [digits2_pos].
  - rewrite Pos2Z.inj_succ, Z.pow_succ_r by lia. lia.
  - rewrite Pos2Z.inj_succ, Z.pow_succ_r by lia. lia.
  - simpl. lia.
Qed.

Lemma shr_1_m (r : shr_record) : 0 <= shr_m r -> shr_m (shr_1 r) = shr_m r / 2.
Proof.
  destruct r as [m b s]. cbn [shr_m shr_1]. intros Hm.
  destruct m as [|p|p]; [reflexivity| |lia].
  destruct p as [p|p|]; cbn [shr_m].
  - rewrite Pos2Z.inj_xI. apply Z.div_unique with (r := 1); lia.
  - rewrite Pos2Z.inj_xO. apply Z.div_unique with (r := 0); lia.
  - reflexivity.
Qed.

Lemma iter_shr_m (p : positive) : forall r : shr_record,
  0 <= shr_m r -> shr_m (SpecFloat.iter_pos shr_1 p r) = shr_m r / 2 ^ Zpos p.
Proof.
  induction p as [p IH|p IH|]; intros r Hr; cbn [SpecFloat.iter_pos].
  - assert (H1 : 0 <= shr_m (shr_1 r)) by (rewrite shr_1_m by lia; apply Z.div_pos; lia).
    assert (H2 : 0 <= shr_m (SpecFloat.iter_pos shr_1 p (shr_1 r))).
    { rewrite IH by lia. apply Z.div_pos; [lia|]. apply Z.pow_pos_nonneg; lia. }
    rewrite IH, IH, shr_1_m by lia.
    rewrite !Z.div_div by (try lia; apply Z.pow_pos_nonneg; lia).
    f_equal. rewrite (Pos2Z.inj_xI p).
    replace (2 * Zpos p + 1) with (1 + Zpos p + Zpos p) by lia.
    rewrite !Z.pow_add_r by lia. lia.
  - assert (H2 : 0 <= shr_m (SpecFloat.iter_pos shr_1 p r)).
    { rewrite IH by lia. apply Z.div_pos; [lia|]. apply Z.pow_pos_nonneg; lia. }
    rewrite IH, IH by lia.
    rewrite !Z.div_div by (try lia; apply Z.pow_pos_nonneg; lia).
    f_equal. rewrite (Pos2Z.inj_xO p).
    replace (2 * Zpos p) with (Zpos p + Zpos p) by lia.
    rewrite !Z.pow_add_r by lia. lia.
  - rewrite shr_1_m by lia. reflexivity.
Qed.

Lemma shr_m_of_loc (m : Z) (l : location) : shr_m (shr_record_of_loc m l) = m.
Proof. destruct l as [|[]]; reflexivity. Qed.

Lemma shr_fexp_pos (m e : Z) (l : location) :
  0 < m -> emin64 <= e ->
  0 < shr_m (fst (shr_fexp prec emax m e l)) /\ emin64 <= snd (shr_fexp prec emax m e l).
Proof.
  unfold emin64. intros Hm He. destruct m as [|p|p]; try lia.
  unfold shr_fexp, shr, fexp, SpecFloat.emin, Zdigits2.
  change prec with 53. change emax with 1024.
  destruct (Z.max (Zpos (digits2_pos p) + e - 53) (3 - 1024 - 53) - e) as [|q|q] eqn:Hq;
    cbn [fst snd]; rewrite ?shr_m_of_loc; try lia.
  rewrite iter_shr_m by (rewrite shr_m_of_loc; lia). rewrite shr_m_of_loc.
  split; [|lia].
  apply Z.div_str_pos. split; [apply Z.pow_pos_nonneg; lia|].
  transitivity (2 ^ (Zpos (digits2_pos p) - 1)); [|apply digits2_pos_lower].
  apply Z.pow_le_mono_r; lia.
Qed.

Lemma round_nearest_even_pos (m : Z) (l : location) :
  0 < m -> 0 < round_nearest_even m l.
Proof.
  intros Hm. destruct l as [|[]]; cbn [round_nearest_even]; try lia.
  destruct (Z.even m); lia.
Qed.

Lemma binary_round_aux_signed (sx : bool) (m e : Z) (l : location) :
  0 < m -> emin64 <= e -> signed sx (binary_round_aux prec emax sx m e l).
Proof.
  intros Hm He. unfold binary_round_aux.
  destruct (shr_fexp_pos m e l Hm He) as [H1 H2].
  destruct (shr_fexp prec emax m e l) as [mrs' e'] eqn:E1. cbn [fst snd] in H1, H2.
  pose proof (round_nearest_even_pos (shr_m mrs') (loc_of_shr_record mrs') H1) as H3.
  destruct (shr_fexp_pos _ e' loc_Exact H3 H2) as [H4 _].
  destruct (shr_fexp prec emax _ e' loc_Exact) as [mrs'' e''] eqn:E2. cbn [fst] in H4.
  destruct (shr_m mrs'') as [|q|q]; try lia.
  destruct (e'' <=? emax - prec); reflexivity.
Qed.

Lemma binary_round_signed (sx : bool) (m : positive) (e : Z) :
  emin64 <= e -> signed sx (binary_round prec emax sx m e).
Proof.
  intros He. unfold binary_round.
  destruct (shl_align m e (fexp prec emax (Zpos (digits2_pos m) + e))) as [mz ez] eqn:E.
  apply binary_round_aux_signed; [lia|].
  unfold shl_align in E.
  destruct (fexp prec emax (Zpos (digits2_pos m) + e) - e) eqn:Hd; inversion E; subst; try lia.
  unfold fexp, SpecFloat.emin, emin64. change prec with 53. change emax with 1024. lia.
Qed.

Lemma shl_align_value (m : positive) (e e' : Z) :
  e' <= e -> Zpos (fst (shl_align m e e')) = Zpos m * 2 ^ (e - e').
Proof.
  intros H. unfold shl_align.
  destruct (e' - e) as [|d|d] eqn:Hd; cbn [fst]; try lia.
  - replace (e - e') with 0 by lia. lia.
  - change (Pos.iter xO m d) with (shift_pos d m).
    rewrite shift_pos_correct. replace (e - e') with (Zpos d) by lia.
    rewrite Z.pow_pos_fold. lia.
Qed.

(** A canonical binary64 mantissa has at most 53 bits and an exponent of
    at least -1074. *)
Lemma valid_finite (s : bool) (m : positive) (e : Z) :
  valid_binary (S754_finite s m e) = true -> Zpos m < 2 ^ 53 /\ emin64 <= e.
Proof.
  unfold SpecFloat.valid_binary, bounded, canonical_mantissa, fexp, SpecFloat.emin, emin64.
  change prec with 53. change emax with 1024.
  intros H. apply andb_prop in H as [H _]. apply Z.eqb_eq in H.
  split; [|lia].
  eapply Z.lt_le_trans; [apply digits2_pos_upper|]. apply Z.pow_le_mono_r; lia.
Qed.

Lemma SFsub_finite (s : bool) (m : positive) (e : Z) (m' : positive) (e' : Z) :
  SF64sub (S754_finite s m e) (S754_finite false m' e')
  = binary_normalize prec emax (exact_diff s m e m' e') (Z.min e e') false.
Proof. reflexivity. Qed.

Lemma negative_diff_signed (d ez : Z) :
  d < 0 -> emin64 <= ez -> signed true (binary_normalize prec emax d ez false).
Proof.
  intros Hd He. destruct d as [|q|q]; try lia.
  cbn [binary_normalize]. apply binary_round_signed. exact He.
Qed.

Lemma SFltb_finite_pos (m : positive) (e : Z) (m' : positive) (e' : Z) :
  SFltb (S754_finite false m e) (S754_finite false m' e') = true ->
  e < e' \/ (e = e' /\ Zpos m < Zpos m').
Proof.
  unfold SFltb. cbn [SFcompare]. intros Hlt.
  destruct (Z.compare_spec e e') as [Hc|Hc|Hc]; try discriminate Hlt.
  - right. split; [assumption|].
    rewrite Pos.compare_cont_spec in Hlt. unfold Pos.switch_Eq in Hlt.
    destruct (Pos.compare_spec m m') as [Hm'|Hm'|Hm']; try discriminate Hlt.
    apply Pos2Z.pos_lt_pos. assumption.
  - left. assumption.
Qed.

(** A float below a positive normal float: their exact difference is
    negative. *)
Lemma exact_diff_negative (s : bool) (m : positive) (e : Z) (m' : positive) (e' : Z) :
  Zpos m < 2 ^ 53 -> 2 ^ 52 <= Zpos m' ->
  SFltb (S754_finite s m e) (S754_finite false m' e') = true ->
  exact_diff s m e m' e' < 0.
Proof.
  unfold exact_diff. intros Hm Hm' Hlt.
  rewrite !shl_align_value by lia. cbn [cond_Zopp].
  assert (H1 : 0 < 2 ^ (e - Z.min e e')) by (apply Z.pow_pos_nonneg; lia).
  assert (H2 : 0 < 2 ^ (e' - Z.min e e')) by (apply Z.pow_pos_nonneg; lia).
  destruct s; cbn [cond_Zopp].
  - nia.
  - apply SFltb_finite_pos in Hlt as [Hc|[Hc Hlt]].
    + rewrite Z.min_l, Z.sub_diag, Z.pow_0_r by lia.
      assert (H3 : 2 ^ 1 <= 2 ^ (e' - e)) by (apply Z.pow_le_mono_r; lia).
      rewrite Z.pow_1_r in H3.
      replace (2 ^ 53) with (2 * 2 ^ 52) in Hm by reflexivity.
      nia.
    + subst e'. rewrite Z.min_id, Z.sub_diag, Z.pow_0_r. lia.
Qed.

Lemma tenth_normal : 2 ^ 52 <= Zpos tenth_m.
Proof. discriminate. Qed.

(** Below [0.1], the frame time [v - 0.1] is not a time at or after 0. *)
Lemma sub_tenth_negative (v : float) :
  (v <? tenth)%float = true -> (0 <=? v - tenth)%float = false.
Proof.
  rewrite ltb_spec, leb_spec, sub_spec, Prim2SF_zero, Prim2SF_tenth.
  fold tenth_m tenth_e.
  pose proof tenth_normal as Hn.
  assert (He' : emin64 <= tenth_e) by discriminate.
  generalize dependent tenth_e. generalize dependent tenth_m. intros mc Hn ec He'.
  pose proof (Prim2SF_valid v) as Hv.
  destruct (Prim2SF v) as [s|s| |s m e].
  - reflexivity.
  - destruct s; [reflexivity|discriminate].
  - discriminate.
  - intros Hlt. apply valid_finite in Hv as [Hm He].
    rewrite SFsub_finite.
    pose proof (exact_diff_negative s m e mc ec Hm Hn Hlt) as Hd.
    pose proof (negative_diff_signed _ (Z.min e ec) Hd ltac:(unfold emin64 in *; lia)) as Hs.
    destruct (binary_normalize prec emax _ _ false) as [|s'| |s' m' e']; cbn [signed] in Hs;
      try contradiction; subst; reflexivity.
Qed.

(** *** Comparisons *)

Lemma SFcompare_antisym (x y : spec_float) :
  SFcompare y x = option_map CompOpp (SFcompare x y).
Proof.
  destruct x as [[]|[]| |[] m e], y as [[]|[]| |[] m' e']; try reflexivity;
    cbn [SFcompare option_map]; rewrite (Z.compare_antisym e e');
    destruct (e ?= e'); cbn [CompOpp]; try reflexivity;
    pose proof (Pos.compare_cont_antisym m m' Eq) as H; cbn [CompOpp] in H;
    rewrite <- H; destruct (Pos.compare_cont Eq m m'); reflexivity.
Qed.

Lemma ltb_asym (x y : float) : (x <? y)%float = true -> (y <? x)%float = false.
Proof.
  rewrite !ltb_spec. unfold SFltb. rewrite (SFcompare_antisym (Prim2SF x) (Prim2SF y)).
  destruct (SFcompare (Prim2SF x) (Prim2SF y)) as [[]|]; cbn; congruence.
Qed.

(** [y <= x] fails only when [x < y] or one of the two is a NaN. *)
Lemma leb_false (x y : float) :
  (y <=? x)%float = false ->
  (x <? y)%float = true \/ Prim2SF x = S754_nan \/ Prim2SF y = S754_nan.
Proof.
  rewrite leb_spec, ltb_spec. unfold SFleb, SFltb.
  rewrite (SFcompare_antisym (Prim2SF x) (Prim2SF y)).
  destruct (SFcompare (Prim2SF x) (Prim2SF y)) as [[]|] eqn:Hc; cbn; try discriminate; auto.
  intros _. right.
  destruct (Prim2SF x) as [[]|[]| |[] m e], (Prim2SF y) as [[]|[]| |[] m' e'];
    cbn in Hc; try discriminate; auto.
Qed.

Lemma nan_sub_l (x y : float) : Prim2SF x = S754_nan -> Prim2SF (x - y)%float = S754_nan.
Proof. intros H. rewrite sub_spec, H. reflexivity. Qed.

Lemma leb_nan_r (x y : float) : Prim2SF y = S754_nan -> (x <=? y)%float = false.
Proof.
  intros H. rewrite leb_spec, H. unfold SFleb.
  destruct (Prim2SF x) as [[]|[]| |[] m e]; reflexivity.
Qed.
End FloatFacts.

(** ** Paths *)

Lemma append_length (a b : string) :
  String.length (a +:+ b) = (String.length a + String.length b)%nat.
Proof.
  induction a as [|c a IH]; [done|].
  change (String c a +:+ b) with (String c (a +:+ b)). cbn [String.length]. by rewrite IH.
Qed.

Lemma append_inv_tail (a b s : string) : a +:+ s = b +:+ s -> a = b.
Proof.
  revert b. induction a as [|c a IH]; intros [|d b] H.
  - done.
  - apply (f_equal String.length) in H. rewrite !append_length in H. cbn in H. lia.
  - apply (f_equal String.length) in H. rewrite !append_length in H. cbn in H. lia.
  - change (String c (a +:+ s) = String d (b +:+ s)) in H.
    inversion H; subst. f_equal. by apply IH.
Qed.

(** Two scenes of a video have different clip paths. *)
Lemma get_scene_path_inj (video_id a b : string) :
  get_scene_path a video_id = get_scene_path b video_id -> a = b.
Proof.
  unfold get_scene_path. intros H.
  do 4 apply String.app_inj in H.
  by apply append_inv_tail in H.
Qed.

(** The final video is not the clip of a scene. *)
Lemma final_video_path_not_scene (video_id scene_id : string) :
  final_video_path video_id <> get_scene_path scene_id video_id.
Proof.
  unfold final_video_path, get_scene_path. intros H.
  do 3 apply String.app_inj in H.
  apply (f_equal String.length) in H. rewrite !append_length in H. cbn in H. lia.
Qed.

(** ** The assembly *)

Lemma collect_clips_returns (self : SceneGenerator) (ids : list string) :
  forall sids clips w sids' clips' w',
    collect_clips self ids sids clips w = (Ok (sids', clips'), w') ->
    w' = emit_all (map (missing_log (video_id self)) (missing_scenes w (video_id self) ids)) w
    /\ sids' = sids ++ present_scenes w (video_id self) ids
    /\ map moviepy.filename clips'
       = map moviepy.filename clips
         ++ map (fun scene_id => get_scene_path scene_id (video_id self))
                (present_scenes w (video_id self) ids).
Proof.
  induction ids as [|scene_id rest IH]; intros sids clips w sids' clips' w' Hrun.
  - cbn in Hrun. inversion Hrun; subst. cbn. rewrite emit_all_nil, !app_nil_r. done.
  - cbn [collect_clips] in Hrun. rewrite bind_unfold in Hrun.
    unfold os.path_exists in Hrun.
    unfold present_scenes, missing_scenes. cbn [List.filter].
    change (os.path_exists_in w (get_scene_path scene_id (video_id self)))
      with (scene_on_disk w (video_id self) scene_id) in Hrun.
    destruct (scene_on_disk w (video_id self) scene_id) eqn:Hthere; cbn [negb].
    + rewrite bind_unfold in Hrun.
      destruct (moviepy.VideoFileClip _ w) as [[clip| |] w1] eqn:Hclip; try discriminate.
      unfold moviepy.VideoFileClip in Hclip.
      destruct (files w !! _) as [[| |m]|] eqn:Hfile; try discriminate.
      inversion Hclip; subst w1 clip; clear Hclip.
      apply IH in Hrun as (-> & -> & ->).
      split; [done|]. rewrite <- !app_assoc, map_app. cbn.
      split; [done|]. by rewrite <- !app_assoc.
    + rewrite bind_unfold in Hrun. cbn [log record] in Hrun.
      apply IH in Hrun as (-> & -> & ->).
      cbn [map]. rewrite emit_all_emit. done.
Qed.

(** The loop never runs out of fuel, and it returns when every clip found
    on disk is a video file. *)
Lemma collect_clips_progress (self : SceneGenerator) (ids : list string) :
  forall sids clips w,
    (forall scene_id, In scene_id ids -> scene_on_disk w (video_id self) scene_id = true ->
       exists m, files w !! get_scene_path scene_id (video_id self) = Some (Mp4File m)) ->
    exists r w', collect_clips self ids sids clips w = (Ok r, w').
Proof.
  induction ids as [|scene_id rest IH]; intros sids clips w Hfiles.
  - cbn. eauto.
  - cbn [collect_clips]. rewrite bind_unfold. unfold os.path_exists.
    pose proof (Hfiles scene_id (or_introl eq_refl)) as Hhere. unfold scene_on_disk in Hhere.
    destruct (os.path_exists_in w (get_scene_path scene_id (video_id self))) eqn:Hthere.
    + destruct (Hhere eq_refl) as [m Hm].
      rewrite bind_unfold. unfold moviepy.VideoFileClip. rewrite Hm.
      apply IH. intros s Hs. apply Hfiles. by right.
    + rewrite bind_unfold. cbn [log record].
      apply IH. intros s Hs. apply (Hfiles s). by right.
Qed.

Lemma present_nil_all_missing (w : world) (vid : string) (ids : list string) :
  (forall scene_id, In scene_id ids -> scene_on_disk w vid scene_id = false) ->
  present_scenes w vid ids = [] /\ missing_scenes w vid ids = ids.
Proof.
  induction ids as [|i ids IH]; intros H; [done|].
  unfold present_scenes, missing_scenes in *. cbn [List.filter].
  rewrite (H i (or_introl eq_refl)). cbn [negb].
  destruct IH as [-> ->]; [|done]. intros s Hs. apply H. by right.
Qed.

(** What [combine_video_scenes] does when it returns: with no clip on disk
    it logs and returns [None], the disk untouched; otherwise the final
    video holds the clips found, in the order of the dictionary. *)
Lemma combine_video_scenes_returns (E : env) (self : SceneGenerator) (w : world) r w' :
  combine_video_scenes E self w = (Ok r, w') ->
  let vid := video_id self in
  let ids := Py.keys (scene_transcriptions self) in
  let logs := map (missing_log vid) (missing_scenes w vid ids) in
  match present_scenes w vid ids with
  | [] => r = None /\ w' = emit_all (logs ++ [Logged LogNoScenes]) w
  | kept =>
      r = Some (final_video_path vid)
      /\ exists m,
          parts m = map (fun scene_id => get_scene_path scene_id vid) kept
          /\ encode_fault E (clock w) (final_video_path vid) = None
          /\ w' = World (S (clock w)) (dirs w)
                    (<[ final_video_path vid := Mp4File m ]> (files w))
                    (trace w ++ logs ++ [Logged (LogFinalPath (final_video_path vid))])
  end.
Proof.
  unfold combine_video_scenes. rewrite bind_unfold. intros Hrun.
  destruct (collect_clips self _ [] [] w) as [[[sids clips]| |] w1] eqn:Hcollect;
    try discriminate.
  apply collect_clips_returns in Hcollect as (-> & -> & Hnames). cbn [app map] in *.
  destruct clips as [|clip clips].
  - cbn in Hnames. symmetry in Hnames. apply map_eq_nil in Hnames. rewrite Hnames.
    rewrite bind_unfold in Hrun. cbn [log record] in Hrun.
    inversion Hrun; subst. split; [done|].
    unfold emit, emit_all. cbn. by rewrite <- app_assoc.
  - destruct (present_scenes w (video_id self) _) as [|k kept] eqn:Hkept.
    { cbn in Hnames. discriminate. }
    rewrite bind_unfold in Hrun. unfold moviepy.write_videofile in Hrun.
    rewrite bind_unfold in Hrun. cbn [tick] in Hrun.
    cbn [clock emit_all tick_clock] in Hrun.
    destruct (encode_fault E (clock w) _) eqn:Hfault; [discriminate|].
    rewrite bind_unfold in Hrun. cbn [log record ret] in Hrun.
    inversion Hrun; subst. split; [done|].
    eexists. split; [|split; [done|]].
    2:{ unfold emit, with_files, emit_all. cbn. rewrite <- app_assoc. reflexivity. }
    cbn [moviepy.media_of parts moviepy.concatenate_videoclips moviepy.v_parts].
    exact Hnames.
Qed.

Lemma errors_logged_app (l1 l2 : list event) :
  errors_logged (l1 ++ l2) = errors_logged l1 ++ errors_logged l2.
Proof. apply flat_map_app. Qed.

Lemma errors_logged_missing (vid : string) (ids : list string) :
  errors_logged (map (missing_log vid) ids)
  = map (fun scene_id => LogMissingVideo (get_scene_path scene_id vid)) ids.
Proof. induction ids as [|i ids IH]; [done|]. cbn. by rewrite <- IH. Qed.

(** Under the same condition the whole of [combine_video_scenes] is
    determined by the clips on disk and by the encoder. *)
Lemma combine_video_scenes_spec (E : env) (self : SceneGenerator) (w : world) :
  let vid := video_id self in
  let ids := Py.keys (scene_transcriptions self) in
  let logs := map (missing_log vid) (missing_scenes w vid ids) in
  (forall scene_id, In scene_id ids -> scene_on_disk w vid scene_id = true ->
     exists m, files w !! get_scene_path scene_id vid = Some (Mp4File m)) ->
  match present_scenes w vid ids with
  | [] => combine_video_scenes E self w
          = (Ok None, emit_all (logs ++ [Logged LogNoScenes]) w)
  | kept =>
      match encode_fault E (clock w) (final_video_path vid) with
      | Some e =>
          combine_video_scenes E self w = (Raise e, tick_clock (emit_all logs w))
      | None =>
          exists m,
            parts m = map (fun scene_id => get_scene_path scene_id vid) kept
            /\ combine_video_scenes E self w
               = (Ok (Some (final_video_path vid)),
                  World (S (clock w)) (dirs w)
                    (<[ final_video_path vid := Mp4File m ]> (files w))
                    (trace w ++ logs ++ [Logged (LogFinalPath (final_video_path vid))]))
      end
  end.
Proof.
  intros vid ids logs Hfiles.
  destruct (collect_clips_progress self ids [] [] w Hfiles) as ([sids clips] & w1 & Hcollect).
  pose proof (collect_clips_returns _ _ _ _ _ _ _ _ Hcollect) as (-> & -> & Hnames).
  cbn [app map] in Hnames. fold vid ids logs in Hnames, Hcollect.
  unfold combine_video_scenes. rewrite bind_unfold. fold ids. rewrite Hcollect.
  destruct (present_scenes w vid ids) as [|k kept] eqn:Hkept.
  - cbn in Hnames. apply map_eq_nil in Hnames. subst clips.
    rewrite bind_unfold. cbn [log record ret].
    unfold emit, emit_all. cbn. by rewrite <- app_assoc.
  - destruct clips as [|clip clips]; [discriminate|].
    rewrite bind_unfold. unfold moviepy.write_videofile.
    rewrite bind_unfold. cbn [tick clock emit_all tick_clock]. fold vid.
    destruct (encode_fault E (clock w) (final_video_path vid)) eqn:Hfault.
    + reflexivity.
    + rewrite bind_unfold. cbn [log record ret].
      eexists (moviepy.media_of (moviepy.concatenate_videoclips (clip :: clips))).
      split; [exact Hnames|].
      unfold emit, with_files, emit_all. cbn. by rewrite <- app_assoc.
Qed.

(** C6: when no scene has a clip on disk at assembly time,
    [combine_video_scenes] returns [None]; it only logs, so that neither a
    file nor a directory is written and the encoder is never started. *)
Theorem no_clip_no_final_video (E : env) (self : SceneGenerator) (w : world) :
  (forall scene_id, In scene_id (Py.keys (scene_transcriptions self)) ->
     os.path_exists_in w (get_scene_path scene_id (video_id self)) = false) ->
  exists w',
    combine_video_scenes E self w = (Ok None, w')
    /\ files w' = files w /\ dirs w' = dirs w /\ clock w' = clock w
    /\ files w' !! final_video_path (video_id self) = files w !! final_video_path (video_id self)
    /\ exists logs, trace w' = trace w ++ logs ++ [Logged LogNoScenes].
Proof.
  intros Hnone.
  destruct (present_nil_all_missing w (video_id self) _ Hnone) as [Hpresent Hmissing].
  pose proof (combine_video_scenes_spec E self w) as Hspec. cbn zeta in Hspec.
  rewrite Hpresent in Hspec. rewrite Hspec.
  - eexists. split; [reflexivity|]. cbn. repeat split; try done. eauto.
  - intros scene_id Hin Hthere. unfold scene_on_disk in Hthere.
    rewrite (Hnone scene_id Hin) in Hthere. discriminate.
Qed.

(** C7: a scene whose clip is missing at assembly time is reported at level
    ERROR and left out; the scenes whose clips are there are still
    assembled, in the order of the dictionary, unless the encoder fails. *)
Theorem missing_clip_is_logged_and_left_out (E : env) (self : SceneGenerator) (w : world) :
  let vid := video_id self in
  let ids := Py.keys (scene_transcriptions self) in
  let path := fun scene_id => get_scene_path scene_id vid in
  (forall scene_id, In scene_id ids -> scene_on_disk w vid scene_id = true ->
     exists m, files w !! path scene_id = Some (Mp4File m)) ->
  exists r w' new,
    combine_video_scenes E self w = (r, w')
    /\ trace w' = trace w ++ new
    /\ (forall scene_id, In scene_id (missing_scenes w vid ids) ->
          In (LogMissingVideo (path scene_id)) (errors_logged new))
    /\ match present_scenes w vid ids with
       | [] => r = Ok None
       | kept =>
           match encode_fault E (clock w) (final_video_path vid) with
           | Some e => r = Raise e
           | None =>
               r = Ok (Some (final_video_path vid))
               /\ exists m,
                   files w' !! final_video_path vid = Some (Mp4File m)
                   /\ parts m = map path kept
                   /\ forall scene_id, In scene_id (missing_scenes w vid ids) ->
                        ~ In (path scene_id) (parts m)
           end
       end.
Proof.
  intros vid ids path Hfiles.
  pose proof (combine_video_scenes_spec E self w Hfiles) as Hspec.
  fold vid ids in Hspec.
  assert (Hlogged : forall tail scene_id, In scene_id (missing_scenes w vid ids) ->
            In (LogMissingVideo (path scene_id))
               (errors_logged (map (missing_log vid) (missing_scenes w vid ids) ++ tail))).
  { intros tail scene_id Hin. rewrite errors_logged_app, errors_logged_missing.
    apply in_or_app. left. by apply (in_map (fun s => LogMissingVideo (path s))). }
  destruct (present_scenes w vid ids) as [|k kept] eqn:Hkept.
  - do 3 eexists. split; [exact Hspec|]. cbn [trace emit_all]. split; [reflexivity|].
    split; [apply Hlogged|done].
  - destruct (encode_fault E (clock w) (final_video_path vid)) eqn:Hfault.
    + exists (Raise e), (tick_clock (emit_all (map (missing_log vid) (missing_scenes w vid ids)) w)),
        (map (missing_log vid) (missing_scenes w vid ids) ++ []).
      split; [exact Hspec|]. cbn [trace emit_all tick_clock]. rewrite app_nil_r.
      split; [reflexivity|]. split; [|done]. intros s Hs.
      specialize (Hlogged [] s Hs). by rewrite app_nil_r in Hlogged.
    + destruct Hspec as (m & Hparts & Hspec).
      do 3 eexists. split; [exact Hspec|]. cbn [trace files]. split; [reflexivity|].
      split; [apply Hlogged|]. split; [done|].
      exists m. split; [apply lookup_insert_eq|]. split; [exact Hparts|].
      intros s Hs Hin. rewrite Hparts in Hin. apply in_map_iff in Hin as (s' & Heq & Hs').
      apply get_scene_path_inj in Heq. subst s'.
      rewrite <- Hkept in Hs'. unfold present_scenes, missing_scenes in *.
      apply filter_In in Hs as [_ Hs]. apply filter_In in Hs' as [_ Hs'].
      rewrite Hs' in Hs. discriminate.
Qed.

Lemma no_clip_no_final_video_witness :
  exists w',
    combine_video_scenes quiet_env two_scenes empty_world = (Ok None, w')
    /\ files w' = files empty_world /\ dirs w' = dirs empty_world
    /\ clock w' = clock empty_world
    /\ files w' !! final_video_path (video_id two_scenes)
       = files empty_world !! final_video_path (video_id two_scenes)
    /\ exists logs, trace w' = trace empty_world ++ logs ++ [Logged LogNoScenes].
Proof.
  apply (no_clip_no_final_video quiet_env two_scenes empty_world).
  intros scene_id [<-|[<-|[]]]; vm_compute; reflexivity.
Defined.

Lemma missing_clip_is_logged_and_left_out_witness :
  exists r w' new,
    combine_video_scenes quiet_env two_scenes only_a_on_disk = (r, w')
    /\ trace w' = trace only_a_on_disk ++ new
    /\ (forall scene_id, In scene_id (missing_scenes only_a_on_disk "v" ["a"; "b"]) ->
          In (LogMissingVideo (get_scene_path scene_id "v")) (errors_logged new))
    /\ r = Ok (Some (final_video_path "v"))
    /\ exists m,
        files w' !! final_video_path "v" = Some (Mp4File m)
        /\ parts m = [get_scene_path "a" "v"]
        /\ forall scene_id, In scene_id (missing_scenes only_a_on_disk "v" ["a"; "b"]) ->
             ~ In (get_scene_path scene_id "v") (parts m).
Proof.
  apply (missing_clip_is_logged_and_left_out quiet_env two_scenes only_a_on_disk).
  intros scene_id [<-|[<-|[]]] Hthere.
  - eexists. vm_compute. reflexivity.
  - vm_compute in Hthere. discriminate Hthere.
Defined.

(** ** Speech synthesis *)

(** C9: when the speech service raises, [generate_speech] raises the same
    exception and leaves the disk as it was: no directory was created and
    no file written. *)
Theorem failed_synthesis_touches_no_file (E : env) (self : SceneGenerator)
    (scene_id video_id text : string) (e : exn) (w : world) :
  Py.dict_get scene_id (scene_transcriptions self) = Some text ->
  speech_synthesize E (clock w) text VOICE_ID "wav" = Raises e ->
  exists w',
    generate_speech E self scene_id video_id w = (Raise e, w')
    /\ dirs w' = dirs w /\ files w' = files w
    /\ forall p, os.path_exists_in w' p = os.path_exists_in w p.
Proof.
  intros Htext Hfail. unfold generate_speech, transcription_of. rewrite Htext.
  rewrite bind_unfold. cbn [ret]. rewrite bind_unfold. cbn [tick].
  rewrite bind_unfold. cbn [record]. rewrite bind_unfold.
  cbn [emit tick_clock clock]. rewrite Hfail. cbn [lift_reply raise].
  eexists. split; [reflexivity|]. cbn. done.
Qed.

(** ** The generation loop *)

Lemma llm_requests_app (l1 l2 : list event) :
  llm_requests (l1 ++ l2) = (llm_requests l1 + llm_requests l2)%nat.
Proof. unfold llm_requests. by rewrite List.filter_app, length_app. Qed.

Lemma render_reports_app (l1 l2 : list event) :
  render_reports (l1 ++ l2) = render_reports l1 ++ render_reports l2.
Proof. apply flat_map_app. Qed.

Lemma llm_requests_cons (e : event) (l : list event) :
  llm_requests (e :: l) = ((if is_llm_request e then 1 else 0) + llm_requests l)%nat.
Proof. unfold llm_requests. cbn [List.filter]. by destruct (is_llm_request e). Qed.

Lemma render_reports_cons (e : event) (l : list event) :
  render_reports (e :: l) = render_report e ++ render_reports l.
Proof. reflexivity. Qed.

(** Counting the requests and the reports of an explicit trace. *)
Ltac count_events :=
  repeat first
    [ rewrite llm_requests_cons | rewrite llm_requests_app
    | rewrite render_reports_cons | rewrite render_reports_app ];
  cbn [is_llm_request render_report fst snd];
  change (llm_requests []) with 0%nat; change (render_reports []) with (@nil bool).

(** One step of symbolic execution in the monad. *)
Ltac mstep :=
  repeat first
    [ rewrite bind_unfold
    | progress cbn [tick record log ret raise lift_reply when negb] ].
Ltac mstep_in H :=
  repeat first
    [ rewrite bind_unfold in H
    | progress cbn [tick record log ret raise lift_reply when negb] in H ].

Section Loop.
Variable E : env.
Variable self : SceneGenerator.
Variable scene_id : string.

(** Creating a directory and writing a file log nothing and always come
    to an end. *)
Lemma ensure_dir_trace (d : string) (w : world) r w' :
  ensure_dir E d w = (r, w') -> trace w' = trace w /\ r <> OutOfFuel.
Proof.
  unfold ensure_dir, os.path_exists. mstep.
  destruct (os.path_exists_in w _); mstep.
  - intros H; inversion H; subst. done.
  - unfold os.makedirs, os.fault, os.path_exists. mstep.
    destruct (fs_fault E _ _); mstep.
    + intros H; inversion H; subst. done.
    + destruct (os.path_exists_in _ _); mstep; intros H; inversion H; subst; done.
Qed.

Lemma write_file_trace (p : string) (data : file) (w : world) r w' :
  os.write_file E p data w = (r, w') -> trace w' = trace w /\ r <> OutOfFuel.
Proof.
  unfold os.write_file, os.fault. mstep.
  destruct (fs_fault E _ _); mstep.
  - intros H; inversion H; subst. done.
  - destruct (bool_decide _); intros H; inversion H; subst; done.
Qed.

(** Writing the program logs nothing and always comes to an end. *)
Lemma put_code_in_file_trace (output : string) (w : world) r w' :
  put_code_in_file E self scene_id output w = (r, w') ->
  trace w' = trace w /\ r <> OutOfFuel.
Proof.
  unfold put_code_in_file. mstep.
  destruct (ensure_dir E _ w) as [[[]|e|] w1] eqn:Hdir;
    apply ensure_dir_trace in Hdir as [Htrace Hfuel].
  - intros Hwrite. apply write_file_trace in Hwrite as [Htrace' Hfuel'].
    split; [congruence|done].
  - intros H; inversion H; subst. done.
  - done.
Qed.

(** [render_scene] always returns; it sends no request and logs no status. *)
Lemma render_scene_trace (w : world) :
  exists render_output w' new,
    render_scene E self scene_id w = (Ok render_output, w')
    /\ trace w' = trace w ++ new
    /\ llm_requests new = 0%nat /\ render_reports new = [].
Proof.
  unfold render_scene. mstep.
  destruct (subprocess_run E _ _) as [stdout rendered|returncode stderr|e]; mstep.
  - do 3 eexists.
    split; [reflexivity|]. cbn [trace emit with_files with_dirs tick_clock].
    rewrite <- !app_assoc. split; [reflexivity|]. done.
  - do 3 eexists. split; [reflexivity|].
    cbn [trace emit tick_clock]. rewrite <- !app_assoc. split; [reflexivity|]. done.
  - do 3 eexists. split; [reflexivity|].
    cbn [trace emit tick_clock]. rewrite <- !app_assoc. split; [reflexivity|]. done.
Qed.

(** How a run of the loop that starts at [iteration] ends, [j] being the
    number of renderings that failed: a rendering succeeded; or the
    attempts are used up; or the program could not be written; or the
    language model raised. *)
Lemma generate_manim_loop_spec (fuel : nat) :
  forall iteration messages w,
    (iteration <= MAX_ITERATIONS)%nat ->
    (MAX_ITERATIONS - iteration <= fuel)%nat ->
    exists r w' new j,
      generate_manim_loop E fuel self scene_id iteration messages w = (r, w')
      /\ trace w' = trace w ++ new
      /\ ((r = Ok (Some scene_id)
           /\ render_reports new = replicate j false ++ [true]
           /\ llm_requests new = S j /\ (iteration + S j <= MAX_ITERATIONS)%nat)
          \/ (r = Ok None
              /\ render_reports new = replicate j false
              /\ llm_requests new = j /\ (iteration + j = MAX_ITERATIONS)%nat)
          \/ (r = Ok None
              /\ render_reports new = replicate j false
              /\ llm_requests new = S j /\ (iteration + S j <= MAX_ITERATIONS)%nat)
          \/ (exists e, r = Raise e
              /\ render_reports new = replicate j false
              /\ llm_requests new = S j /\ (iteration + S j <= MAX_ITERATIONS)%nat)).
Proof.
  induction fuel as [|fuel IH]; intros iteration messages w Hle Hfuel.
  - exists (Ok None), w, [], 0%nat. cbn [generate_manim_loop].
    replace (iteration <? MAX_ITERATIONS)%nat with false
      by (symmetry; apply Nat.ltb_ge; lia).
    cbn [negb ret]. rewrite app_nil_r. split; [done|split; [done|]].
    right; left. repeat split; try done. lia.
  - cbn [generate_manim_loop].
    destruct (iteration <? MAX_ITERATIONS)%nat eqn:Hlt; cbn [negb].
    2:{ apply Nat.ltb_ge in Hlt. exists (Ok None), w, [], 0%nat.
        cbn [ret]. rewrite app_nil_r. split; [done|split; [done|]].
        right; left. repeat split; try done. lia. }
    apply Nat.ltb_lt in Hlt. mstep.
    cbn [clock emit tick_clock].
    destruct (chat_completions_create E (clock w) messages) as [response|e]; mstep.
    2:{ do 2 eexists. exists [LlmRequest messages], 0%nat.
        split; [reflexivity|]. split; [reflexivity|].
        right; right; right. exists e. repeat split; try done. lia. }
    unfold try_except. mstep.
    match goal with
    | |- context [put_code_in_file E self scene_id ?o ?w0] =>
        destruct (put_code_in_file E self scene_id o w0) as [[[]|e|] w1] eqn:Hput;
        apply put_code_in_file_trace in Hput as [Htrace Hfuel']
    end; [| |done].
    2:{ mstep. do 2 eexists. eexists _, 0%nat. split; [reflexivity|].
        cbn [trace emit]. rewrite Htrace. cbn [trace emit tick_clock].
        rewrite <- !app_assoc. split; [reflexivity|].
        right; right; left. repeat split; try done. lia. }
    mstep.
    destruct (render_scene_trace w1) as (ro & w2 & new & Hrender & Htrace2 & Hreq & Hrep).
    rewrite Hrender. mstep. destruct ro as [[] msg]; cbn [fst snd]; mstep.
    + do 2 eexists. eexists _, 0%nat. split; [reflexivity|].
      cbn [trace emit]. rewrite Htrace2, Htrace. cbn [trace emit tick_clock].
      rewrite <- !app_assoc. split; [reflexivity|].
      left. cbn [app]. count_events. rewrite Hreq, Hrep. cbn [app].
      repeat split; try done. lia.
    + match goal with
      | |- context [generate_manim_loop E fuel self scene_id (S iteration) ?ms ?w0] =>
          destruct (IH (S iteration) ms w0 ltac:(lia) ltac:(lia))
            as (r & w3 & new' & j & Hloop & Htrace3 & Hcases)
      end.
      rewrite Hloop. exists r, w3. eexists _.
      destruct Hcases as [(-> & Hr & Hq & Hb)|[(-> & Hr & Hq & Hb)|[(-> & Hr & Hq & Hb)|(e & -> & Hr & Hq & Hb)]]].
      * exists (S j). split; [reflexivity|]. rewrite Htrace3. cbn [trace emit].
        rewrite Htrace2, Htrace. cbn [trace emit tick_clock].
        rewrite <- !app_assoc. split; [reflexivity|]. left.
        cbn [app]. count_events. rewrite Hreq, Hrep, Hr, Hq. cbn [app].
        repeat split; try done. lia.
      * exists (S j). split; [reflexivity|]. rewrite Htrace3. cbn [trace emit].
        rewrite Htrace2, Htrace. cbn [trace emit tick_clock].
        rewrite <- !app_assoc. split; [reflexivity|]. right; left.
        cbn [app]. count_events. rewrite Hreq, Hrep, Hr, Hq. cbn [app].
        repeat split; try done. lia.
      * exists (S j). split; [reflexivity|]. rewrite Htrace3. cbn [trace emit].
        rewrite Htrace2, Htrace. cbn [trace emit tick_clock].
        rewrite <- !app_assoc. split; [reflexivity|]. right; right; left.
        cbn [app]. count_events. rewrite Hreq, Hrep, Hr, Hq. cbn [app].
        repeat split; try done. lia.
      * exists (S j). split; [reflexivity|]. rewrite Htrace3. cbn [trace emit].
        rewrite Htrace2, Htrace. cbn [trace emit tick_clock].
        rewrite <- !app_assoc. split; [reflexivity|]. right; right; right. exists e.
        cbn [app]. count_events. rewrite Hreq, Hrep, Hr, Hq. cbn [app].
        repeat split; try done. lia.
Qed.
End Loop.

Lemma replicate_false_then_true_inj (j k : nat) :
  replicate j false ++ [true] = replicate k false ++ [true] -> j = k.
Proof.
  intros H. apply (f_equal length) in H.
  rewrite !length_app, !length_replicate in H. cbn in H. lia.
Qed.

Lemma replicate_false_no_true (j : nat) (l : list bool) :
  replicate j false <> l ++ [true].
Proof.
  intros H. assert (Hin : true ∈ replicate j false).
  { rewrite H. apply elem_of_app. right. apply list_elem_of_singleton. done. }
  apply elem_of_replicate in Hin as [Hin _]. discriminate.
Qed.


Lemma failed_synthesis_touches_no_file_witness :
  exists w',
    generate_speech mute_env two_scenes "a" "v" empty_world
    = (Raise (Exn "SpeechError" "503 Service Unavailable"), w')
    /\ dirs w' = dirs empty_world /\ files w' = files empty_world
    /\ forall p, os.path_exists_in w' p = os.path_exists_in empty_world p.
Proof.
  apply (failed_synthesis_touches_no_file mute_env two_scenes "a" "v" "one"); reflexivity.
Defined.

(** The third rendering succeeds: three requests, the scene id. *)
Example third_attempt_succeeds :
  let run := generate_manim (failing_until 9) two_scenes "a" empty_world in
  fst run = Ok (Some "a")
  /\ llm_requests (trace (snd run)) = 3%nat
  /\ render_reports (trace (snd run)) = [false; false; true].
Proof. vm_compute. done. Qed.

(** No rendering succeeds: five requests, [None]. *)
Example all_attempts_fail :
  let run := generate_manim (failing_until 100) two_scenes "a" empty_world in
  fst run = Ok None
  /\ llm_requests (trace (snd run)) = 5%nat
  /\ render_reports (trace (snd run)) = [false; false; false; false; false].
Proof. vm_compute. done. Qed.

(** ** Duration reconciliation *)

Lemma adjust_clips_spec (video : moviepy.VideoClip) (audio : moviepy.AudioClip) (w : world) :
  let v := moviepy.v_duration video in
  let a := moviepy.a_duration audio in
  adjust_clips video audio w
  = if (a <? v)%float then (Ok (video, pad_with_silence v a audio), w)
    else if (v <? a)%float then
      (Ok (hold_last_frame v a video, audio),
       emit_all [Logged LogAudioLonger;
                 FrameRead (moviepy.filename video) (last_frame_time v)] w)
    else (Ok (video, audio), w).
Proof.
  cbn zeta. unfold adjust_clips.
  destruct (_ <? _)%float; [reflexivity|].
  destruct (_ <? _)%float; [|reflexivity].
  mstep. unfold emit, emit_all. cbn. by rewrite <- app_assoc.
Qed.

(** Cutting never logs and never runs out of fuel. *)
Lemma trim_and_mux_pure (video : moviepy.VideoClip) (audio : moviepy.AudioClip) (w : world) r w' :
  trim_and_mux video audio w = (r, w') -> w' = w /\ r <> OutOfFuel.
Proof.
  unfold trim_and_mux. mstep.
  destruct (moviepy.v_subclip _ video) as [video'|e]; mstep.
  2:{ intros H; inversion H; subst; done. }
  destruct (moviepy.a_subclip _ audio) as [audio'|e]; mstep;
    intros H; inversion H; subst; done.
Qed.

(** Two tracks of durations that are not negative, the picture carrying no
    sound of its own: both are cut to the shorter duration. *)
Lemma trim_and_mux_equal (video : moviepy.VideoClip) (audio : moviepy.AudioClip) (w : world) :
  moviepy.v_audio video = None ->
  (moviepy.v_duration video <? 0)%float = false ->
  (moviepy.a_duration audio <? 0)%float = false ->
  let final_duration := Py.min (moviepy.v_duration video) (moviepy.a_duration audio) in
  exists final_clip,
    trim_and_mux video audio w = (Ok final_clip, w)
    /\ moviepy.media_of final_clip
       = Media final_duration (Some final_duration) (moviepy.v_parts video).
Proof.
  intros Hsilent Hv Ha final_duration.
  assert (Hfd : (final_duration <? 0)%float = false).
  { unfold final_duration, Py.min.
    by destruct (moviepy.a_duration audio <? moviepy.v_duration video)%float. }
  unfold trim_and_mux. fold final_duration.
  unfold moviepy.v_subclip, moviepy.a_subclip, moviepy.subclip_bounds.
  rewrite Hv, Ha, Hfd, Hsilent, FloatFacts.sub_zero_r. mstep.
  eexists. split; [reflexivity|]. reflexivity.
Qed.

Lemma max_not_negative (a s : float) :
  (0 <? a)%float = true -> (Py.max a s <? 0)%float = false.
Proof.
  intros Ha. unfold Py.max. destruct (a <? s)%float eqn:Has.
  - by apply (FloatFacts.above_pos_not_neg a s).
  - by apply FloatFacts.pos_not_neg.
Qed.

(** C2, as the code has it: for a rendered clip of duration [v] and a voice
    of duration [a], both positive, [combine_manim_and_speech] replaces the
    clip by one whose picture and sound have the same duration, the minimum
    of the two adjusted durations. A longer voice extends the picture to
    exactly [a]; equal durations pass through; a shorter voice is padded
    with a silence of [v - a] seconds placed at [a], which makes it
    [max a (a + (v - a))] long in binary64: that is [v] when the sum is
    exact, and the final duration is then [v]. *)
Theorem reconciled_tracks_have_equal_durations (E : env) (self : SceneGenerator)
    (scene_id video_id : string) (w : world) (v a : float) (ps : list string) :
  let scene_path := get_scene_path scene_id video_id in
  files w !! scene_path = Some (Mp4File (Media v None ps)) ->
  files w !! get_audio_path scene_id video_id = Some (WavFile (Wav a)) ->
  (0 <? v)%float = true -> (0 <? a)%float = true ->
  fs_fault E (clock w) scene_path = None ->
  encode_fault E (S (clock w)) scene_path = None ->
  exists w' final_duration,
    combine_manim_and_speech E self scene_id video_id w = (Ok tt, w')
    /\ files w' !! scene_path
       = Some (Mp4File (Media final_duration (Some final_duration) ps))
    /\ ((a <? v)%float = true ->
          final_duration = Py.min v (Py.max a (a + (v - a))%float)
          /\ ((a + (v - a))%float = v -> final_duration = v))
    /\ ((v <? a)%float = true -> final_duration = a)
    /\ ((a <? v)%float = false -> (v <? a)%float = false -> final_duration = v).
Proof.
  intros scene_path Hvideo Haudio Hv Ha Hfs Henc.
  unfold combine_manim_and_speech. fold scene_path.
  unfold moviepy.VideoFileClip, moviepy.AudioFileClip. mstep.
  rewrite Hvideo. mstep. cbn [files emit]. rewrite Haudio. mstep.
  rewrite adjust_clips_spec.
  cbn [moviepy.v_duration moviepy.a_duration moviepy.new_AudioClip wav_duration
       video_duration audio_duration option_map parts moviepy.filename].
  set (video := moviepy.mkVideo scene_path 0 v v None ps).
  set (audio := moviepy.mkAudio 0 a a).
  (* the three branches end in the same way *)
  assert (Hend : forall video' audio' w0,
            moviepy.v_audio video' = None -> moviepy.v_parts video' = ps ->
            (moviepy.v_duration video' <? 0)%float = false ->
            (moviepy.a_duration audio' <? 0)%float = false ->
            files w0 = files w -> clock w0 = clock w ->
            exists w',
              (let* final_clip := trim_and_mux video' audio' in
               os.remove E scene_path ;;;
               moviepy.write_videofile E scene_path final_clip ;;;
               record (Closed scene_id VideoVar) ;;;
               record (Closed scene_id AudioVar) ;;;
               record (Closed scene_id FinalClipVar) ;;;
               log (LogAudioAdded scene_id))%py w0 = (Ok tt, w')
              /\ files w' !! scene_path
                 = Some (Mp4File
                           (Media (Py.min (moviepy.v_duration video') (moviepy.a_duration audio'))
                              (Some (Py.min (moviepy.v_duration video') (moviepy.a_duration audio')))
                              ps))).
  { intros video' audio' w0 Hsilent Hparts Hv' Ha' Hfiles Hclock.
    destruct (trim_and_mux_equal video' audio' w0 Hsilent Hv' Ha') as (final_clip & Hmux & Hmedia).
    rewrite bind_unfold, Hmux. unfold os.remove, os.fault, moviepy.write_videofile. mstep.
    rewrite Hclock, Hfs. mstep. cbn [files tick_clock dirs]. rewrite Hfiles.
    rewrite bool_decide_eq_true_2 by (apply elem_of_dom; eauto).
    mstep. cbn [clock with_files tick_clock]. rewrite Hclock, Henc. mstep.
    eexists. split; [reflexivity|]. cbn [files emit with_files].
    rewrite lookup_insert_eq, Hmedia, Hparts. reflexivity. }
  destruct (a <? v)%float eqn:Hav; [|destruct (v <? a)%float eqn:Hva].
  - destruct (Hend video (pad_with_silence v a audio) (emit (Logged (LogDurations v a)) w))
      as (w' & Hrun & Hfile); try done.
    { by apply FloatFacts.pos_not_neg. }
    { cbn. by apply max_not_negative. }
    exists w'. eexists. split; [exact Hrun|]. split; [exact Hfile|].
    cbn [pad_with_silence moviepy.a_duration moviepy.CompositeAudioClip Py.max_list
         fold_left map moviepy.a_end moviepy.a_set_start moviepy.new_AudioClip
         moviepy.v_duration video audio].
    split; [|split; [|discriminate]].
    2:{ intros Hva. apply FloatFacts.ltb_asym in Hva. congruence. }
    intros _. split; [reflexivity|]. intros Hexact. rewrite Hexact.
    unfold Py.max, Py.min. rewrite Hav. by destruct (v <? v)%float.
  - destruct (Hend (hold_last_frame v a video) audio
                (emit_all [Logged LogAudioLonger; FrameRead scene_path (last_frame_time v)]
                   (emit (Logged (LogDurations v a)) w)))
      as (w' & Hrun & Hfile); try done.
    { cbn. by apply FloatFacts.pos_not_neg. }
    { by apply FloatFacts.pos_not_neg. }
    exists w'. eexists. split; [exact Hrun|]. split; [exact Hfile|].
    cbn [hold_last_frame moviepy.v_set_duration moviepy.v_duration moviepy.a_duration audio].
    split; [discriminate|]. split; [|intros _; discriminate].
    intros _. unfold Py.min. by destruct (a <? a)%float.
  - destruct (Hend video audio (emit (Logged (LogDurations v a)) w))
      as (w' & Hrun & Hfile); try done.
    { by apply FloatFacts.pos_not_neg. }
    { by apply FloatFacts.pos_not_neg. }
    exists w'. eexists. split; [exact Hrun|]. split; [exact Hfile|].
    cbn [moviepy.v_duration moviepy.a_duration video audio].
    split; [discriminate|]. split; [discriminate|].
    intros _ _. unfold Py.min. by rewrite Hav.
Qed.

Lemma closed_clips_app (l1 l2 : list event) :
  closed_clips (l1 ++ l2) = closed_clips l1 ++ closed_clips l2.
Proof. apply flat_map_app. Qed.

(** The end of [combine_manim_and_speech], from [os.remove] on: the three
    [close] calls are reached only past the write. *)
Lemma replace_clip_spec (E : env) (scene_id scene_path : string)
    (final_clip : moviepy.VideoClip) (w : world) :
  exists r w' new,
    (os.remove E scene_path ;;;
     moviepy.write_videofile E scene_path final_clip ;;;
     record (Closed scene_id VideoVar) ;;;
     record (Closed scene_id AudioVar) ;;;
     record (Closed scene_id FinalClipVar) ;;;
     log (LogAudioAdded scene_id))%py w = (r, w')
    /\ trace w' = trace w ++ new
    /\ r <> OutOfFuel
    /\ closed_clips new
       = match r with
         | Ok _ => [(scene_id, VideoVar); (scene_id, AudioVar); (scene_id, FinalClipVar)]
         | _ => []
         end.
Proof.
  unfold os.remove, os.fault, moviepy.write_videofile. mstep.
  destruct (fs_fault E _ _); mstep.
  { do 2 eexists. exists []. rewrite app_nil_r. done. }
  destruct (bool_decide _); mstep.
  2:{ do 2 eexists. exists []. rewrite app_nil_r. done. }
  destruct (encode_fault E _ _); mstep.
  { do 2 eexists. exists []. rewrite app_nil_r. done. }
  do 3 eexists. split; [reflexivity|]. cbn [trace emit with_files tick_clock].
  rewrite <- !app_assoc. split; [reflexivity|]. done.
Qed.


Lemma frame_reads_app (l1 l2 : list event) :
  frame_reads (l1 ++ l2) = frame_reads l1 ++ frame_reads l2.
Proof. apply flat_map_app. Qed.

(** C10: when the voice is longer than the clip, the frame to hold is read
    once, at [video_duration - 0.1]. That time lies within the clip only if
    [video_duration >= 0.1]: for a clip shorter than a tenth of a second it
    is out of range. *)
Theorem held_frame_time_needs_a_tenth (video : moviepy.VideoClip)
    (audio : moviepy.AudioClip) (w : world) :
  let v := moviepy.v_duration video in
  let a := moviepy.a_duration audio in
  (v <? a)%float = true ->
  exists r w' new,
    adjust_clips video audio w = (Ok r, w')
    /\ trace w' = trace w ++ new
    /\ frame_reads new = [(v - tenth)%float]
    /\ (in_clip_range (v - tenth) v = true -> (tenth <=? v)%float = true)
    /\ ((v <? tenth)%float = true -> in_clip_range (v - tenth) v = false).
Proof.
  intros v a Hva. rewrite adjust_clips_spec. fold v a.
  rewrite (FloatFacts.ltb_asym v a Hva), Hva.
  do 3 eexists. split; [reflexivity|]. split; [reflexivity|]. split; [reflexivity|].
  assert (Hshort : (v <? tenth)%float = true -> in_clip_range (v - tenth) v = false).
  { intros Hlt. unfold in_clip_range. by rewrite FloatFacts.sub_tenth_negative. }
  split; [|exact Hshort].
  intros Hin. destruct (tenth <=? v)%float eqn:Hle; [done|].
  apply FloatFacts.leb_false in Hle as [Hlt|[Hnan|Hnan]].
  - rewrite Hshort in Hin; done.
  - unfold in_clip_range in Hin.
    rewrite (FloatFacts.leb_nan_r 0 (v - tenth)) in Hin; [done|].
    by apply FloatFacts.nan_sub_l.
  - rewrite FloatFacts.Prim2SF_tenth in Hnan. discriminate.
Qed.

(** The example of the specification: a clip of 10 seconds, a voice of 7. *)
Lemma reconciled_tracks_have_equal_durations_witness :
  exists w' final_duration,
    combine_manim_and_speech quiet_env two_scenes "a" "v" (ready_world 10 7) = (Ok tt, w')
    /\ files w' !! get_scene_path "a" "v"
       = Some (Mp4File (Media final_duration (Some final_duration) []))
    /\ ((7 <? 10)%float = true ->
          final_duration = Py.min 10 (Py.max 7 (7 + (10 - 7))%float)
          /\ ((7 + (10 - 7))%float = 10%float -> final_duration = 10%float))
    /\ ((10 <? 7)%float = true -> final_duration = 7%float)
    /\ ((7 <? 10)%float = false -> (10 <? 7)%float = false -> final_duration = 10%float).
Proof.
  apply (reconciled_tracks_have_equal_durations quiet_env two_scenes "a" "v"
           (ready_world 10 7) 10 7 []); vm_compute; reflexivity.
Defined.

(** The other two examples of the specification: a clip of 5 seconds with a
    voice of 8 is extended to 8 seconds, a clip and a voice of 6 seconds
    pass through. *)
Example longer_and_equal_voice :
  let muxed video audio :=
    files (snd (combine_manim_and_speech quiet_env two_scenes "a" "v"
                  (ready_world video audio))) !! get_scene_path "a" "v" in
  muxed 5%float 8%float = Some (Mp4File (Media 8 (Some 8%float) []))
  /\ muxed 6%float 6%float = Some (Mp4File (Media 6 (Some 6%float) [])).
Proof. vm_compute. done. Qed.

(** C2 as stated fails: a voice of 0.36 seconds padded for a clip of 1.7
    seconds is not 1.7 seconds long, and the muxed clip is cut below 1.7. *)
Lemma padded_voice_misses_video_duration :
  (0 <? f_0_36)%float = true
  /\ (f_0_36 <? f_1_7)%float = true
  /\ moviepy.a_duration (pad_with_silence f_1_7 f_0_36 (moviepy.new_AudioClip f_0_36))
     = f_below_1_7
  /\ f_below_1_7 <> f_1_7
  /\ exists w',
      combine_manim_and_speech quiet_env two_scenes "a" "v" (ready_world f_1_7 f_0_36)
      = (Ok tt, w')
      /\ files w' !! get_scene_path "a" "v"
         = Some (Mp4File (Media f_below_1_7 (Some f_below_1_7) [])).
Proof.
  split; [reflexivity|]. split; [reflexivity|]. split; [vm_compute; reflexivity|].
  split.
  - intros H. apply (f_equal (fun x => PrimFloat.eqb x f_1_7)) in H.
    vm_compute in H. discriminate H.
  - eexists. split; vm_compute; reflexivity.
Qed.


Lemma held_frame_time_needs_a_tenth_witness :
  exists r w' new,
    adjust_clips one_frame_clip short_voice empty_world = (Ok r, w')
    /\ trace w' = trace empty_world ++ new
    /\ frame_reads new = [(0.0625 - tenth)%float]
    /\ (in_clip_range (0.0625 - tenth) 0.0625 = true -> (tenth <=? 0.0625)%float = true)
    /\ ((0.0625 <? tenth)%float = true -> in_clip_range (0.0625 - tenth) 0.0625 = false).
Proof.
  apply (held_frame_time_needs_a_tenth one_frame_clip short_voice empty_world).
  reflexivity.
Defined.

(** A clip of one frame: the frame is looked up before the clip starts. *)
Example one_frame_clip_lookup_out_of_range :
  (last_frame_time 0.0625 <? 0)%float = true
  /\ in_clip_range (last_frame_time 0.0625) 0.0625 = false.
Proof. vm_compute. done. Qed.

(** A scene that never renders does not stop the run: every attempt of
    both scenes fails, the scenes are reported and skipped, and the caller
    still receives the video id. *)
Example render_failures_do_not_abort :
  let run := generate_all_scenes (failing_until 1000) two_scenes [] empty_world in
  fst run = Ok "v"
  /\ llm_requests (trace (snd run)) = 10%nat
  /\ errors_logged (trace (snd run))
     = [LogSceneNotGenerated "a"; LogSceneNotGenerated "b";
        LogMissingVideo (get_scene_path "a" "v"); LogMissingVideo (get_scene_path "b" "v");
        LogNoScenes].
Proof. vm_compute. done. Qed.

(** ** The constructor *)

Lemma dict_set_fresh {V} (k : string) (v : V) (d : list (string * V)) :
  ~ In k (Py.keys d) -> Py.dict_set k v d = d ++ [(k, v)].
Proof.
  induction d as [|[k' v'] d IH]; intros Hfresh; [done|].
  cbn in *. destruct (String.eqb_spec k' k) as [->|Hne].
  - exfalso. apply Hfresh. by left.
  - rewrite IH; [done|]. intros Hin. apply Hfresh. by right.
Qed.

Lemma dict_get_key {V} (k : string) (d : list (string * V)) :
  In k (Py.keys d) -> exists v, Py.dict_get k d = Some v.
Proof.
  induction d as [|[k' v'] d IH]; intros Hin; [done|].
  cbn in *. destruct (String.eqb_spec k' k) as [->|Hne]; [eauto|].
  destruct Hin as [Heq|Hin]; [done|]. by apply IH.
Qed.

(** The dictionary of the constructor pairs the UUIDs with the
    transcriptions, in the order given, as long as the UUIDs are new. *)
Lemma dict_comprehension_spec (E : env) (ts : list string) :
  forall d w,
    NoDup (Py.keys d ++ map (uuid4 E) (seq (clock w) (length ts))) ->
    dict_comprehension E ts d w
    = (Ok (d ++ combine (map (uuid4 E) (seq (clock w) (length ts))) ts),
       World (clock w + length ts) (dirs w) (files w) (trace w)).
Proof.
  induction ts as [|t ts IH]; intros d w Hnodup.
  - cbn. rewrite app_nil_r, Nat.add_0_r. by destruct w.
  - cbn [dict_comprehension]. unfold new_uuid. mstep.
    cbn [length seq map] in *. apply NoDup_app in Hnodup as (Hd & Hdisj & Hids).
    rewrite dict_set_fresh.
    2:{ intros Hin. apply list_elem_of_In in Hin. apply (Hdisj _ Hin). left. }
    rewrite IH.
    + cbn [clock tick_clock dirs files trace combine].
      rewrite <- app_assoc. cbn [app].
      replace (S (clock w) + length ts)%nat with (clock w + S (length ts))%nat by lia.
      reflexivity.
    + cbn [clock tick_clock]. unfold Py.keys in *. rewrite map_app. cbn [map fst app].
      rewrite <- app_assoc. cbn [app]. apply NoDup_app. split; [done|]. split.
      * intros x Hx Hin. apply (Hdisj x Hx). done.
      * done.
Qed.

Lemma keys_combine (ids ts : list string) :
  length ids = length ts -> Py.keys (combine ids ts) = ids.
Proof.
  revert ts. induction ids as [|i ids IH]; intros [|t ts] Hlen; try done.
  cbn in *. f_equal. apply IH. lia.
Qed.

Lemma init_spec (E : env) (ts : list string) (w : world) :
  let ids := map (uuid4 E) (seq (clock w) (length ts)) in
  NoDup ids ->
  init E ts w
  = (Ok (mkSceneGenerator (combine ids ts) (uuid4 E (clock w + length ts))),
     World (S (clock w + length ts)) (dirs w) (files w) (trace w)).
Proof.
  intros ids Hnodup. unfold init. rewrite bind_unfold.
  rewrite dict_comprehension_spec by done.
  unfold new_uuid. mstep. reflexivity.
Qed.

(** ** The orchestration *)

Section Orchestration.
Variable E : env.
Variable self : SceneGenerator.

Lemma generate_speech_failure (scene_id video_id text : string) (e : exn) (w : world) :
  Py.dict_get scene_id (scene_transcriptions self) = Some text ->
  speech_synthesize E (clock w) text VOICE_ID "wav" = Raises e ->
  generate_speech E self scene_id video_id w
  = (Raise e, emit (SpeechRequest text VOICE_ID "wav") (tick_clock w)).
Proof.
  intros Htext Hfail. unfold generate_speech, transcription_of. rewrite Htext.
  mstep. cbn [emit tick_clock clock]. rewrite Hfail. reflexivity.
Qed.

Lemma generate_speech_ends (scene_id video_id : string) (w : world) :
  fst (generate_speech E self scene_id video_id w) <> OutOfFuel.
Proof.
  unfold generate_speech, transcription_of.
  destruct (Py.dict_get _ _) as [text|]; mstep; [|done].
  destruct (speech_synthesize E _ _ _ _) as [synthesis|e]; mstep; [|done].
  destruct (ensure_dir E _ _) as [[[]|e|] w1] eqn:Hdir;
    apply ensure_dir_trace in Hdir as [_ Hfuel]; mstep; [|done|done].
  destruct (os.write_file E _ _ _) as [[[]|e|] w2] eqn:Hwrite;
    apply write_file_trace in Hwrite as [_ Hfuel']; mstep; done.
Qed.

Lemma generate_manim_ends (scene_id : string) (w : world) :
  fst (generate_manim E self scene_id w) <> OutOfFuel.
Proof.
  unfold generate_manim, transcription_of.
  destruct (Py.dict_get _ _) as [text|]; mstep; [|done].
  destruct (generate_manim_loop_spec E self scene_id MAX_ITERATIONS 0
              [Message "system" SYSTEM_SCENE_PROMPT; Message "user" text] w
              ltac:(lia) ltac:(lia))
    as (r & w' & new & j & Hrun & _ & Hcases).
  rewrite Hrun. cbn [fst].
  destruct Hcases as [(-> & _)|[(-> & _)|[(-> & _)|(e & -> & _)]]]; done.
Qed.

(** A task that is bound to raise makes [gather] raise, whatever the
    order in which the tasks finish. *)
Lemma run_tasks_raises (order : list task) :
  forall finished w scene_id,
    (forall t text, exists e, speech_synthesize E t text VOICE_ID "wav" = Raises e) ->
    In (scene_id, SpeechTask) order ->
    In scene_id (Py.keys (scene_transcriptions self)) ->
    exists e w', run_tasks E self order finished w = (Raise e, w').
Proof.
  induction order as [|t rest IH]; intros finished w scene_id Hdown Hin Hkey; [done|].
  cbn [run_tasks]. rewrite bind_unfold.
  destruct Hin as [->|Hin].
  - unfold run_task. cbn [fst snd].
    destruct (dict_get_key _ _ Hkey) as [text Htext].
    destruct (Hdown (clock w) text) as [e He].
    rewrite (generate_speech_failure _ _ _ _ _ Htext He). eauto.
  - destruct (run_task E self t w) as [[r|e|] w1] eqn:Hrun.
    + by apply (IH _ _ scene_id).
    + eauto.
    + exfalso. unfold run_task in Hrun. destruct (snd t).
      * apply (generate_manim_ends (fst t) w). by rewrite Hrun.
      * apply (generate_speech_ends (fst t) (video_id self) w). by rewrite Hrun.
Qed.
End Orchestration.

Lemma in_first_occurrences (t : task) (l : list task) :
  In t l -> In t (first_occurrences l).
Proof.
  induction l as [|u l IH]; intros Hin; [done|].
  cbn [first_occurrences]. destruct (decide (t = u)) as [->|Hne]; [by left|].
  right. destruct Hin as [Heq|Hin]; [congruence|].
  apply filter_In. split; [by apply IH|].
  by rewrite bool_decide_eq_false_2.
Qed.

Lemma speech_task_in_run_order (schedule : list task) (ids : list string) (scene_id : string) :
  In scene_id ids -> In (scene_id, SpeechTask) (run_order schedule (all_tasks ids)).
Proof.
  intros Hin. unfold run_order. apply in_first_occurrences, in_or_app. right.
  unfold all_tasks. apply in_flat_map. exists scene_id. split; [done|]. right. by left.
Qed.

(** C3 fails on the code: with a speech service that raises and at least
    one scene, [generate_all_scenes] raises whatever the order in which the
    tasks finish; the caller receives no video id. *)
Theorem failed_synthesis_aborts_the_run (E : env) (self : SceneGenerator)
    (schedule : list task) (w : world) :
  (forall t text, exists e, speech_synthesize E t text VOICE_ID "wav" = Raises e) ->
  scene_transcriptions self <> [] ->
  exists e w', generate_all_scenes E self schedule w = (Raise e, w').
Proof.
  intros Hdown Hscenes. unfold generate_all_scenes.
  destruct (scene_transcriptions self) as [|[scene_id text] d] eqn:Hd; [done|].
  destruct (run_tasks_raises E self
              (run_order schedule (all_tasks (Py.keys ((scene_id, text) :: d))))
              [] w scene_id Hdown) as (e & w' & Hrun).
  - apply speech_task_in_run_order. by left.
  - rewrite Hd. by left.
  - rewrite bind_unfold, Hrun. eauto.
Qed.

(** Writing the final video does not change which scenes are on disk. *)
Lemma scene_on_disk_after_final (w : world) (vid scene_id : string) c f tr :
  scene_on_disk (World c (dirs w) (<[ final_video_path vid := f ]> (files w)) tr) vid scene_id
  = scene_on_disk w vid scene_id.
Proof.
  unfold scene_on_disk, os.path_exists_in. cbn [dirs files]. f_equal.
  apply bool_decide_ext. rewrite dom_insert_L.
  pose proof (final_video_path_not_scene vid scene_id) as Hne.
  rewrite elem_of_union, elem_of_singleton. split; [|by right].
  intros [Heq|Hin]; [by symmetry in Heq|done].
Qed.

Lemma present_scenes_ext (w w' : world) (vid : string) (ids : list string) :
  (forall scene_id, scene_on_disk w' vid scene_id = scene_on_disk w vid scene_id) ->
  present_scenes w' vid ids = present_scenes w vid ids.
Proof.
  intros Hsame. unfold present_scenes. induction ids as [|i ids IH]; [done|].
  cbn [List.filter]. by rewrite Hsame, IH.
Qed.

(** C5: the scenes are keyed in the order the transcriptions were given
    (the UUIDs drawn being distinct), and whatever the order in which the
    concurrent tasks finish, a run that returns leaves a final video made of
    the clips of the scenes on disk, in that same order. *)
Theorem final_video_follows_input_order (E : env) (ts : list string)
    (schedule : list task) (w0 w1 w2 : world) (self : SceneGenerator) (out : string) :
  let ids := map (uuid4 E) (seq (clock w0) (length ts)) in
  NoDup ids ->
  init E ts w0 = (Ok self, w1) ->
  generate_all_scenes E self schedule w1 = (Ok out, w2) ->
  scene_transcriptions self = combine ids ts
  /\ out = video_id self
  /\ (present_scenes w2 out ids = []
      \/ exists m,
          files w2 !! final_video_path out = Some (Mp4File m)
          /\ parts m = map (fun scene_id => get_scene_path scene_id out)
                           (present_scenes w2 out ids)).
Proof.
  intros ids Hnodup Hinit Hrun.
  rewrite init_spec in Hinit by done. fold ids in Hinit.
  inversion Hinit; subst self w1; clear Hinit.
  split; [reflexivity|].
  unfold generate_all_scenes in Hrun. rewrite bind_unfold in Hrun.
  destruct (run_tasks E _ _ [] _) as [[finished|e|] wa]; try discriminate.
  mstep_in Hrun.
  destruct (combine_each E _ _ _) as [[[]|e|] wb]; try discriminate.
  rewrite bind_unfold in Hrun.
  destruct (combine_video_scenes E _ wb) as [[r|e|] wc] eqn:Hassembly; try discriminate.
  cbn [ret video_id] in Hrun. inversion Hrun; subst out wc; clear Hrun.
  split; [reflexivity|].
  apply combine_video_scenes_returns in Hassembly. cbn zeta in Hassembly.
  cbn [video_id scene_transcriptions] in *.
  rewrite keys_combine in Hassembly by (unfold ids; by rewrite length_map, length_seq).
  set (vid := uuid4 E (clock w0 + length ts)) in *.
  destruct (present_scenes wb vid ids) as [|k kept] eqn:Hkept.
  - left. destruct Hassembly as [_ ->]. exact Hkept.
  - right. destruct Hassembly as (_ & m & Hparts & _ & ->).
    exists m. split; [apply lookup_insert_eq|].
    rewrite Hparts, <- Hkept. f_equal. symmetry. apply present_scenes_ext.
    intros scene_id. apply scene_on_disk_after_final.
Qed.

Lemma failed_synthesis_aborts_the_run_witness :
  exists e w',
    generate_all_scenes mute_env two_scenes second_scene_first empty_world = (Raise e, w').
Proof.
  apply (failed_synthesis_aborts_the_run mute_env two_scenes second_scene_first empty_world).
  - intros t text. eexists. reflexivity.
  - discriminate.
Defined.

(** The run with the speech service down: the exception of the service
    reaches the caller, nothing is muxed and no final video is written. *)
Example speech_down_run :
  let run := generate_all_scenes mute_env two_scenes [] empty_world in
  fst run = Raise (Exn "SpeechError" "503 Service Unavailable")
  /\ closed_clips (trace (snd run)) = []
  /\ files (snd run) !! final_video_path "v" = None.
Proof. vm_compute. done. Qed.

Lemma final_video_follows_input_order_witness :
  let w2 := snd (generate_all_scenes quiet_env two_scenes_c second_scene_first after_init) in
  scene_transcriptions two_scenes_c = combine ["a"; "b"] ["one"; "two"]
  /\ "c" = video_id two_scenes_c
  /\ (present_scenes w2 "c" ["a"; "b"] = []
      \/ exists m,
          files w2 !! final_video_path "c" = Some (Mp4File m)
          /\ parts m = map (fun scene_id => get_scene_path scene_id "c")
                           (present_scenes w2 "c" ["a"; "b"])).
Proof.
  apply (final_video_follows_input_order quiet_env ["one"; "two"] second_scene_first
           empty_world after_init
           (snd (generate_all_scenes quiet_env two_scenes_c second_scene_first after_init))
           two_scenes_c "c").
  - apply (bool_decide_unpack _). vm_compute. exact I.
  - vm_compute. reflexivity.
  - vm_compute. reflexivity.
Defined.

(** The second scene finishes first, the first scene plays first. *)
Example second_scene_first_run :
  let run := generate_all_scenes quiet_env two_scenes_c second_scene_first after_init in
  fst run = Ok "c"
  /\ option_map (fun f => match f with Mp4File m => parts m | _ => [] end)
       (files (snd run) !! final_video_path "c")
     = Some [get_scene_path "a" "c"; get_scene_path "b" "c"].
Proof. vm_compute. done. Qed.

(** ** The code kept from the model's answer *)

(** [strip] takes the backquotes as a set of characters: it removes the
    backquotes at both ends, and nothing else. *)
Example strip_leaves_language_tag :
  Py.strip ("```python" +:+ nl +:+ "from manim import *" +:+ nl +:+ "```") fence
  = "python" +:+ nl +:+ "from manim import *" +:+ nl.
Proof. vm_compute. reflexivity. Qed.

(** C8 fails on the code: for an answer fenced as [```python ... ```] and
    followed by a line break, the program written to [video.py] and the
    assistant message sent back to the model keep the language tag and the
    closing fence. *)
Theorem fenced_answer_keeps_its_fence :
  let run := generate_manim fenced_env two_scenes "a" empty_world in
  fst run = Ok (Some "a")
  /\ Py.strip fenced_response fence = stored_code
  /\ files (snd run) !! code_path "a" "v" = Some (TextFile stored_code)
  /\ In (LlmRequest
           [Message "system" SYSTEM_SCENE_PROMPT; Message "user" "one";
            Message "assistant" stored_code;
            Message "user"
              "Error: Command failed with exit code 1. Error: NameError: name 'python' is not defined"])
        (trace (snd run))
  /\ Py.contains fence stored_code = true.
Proof.
  vm_compute. split; [reflexivity|]. split; [reflexivity|]. split; [reflexivity|].
  split; [|reflexivity].
  repeat match goal with |- _ \/ _ => (left; reflexivity) || right end.
Qed.

(** * Further properties *)

(** ** More on paths *)

Lemma list_ascii_of_string_append (a b : string) :
  list_ascii_of_string (a +:+ b) = list_ascii_of_string a ++ list_ascii_of_string b.
Proof.
  induction a as [|c a IH]; [done|].
  change (String c a +:+ b) with (String c (a +:+ b)). cbn. by rewrite IH.
Qed.

Lemma last_app_cons {A} (l1 l2 : list A) (x d : A) :
  List.last (l1 ++ x :: l2) d = List.last (x :: l2) d.
Proof.
  induction l1 as [|y l1 IH]; [done|].
  cbn [app]. rewrite <- IH. cbn. by destruct (l1 ++ x :: l2) eqn:H; [destruct l1; discriminate|].
Qed.

(** Two paths that end in different characters are different. *)
Lemma append_last_differs (p q s t : string) (c : ascii) :
  List.last (list_ascii_of_string s) c <> List.last (list_ascii_of_string t) c ->
  s <> "" -> t <> "" -> p +:+ s <> q +:+ t.
Proof.
  intros Hlast Hs Ht Heq. apply Hlast.
  apply (f_equal list_ascii_of_string) in Heq. rewrite !list_ascii_of_string_append in Heq.
  destruct s as [|cs s]; [done|]. destruct t as [|ct t]; [done|].
  cbn [list_ascii_of_string] in *.
  rewrite <- (last_app_cons (list_ascii_of_string p) (list_ascii_of_string s) cs c).
  rewrite <- (last_app_cons (list_ascii_of_string q) (list_ascii_of_string t) ct c).
  by rewrite Heq.
Qed.

Lemma append_assoc (a b c : string) : (a +:+ b) +:+ c = a +:+ b +:+ c.
Proof.
  induction a as [|x a IH]; [done|].
  change ((String x a +:+ b) +:+ c) with (String x ((a +:+ b) +:+ c)).
  change (String x a +:+ b +:+ c) with (String x (a +:+ b +:+ c)). by rewrite IH.
Qed.

(** The files of a scene lie in its directory. *)
Lemma code_path_in_scene_dir (scene_id video_id : string) :
  code_path scene_id video_id = scene_dir scene_id video_id +:+ "/" +:+ "video.py".
Proof. unfold code_path, scene_dir. by rewrite !append_assoc. Qed.

Lemma get_audio_path_in_scene_dir (scene_id video_id : string) :
  get_audio_path scene_id video_id = scene_dir scene_id video_id +:+ "/" +:+ "audio.wav".
Proof. unfold get_audio_path, scene_dir. by rewrite !append_assoc. Qed.

Lemma code_path_inj (video_id a b : string) :
  code_path a video_id = code_path b video_id -> a = b.
Proof.
  unfold code_path. intros H. do 4 apply String.app_inj in H. by apply append_inv_tail in H.
Qed.

Lemma get_audio_path_inj (video_id a b : string) :
  get_audio_path a video_id = get_audio_path b video_id -> a = b.
Proof.
  unfold get_audio_path. intros H. do 4 apply String.app_inj in H.
  by apply append_inv_tail in H.
Qed.

Lemma code_path_not_audio (video_id a b : string) :
  code_path a video_id <> get_audio_path b video_id.
Proof.
  unfold code_path, get_audio_path. intros H. do 4 apply String.app_inj in H. revert H.
  apply (append_last_differs a b "/video.py" "/audio.wav" "x");
    [intros Hc; vm_compute in Hc; discriminate Hc|discriminate|discriminate].
Qed.

Lemma code_path_not_clip (video_id a b : string) :
  code_path a video_id <> get_scene_path b video_id.
Proof.
  unfold code_path, get_scene_path. intros H. do 4 apply String.app_inj in H. revert H.
  apply (append_last_differs a b "/video.py" ("/" +:+ VIDEO_INTERNAL_PATH) "x");
    [intros Hc; vm_compute in Hc; discriminate Hc|discriminate|discriminate].
Qed.

Lemma get_audio_path_not_clip (video_id a b : string) :
  get_audio_path a video_id <> get_scene_path b video_id.
Proof.
  unfold get_audio_path, get_scene_path. intros H. do 4 apply String.app_inj in H. revert H.
  apply (append_last_differs a b "/audio.wav" ("/" +:+ VIDEO_INTERNAL_PATH) "x");
    [intros Hc; vm_compute in Hc; discriminate Hc|discriminate|discriminate].
Qed.

Lemma final_video_path_not_code (video_id a : string) :
  final_video_path video_id <> code_path a video_id.
Proof.
  unfold final_video_path, code_path. intros H. do 3 apply String.app_inj in H.
  change "/final_video.mp4" with ("/" +:+ "" +:+ "final_video.mp4") in H.
  apply String.app_inj in H. revert H.
  apply (append_last_differs "" a "final_video.mp4" "/video.py" "x");
    [intros Hc; vm_compute in Hc; discriminate Hc|discriminate|discriminate].
Qed.

Lemma final_video_path_not_audio (video_id a : string) :
  final_video_path video_id <> get_audio_path a video_id.
Proof.
  unfold final_video_path, get_audio_path. intros H. do 3 apply String.app_inj in H.
  change "/final_video.mp4" with ("/" +:+ "" +:+ "final_video.mp4") in H.
  apply String.app_inj in H. revert H.
  apply (append_last_differs "" a "final_video.mp4" "/audio.wav" "x");
    [intros Hc; vm_compute in Hc; discriminate Hc|discriminate|discriminate].
Qed.

(** X2: within one video, the directory, the program, the voice and the
    clip of a scene are named after the scene alone: two scenes never share
    one of them, and no two of these files, nor the final video, have the
    same path. *)
Theorem scene_paths_do_not_collide (video_id : string) :
  (forall a b, scene_dir a video_id = scene_dir b video_id -> a = b)
  /\ (forall a b, code_path a video_id = code_path b video_id -> a = b)
  /\ (forall a b, get_audio_path a video_id = get_audio_path b video_id -> a = b)
  /\ (forall a b, get_scene_path a video_id = get_scene_path b video_id -> a = b)
  /\ (forall a b, code_path a video_id <> get_audio_path b video_id)
  /\ (forall a b, code_path a video_id <> get_scene_path b video_id)
  /\ (forall a b, get_audio_path a video_id <> get_scene_path b video_id)
  /\ (forall a, final_video_path video_id <> code_path a video_id)
  /\ (forall a, final_video_path video_id <> get_audio_path a video_id)
  /\ (forall a, final_video_path video_id <> get_scene_path a video_id).
Proof.
  split; [|split; [|split; [|split; [|split; [|split; [|split; [|split; [|split]]]]]]]].
  - unfold scene_dir. intros a b H. by do 4 apply String.app_inj in H.
  - apply code_path_inj.
  - apply get_audio_path_inj.
  - apply get_scene_path_inj.
  - apply code_path_not_audio.
  - apply code_path_not_clip.
  - apply get_audio_path_not_clip.
  - apply final_video_path_not_code.
  - apply final_video_path_not_audio.
  - apply final_video_path_not_scene.
Qed.

(** ** What [strip] removes *)

Lemma lstrip_list_spec (chars s : list ascii) :
  exists pre,
    s = pre ++ Py.lstrip_list chars s
    /\ Forall (fun c => in_chars chars c = true) pre
    /\ forall c rest, Py.lstrip_list chars s = c :: rest -> in_chars chars c = false.
Proof.
  induction s as [|x s (pre & Hs & Hpre & Hhead)].
  - exists []. repeat split; [constructor|discriminate].
  - cbn [Py.lstrip_list]. fold (in_chars chars x). destruct (in_chars chars x) eqn:Hx.
    + exists (x :: pre). split; [cbn; by rewrite <- Hs|]. split; [by constructor|done].
    + exists []. split; [done|]. split; [constructor|]. intros c rest H. by inversion H; subst.
Qed.

Lemma rstrip_list_spec (chars s : list ascii) :
  exists post,
    s = Py.rstrip_list chars s ++ post
    /\ Forall (fun c => in_chars chars c = true) post
    /\ forall init c, Py.rstrip_list chars s = init ++ [c] -> in_chars chars c = false.
Proof.
  unfold Py.rstrip_list.
  destruct (lstrip_list_spec chars (rev s)) as (pre & Hs & Hpre & Hhead).
  exists (rev pre). split; [|split].
  - rewrite <- rev_app_distr, <- Hs. by rewrite rev_involutive.
  - by apply Forall_rev.
  - intros init c H. apply (f_equal (@rev ascii)) in H.
    rewrite rev_involutive, rev_app_distr in H. cbn in H. by apply (Hhead c (rev init)).
Qed.

(** X6: [output.strip(chars)] gives back its argument less a run of
    characters of [chars] at the start and another at the end; what is left
    neither starts nor ends with a character of [chars], and an argument
    that neither starts nor ends with one is given back as it is. *)
Theorem strip_removes_only_the_ends (s chars : string) :
  let cs := list_ascii_of_string chars in
  let kept := list_ascii_of_string (Py.strip s chars) in
  exists pre post,
    list_ascii_of_string s = pre ++ kept ++ post
    /\ Forall (fun c => in_chars cs c = true) pre
    /\ Forall (fun c => in_chars cs c = true) post
    /\ (forall c rest, kept = c :: rest -> in_chars cs c = false)
    /\ (forall init c, kept = init ++ [c] -> in_chars cs c = false)
    /\ ((forall c rest, list_ascii_of_string s = c :: rest -> in_chars cs c = false) ->
        (forall init c, list_ascii_of_string s = init ++ [c] -> in_chars cs c = false) ->
        Py.strip s chars = s).
Proof.
  intros cs kept.
  assert (kept = Py.rstrip_list cs (Py.lstrip_list cs (list_ascii_of_string s))) as Hkept
    by apply list_ascii_of_string_of_list_ascii.
  clearbody kept.
  destruct (lstrip_list_spec cs (list_ascii_of_string s)) as (pre & Hs & Hpre & Hhead).
  destruct (rstrip_list_spec cs (Py.lstrip_list cs (list_ascii_of_string s)))
    as (post & Hl & Hpost & Hlast).
  rewrite <- Hkept in Hl, Hlast.
  exists pre, post. split; [by rewrite <- Hl|]. split; [done|]. split; [done|].
  split; [|split; [done|]].
  - intros c rest Hk. apply (Hhead c (rest ++ post)). by rewrite Hl, Hk.
  - intros Hfirst Hend.
    assert (pre = []) as ->.
    { destruct pre as [|c pre]; [done|]. apply Forall_inv in Hpre as Hc.
      rewrite (Hfirst c (pre ++ Py.lstrip_list cs (list_ascii_of_string s))) in Hc; [done|].
      by rewrite Hs at 1. }
    assert (post = []) as ->.
    { destruct post as [|p post]; [done|].
      destruct (exists_last (l := p :: post)) as (init & c & Hp); [done|].
      rewrite Hp in Hpost, Hl. apply Forall_app in Hpost as [_ Hc].
      apply Forall_inv in Hc as Hc'.
      rewrite (Hend (kept ++ init) c) in Hc'; [done|].
      cbn [app] in Hs. by rewrite Hs, Hl, <- app_assoc at 1. }
    cbn [app] in Hs. rewrite app_nil_r in Hl.
    unfold Py.strip. fold cs. rewrite <- Hkept, <- Hl, <- Hs.
    apply string_of_list_ascii_of_string.
Qed.


(** ** The generation loop, run by run *)

(** With fuel for the attempts that are left, the loop function runs as
    [loop_run] says. *)
Lemma generate_manim_loop_run (E : env) (self : SceneGenerator) (scene_id : string)
    (fuel : nat) :
  forall iteration messages w,
    (MAX_ITERATIONS - iteration <= fuel)%nat ->
    exists r w',
      generate_manim_loop E fuel self scene_id iteration messages w = (r, w')
      /\ loop_run E self scene_id iteration messages w r w'.
Proof.
  induction fuel as [|fuel IH]; intros iteration messages w Hfuel.
  - exists (Ok None), w. cbn [generate_manim_loop].
    replace (iteration <? MAX_ITERATIONS)%nat with false
      by (symmetry; apply Nat.ltb_ge; lia).
    split; [done|]. constructor. lia.
  - cbn [generate_manim_loop].
    destruct (iteration <? MAX_ITERATIONS)%nat eqn:Hlt; cbn [negb].
    2:{ apply Nat.ltb_ge in Hlt. exists (Ok None), w. split; [done|]. by constructor. }
    apply Nat.ltb_lt in Hlt. mstep. cbn [clock emit tick_clock].
    destruct (chat_completions_create E (clock w) messages) as [response|e] eqn:Hchat; mstep.
    2:{ do 2 eexists. split; [reflexivity|]. by apply loop_model_raises. }
    unfold try_except. mstep. fold (emit (LlmRequest messages) (tick_clock w)).
    fold (answered messages response w).
    destruct (put_code_in_file E self scene_id (Py.strip response fence)
                (answered messages response w)) as [[[]|e|] w1] eqn:Hput.
    3:{ by apply put_code_in_file_trace in Hput as [_ ?]. }
    2:{ mstep. do 2 eexists. split; [reflexivity|]. by eapply loop_write_fails. }
    mstep.
    destruct (render_scene_trace E self scene_id w1) as (ro & w2 & new & Hrender & _).
    rewrite Hrender. mstep. destruct ro as [[] msg]; cbn [fst snd]; mstep.
    + do 2 eexists. split; [reflexivity|]. by eapply loop_rendered.
    + fold (next_messages messages response msg).
      destruct (IH (S iteration) (next_messages messages response msg)
                  (emit (Logged (LogSceneStatus scene_id (false, msg))) w2) ltac:(lia))
        as (r & w3 & Hloop & Hrun).
      exists r, w3. split; [exact Hloop|]. by eapply loop_retry.
Qed.


(** ** What the disk operations change *)

Section Effects.
Variable E : env.

Lemma ensure_dir_effect (d : string) (w : world) r w' :
  ensure_dir E d w = (r, w') ->
  files w' = files w /\ dirs w ⊆ dirs w' /\ trace w' = trace w
  /\ match r with
     | Ok _ => d ∈ dirs w' \/ (d ∈ dom (files w) /\ w' = w)
     | Raise _ => dirs w' = dirs w
     | OutOfFuel => False
     end.
Proof.
  unfold ensure_dir, os.path_exists. mstep.
  destruct (os.path_exists_in w d) eqn:Hthere; mstep.
  - intros H; inversion H; subst. repeat split; try done.
    unfold os.path_exists_in in Hthere. apply orb_true_iff in Hthere as [Hd|Hf].
    + left. by apply bool_decide_eq_true in Hd.
    + right. by apply bool_decide_eq_true in Hf.
  - unfold os.makedirs, os.fault, os.path_exists. mstep.
    destruct (fs_fault E _ _); mstep.
    + intros H; inversion H; subst. done.
    + change (os.path_exists_in (tick_clock w) d) with (os.path_exists_in w d).
      rewrite Hthere. intros H; inversion H; subst. cbn [files dirs trace with_dirs tick_clock].
      repeat split; try done; [set_solver|left; set_solver].
Qed.

Lemma write_file_effect (p : string) (data : file) (w : world) r w' :
  os.write_file E p data w = (r, w') ->
  dirs w' = dirs w /\ trace w' = trace w
  /\ match r with
     | Ok _ => files w' = <[ p := data ]> (files w)
     | Raise _ => files w' = files w
     | OutOfFuel => False
     end.
Proof.
  unfold os.write_file, os.fault. mstep.
  destruct (fs_fault E _ _); mstep.
  - intros H; inversion H; subst. done.
  - destruct (bool_decide _); intros H; inversion H; subst; done.
Qed.

(** Without a fault, a file is written as soon as its directory exists. *)
Lemma write_file_returns (p : string) (data : file) (w : world) :
  fs_fault E (clock w) p = None -> os.dirname p ∈ dirs w ->
  os.write_file E p data w
  = (Ok tt, with_files (<[ p := data ]> (files w)) (tick_clock w)).
Proof.
  intros Hfault Hdir. unfold os.write_file, os.fault. mstep. rewrite Hfault. mstep.
  cbn [dirs tick_clock]. by rewrite bool_decide_eq_true_2.
Qed.

Variable self : SceneGenerator.
Variable scene_id : string.

Lemma put_code_in_file_effect (output : string) (w : world) r w' :
  put_code_in_file E self scene_id output w = (r, w') ->
  dirs w ⊆ dirs w' /\ trace w' = trace w
  /\ match r with
     | Ok _ => files w' = <[ code_path scene_id (video_id self) := TextFile output ]> (files w)
     | Raise _ => files w' = files w
     | OutOfFuel => False
     end.
Proof.
  unfold put_code_in_file. mstep.
  destruct (ensure_dir E _ w) as [[[]|e|] w1] eqn:Hdir;
    apply ensure_dir_effect in Hdir as (Hfiles & Hdirs & Htrace & Hr); [| |done].
  - intros Hwrite. apply write_file_effect in Hwrite as (Hdirs' & Htrace' & Hr').
    rewrite Hdirs', Htrace'. split; [done|]. split; [done|].
    destruct r; by rewrite <- ?Hfiles.
  - intros H; inversion H; subst. done.
Qed.

(** [render_scene], outcome by outcome of the manim process. *)
Lemma render_scene_effect (w : world) r w' :
  render_scene E self scene_id w = (r, w') ->
  exists ok msg new,
    r = Ok (ok, msg) /\ dirs w ⊆ dirs w' /\ trace w' = trace w ++ new
    /\ errors_logged new = [] /\ llm_conversations new = []
    /\ if ok then
         msg = EmptyString
         /\ exists rendered,
             files w' = <[ get_scene_path scene_id (video_id self)
                           := Mp4File (Media rendered None []) ]> (files w)
       else files w' = files w /\ dirs w' = dirs w
            /\ render_message (subprocess_run E (clock w) (render_command self scene_id))
               = Some msg.
Proof.
  unfold render_scene. mstep. cbn [clock emit tick_clock].
  fold (render_command self scene_id).
  destruct (subprocess_run E _ _) as [stdout rendered|returncode stderr|e]; mstep;
    intros H; inversion H; subst; clear H; do 3 eexists;
    (split; [reflexivity|]);
    cbn [trace emit with_files with_dirs tick_clock dirs files]; rewrite <- ?app_assoc;
    (split; [set_solver|]); (split; [reflexivity|]); (split; [reflexivity|]);
    (split; [reflexivity|]).
  - split; [done|]. by eexists.
  - done.
  - done.
Qed.
End Effects.


(** ** What a run of the loop leaves behind *)

Lemma llm_conversations_app (l1 l2 : list event) :
  llm_conversations (l1 ++ l2) = llm_conversations l1 ++ llm_conversations l2.
Proof. apply flat_map_app. Qed.

Lemma llm_conversations_cons (e : event) (l : list event) :
  llm_conversations (e :: l) = llm_conversation e ++ llm_conversations l.
Proof. reflexivity. Qed.

Lemma errors_logged_cons (e : event) (l : list event) :
  errors_logged (e :: l) = error_record e ++ errors_logged l.
Proof. reflexivity. Qed.

(** Reading the conversations and the errors off an explicit trace. *)
Ltac read_events :=
  repeat first
    [ rewrite llm_conversations_cons | rewrite llm_conversations_app
    | rewrite errors_logged_cons | rewrite errors_logged_app ];
  cbn [llm_conversation error_record level_of app];
  change (llm_conversations []) with (@nil (list message));
  change (errors_logged []) with (@nil log_record).

Section LoopFacts.
Variable E : env.
Variable self : SceneGenerator.
Variable scene_id : string.

(** [generate_manim] for a scene of the dictionary is a run of the loop
    from the system prompt and the transcription. *)
Lemma generate_manim_run (text : string) (w : world) :
  Py.dict_get scene_id (scene_transcriptions self) = Some text ->
  exists r w',
    generate_manim E self scene_id w = (r, w')
    /\ loop_run E self scene_id 0
         [Message "system" SYSTEM_SCENE_PROMPT; Message "user" text] w r w'.
Proof.
  intros Htext. unfold generate_manim, transcription_of. rewrite Htext. mstep.
  apply generate_manim_loop_run. lia.
Qed.

(** The conversations of a run: the one the loop is entered with, then
    each the continuation of the one before. *)
Lemma loop_run_conversations iteration messages w r w' :
  loop_run E self scene_id iteration messages w r w' ->
  exists new,
    trace w' = trace w ++ new
    /\ (((MAX_ITERATIONS <= iteration)%nat /\ new = [])
        \/ exists rest,
            llm_conversations new = messages :: rest
            /\ continues E self scene_id messages rest).
Proof.
  induction 1 as [iteration messages w Hle
                 |iteration messages w e Hlt Hchat
                 |iteration messages w response e w1 Hlt Hchat Hput
                 |iteration messages w response w1 msg w2 Hlt Hchat Hput Hrender
                 |iteration messages w response w1 msg w2 r w3 Hlt Hchat Hput Hrender Hrun IH].
  - exists []. rewrite app_nil_r. split; [done|]. by left.
  - eexists. split; [reflexivity|]. right. by exists [].
  - apply put_code_in_file_effect in Hput as (_ & Htrace & _).
    eexists. cbn [trace emit]. rewrite Htrace. unfold answered. cbn [trace emit tick_clock].
    rewrite <- !app_assoc. split; [reflexivity|]. right. by exists [].
  - apply put_code_in_file_effect in Hput as (_ & Htrace & _).
    apply render_scene_effect in Hrender as (ok & msg' & new & _ & _ & Htrace2 & _ & Hconv & _).
    eexists. cbn [trace emit]. rewrite Htrace2, Htrace. unfold answered.
    cbn [trace emit tick_clock]. rewrite <- !app_assoc. split; [reflexivity|].
    right. exists []. cbn [app]. read_events. rewrite Hconv. done.
  - apply put_code_in_file_effect in Hput as (_ & Htrace & _).
    apply render_scene_effect in Hrender
      as (ok & msg' & new & Hr & _ & Htrace2 & _ & Hconv & Hfailed).
    inversion Hr; subst ok msg'. destruct Hfailed as (_ & _ & Hmessage).
    destruct IH as (new' & Htrace3 & Hcases).
    eexists. rewrite Htrace3. cbn [trace emit]. rewrite Htrace2, Htrace. unfold answered.
    cbn [trace emit tick_clock]. rewrite <- !app_assoc. split; [reflexivity|].
    right. cbn [app]. read_events. rewrite Hconv. cbn [app].
    destruct Hcases as [[_ ->]|(rest & -> & Hrest)].
    + by exists [].
    + exists (next_messages messages response msg :: rest). split; [done|].
      split; [|done]. by exists (clock w), response, (clock w1), msg.
Qed.

(** A run logs at level ERROR only when the program cannot be written;
    it then ends at once, with [None]. *)
Lemma loop_run_errors iteration messages w r w' :
  loop_run E self scene_id iteration messages w r w' ->
  exists new,
    trace w' = trace w ++ new
    /\ (errors_logged new = []
        \/ exists e output before,
            new = before ++ [Logged (LogGeneratedCode output); Logged (LogErrorWritingFile e)]
            /\ errors_logged before = [] /\ r = Ok None).
Proof.
  induction 1 as [iteration messages w Hle
                 |iteration messages w e Hlt Hchat
                 |iteration messages w response e w1 Hlt Hchat Hput
                 |iteration messages w response w1 msg w2 Hlt Hchat Hput Hrender
                 |iteration messages w response w1 msg w2 r w3 Hlt Hchat Hput Hrender Hrun IH].
  - exists []. rewrite app_nil_r. split; [done|]. by left.
  - eexists. split; [reflexivity|]. by left.
  - apply put_code_in_file_effect in Hput as (_ & Htrace & _).
    eexists. cbn [trace emit]. rewrite Htrace. unfold answered. cbn [trace emit tick_clock].
    rewrite <- !app_assoc. split; [reflexivity|]. right.
    exists e, (Py.strip response fence),
      [LlmRequest messages; Logged (LogGeneratedResponse response)]. done.
  - apply put_code_in_file_effect in Hput as (_ & Htrace & _).
    apply render_scene_effect in Hrender as (ok & msg' & new & _ & _ & Htrace2 & Herr & _).
    eexists. cbn [trace emit]. rewrite Htrace2, Htrace. unfold answered.
    cbn [trace emit tick_clock]. rewrite <- !app_assoc. split; [reflexivity|].
    left. cbn [app]. read_events. rewrite Herr. done.
  - apply put_code_in_file_effect in Hput as (_ & Htrace & _).
    apply render_scene_effect in Hrender as (ok & msg' & new & _ & _ & Htrace2 & Herr & _).
    destruct IH as (new' & Htrace3 & Hcases).
    eexists. rewrite Htrace3. cbn [trace emit]. rewrite Htrace2, Htrace. unfold answered.
    cbn [trace emit tick_clock]. rewrite <- !app_assoc. split; [reflexivity|].
    cbn [app].
    destruct Hcases as [Hnone|(e & output & before & -> & Hbefore & ->)].
    + left. read_events. rewrite Herr, Hnone. done.
    + right. exists e, output. eexists. split.
      * rewrite !app_comm_cons, !app_assoc. reflexivity.
      * split; [|done]. read_events. rewrite Herr, Hbefore. done.
Qed.

(** An exception that leaves the loop was raised by the language model. *)
Lemma loop_run_raises iteration messages w e w' :
  loop_run E self scene_id iteration messages w (Raise e) w' ->
  exists t conversation, chat_completions_create E t conversation = Raises e.
Proof.
  intros Hrun. remember (Raise e) as r eqn:Hr.
  induction Hrun; try discriminate; [|by auto].
  inversion Hr; subst. eauto.
Qed.

(** A run changes no file but the program and the clip of its scene, and
    removes no directory. *)
Lemma loop_run_frame iteration messages w r w' :
  loop_run E self scene_id iteration messages w r w' ->
  dirs w ⊆ dirs w'
  /\ forall p,
      p <> code_path scene_id (video_id self) ->
      p <> get_scene_path scene_id (video_id self) ->
      files w' !! p = files w !! p.
Proof.
  induction 1 as [iteration messages w Hle
                 |iteration messages w e Hlt Hchat
                 |iteration messages w response e w1 Hlt Hchat Hput
                 |iteration messages w response w1 msg w2 Hlt Hchat Hput Hrender
                 |iteration messages w response w1 msg w2 r w3 Hlt Hchat Hput Hrender Hrun IH].
  - done.
  - done.
  - apply put_code_in_file_effect in Hput as (Hdirs & _ & Hfiles).
    cbn [dirs files emit] in *. by rewrite Hfiles.
  - apply put_code_in_file_effect in Hput as (Hdirs & _ & Hfiles).
    apply render_scene_effect in Hrender as (ok & msg' & new & Hr & Hdirs2 & _ & _ & _ & Hok).
    inversion Hr; subst ok msg'. destruct Hok as (_ & rendered & Hfiles2).
    cbn [dirs files emit answered tick_clock] in *. split; [set_solver|].
    intros p Hcode Hclip. by rewrite Hfiles2, lookup_insert_ne, Hfiles, lookup_insert_ne.
  - apply put_code_in_file_effect in Hput as (Hdirs & _ & Hfiles).
    apply render_scene_effect in Hrender as (ok & msg' & new & Hr & Hdirs2 & _ & _ & _ & Hok).
    inversion Hr; subst ok msg'. destruct Hok as (Hfiles2 & _ & _).
    destruct IH as (Hdirs3 & Hframe).
    cbn [dirs files emit answered tick_clock] in *. split; [set_solver|].
    intros p Hcode Hclip. by rewrite Hframe, Hfiles2, Hfiles, lookup_insert_ne.
Qed.

(** A run that returns the scene id leaves on disk the code kept from an
    answer of the model and the clip manim rendered from it. *)
Lemma loop_run_success iteration messages w out w' :
  loop_run E self scene_id iteration messages w (Ok (Some out)) w' ->
  out = scene_id
  /\ exists t conversation response rendered,
      chat_completions_create E t conversation = Returns response
      /\ files w' !! code_path scene_id (video_id self)
         = Some (TextFile (Py.strip response fence))
      /\ files w' !! get_scene_path scene_id (video_id self)
         = Some (Mp4File (Media rendered None [])).
Proof.
  intros Hrun. remember (Ok (Some out)) as r eqn:Hr.
  induction Hrun as [iteration messages w Hle
                 |iteration messages w e Hlt Hchat
                 |iteration messages w response e w1 Hlt Hchat Hput
                 |iteration messages w response w1 msg w2 Hlt Hchat Hput Hrender
                 |iteration messages w response w1 msg w2 r w3 Hlt Hchat Hput Hrender Hrun IH];
    try discriminate; [|by auto].
  inversion Hr; subst out. split; [done|].
  apply put_code_in_file_effect in Hput as (_ & _ & Hfiles).
  apply render_scene_effect in Hrender as (ok & msg' & new & Hr' & _ & _ & _ & _ & Hok).
  inversion Hr'; subst ok msg'. destruct Hok as (_ & rendered & Hfiles2).
  exists (clock w), messages, response, rendered. split; [done|].
  cbn [files emit]. rewrite Hfiles2, Hfiles. split.
  - rewrite lookup_insert_ne by (intros Heq; symmetry in Heq; by apply code_path_not_clip in Heq).
    apply lookup_insert_eq.
  - apply lookup_insert_eq.
Qed.
End LoopFacts.


(** ** [generate_manim], seen from its caller *)







(** X10: [generate_manim] logs at level ERROR at most once, when the
    program cannot be written: the record comes right after the record of
    the generated code, nothing follows it (manim is not run on that code,
    the model is not asked again), and [None] is returned. *)
Theorem write_error_ends_generation (E : env) (self : SceneGenerator)
    (scene_id : string) (w : world) :
  exists r w' new,
    generate_manim E self scene_id w = (r, w')
    /\ trace w' = trace w ++ new
    /\ (errors_logged new = []
        \/ exists e output before,
            new = before ++ [Logged (LogGeneratedCode output); Logged (LogErrorWritingFile e)]
            /\ errors_logged before = [] /\ r = Ok None).
Proof.
  destruct (Py.dict_get scene_id (scene_transcriptions self)) as [text|] eqn:Htext.
  - destruct (generate_manim_run E self scene_id text w Htext) as (r & w' & Hrun & Hloop).
    apply loop_run_errors in Hloop as (new & Htrace & Hcases).
    by exists r, w', new.
  - unfold generate_manim, transcription_of. rewrite Htext. mstep.
    do 2 eexists. exists []. rewrite app_nil_r. split; [reflexivity|]. split; [done|by left].
Qed.


(** ** Directories *)

Lemma ancestors_from_app (l1 l2 : list ascii) :
  forall seen,
    os.ancestors_from seen (l1 ++ l2)
    = os.ancestors_from seen l1 ++ os.ancestors_from (rev l1 ++ seen) l2.
Proof.
  induction l1 as [|c l1 IH]; intros seen; [done|].
  cbn [app os.ancestors_from rev]. rewrite IH, <- !app_assoc. done.
Qed.

Lemma ancestors_from_no_slash (l : list ascii) :
  forall seen, Forall (fun c => c <> os.slash) l -> os.ancestors_from seen l = [].
Proof.
  induction l as [|c l IH]; intros seen Hl; [done|].
  apply Forall_cons in Hl as [Hc Hl]. cbn [os.ancestors_from].
  rewrite (proj2 (Ascii.eqb_neq c os.slash) Hc). cbn. by apply IH.
Qed.

(** The directory of a file named [f] in the directory [d]. *)
Lemma dirname_in_dir (d f : string) :
  d <> "" -> Forall (fun c => c <> os.slash) (list_ascii_of_string f) ->
  os.dirname (d +:+ "/" +:+ f) = d.
Proof.
  intros Hd Hf. unfold os.dirname, os.ancestors.
  rewrite !list_ascii_of_string_append, ancestors_from_app.
  change (list_ascii_of_string "/") with [os.slash].
  cbn [app os.ancestors_from]. rewrite Ascii.eqb_refl, app_nil_r, length_rev.
  destruct (list_ascii_of_string d) as [|c l] eqn:Hl.
  { exfalso. apply Hd. by destruct d. }
  cbn [length Nat.eqb negb andb]. rewrite (ancestors_from_no_slash (list_ascii_of_string f)) by done.
  rewrite app_nil_r, last_last, rev_involutive, <- Hl.
  apply string_of_list_ascii_of_string.
Qed.

Lemma scene_dir_not_empty (scene_id video_id : string) : scene_dir scene_id video_id <> "".
Proof.
  unfold scene_dir. intros H. apply (f_equal String.length) in H.
  rewrite append_length in H. cbn in H. lia.
Qed.

Lemma dirname_get_audio_path (scene_id video_id : string) :
  os.dirname (get_audio_path scene_id video_id) = scene_dir scene_id video_id.
Proof.
  rewrite get_audio_path_in_scene_dir. apply dirname_in_dir; [apply scene_dir_not_empty|].
  cbn [list_ascii_of_string].
  repeat (apply List.Forall_cons; [intros Hc; vm_compute in Hc; discriminate Hc|]).
  apply List.Forall_nil.
Qed.

Lemma dirname_code_path (scene_id video_id : string) :
  os.dirname (code_path scene_id video_id) = scene_dir scene_id video_id.
Proof.
  rewrite code_path_in_scene_dir. apply dirname_in_dir; [apply scene_dir_not_empty|].
  cbn [list_ascii_of_string].
  repeat (apply List.Forall_cons; [intros Hc; vm_compute in Hc; discriminate Hc|]).
  apply List.Forall_nil.
Qed.

Section MoreEffects.
Variable E : env.

(** A directory that is not the name of a file is there after
    [ensure_dir], unless the disk fails. *)
Lemma ensure_dir_returns (d : string) (w : world) :
  fs_fault E (clock w) d = None -> d ∉ dom (files w) ->
  exists w1,
    ensure_dir E d w = (Ok tt, w1)
    /\ files w1 = files w /\ dirs w ⊆ dirs w1 /\ d ∈ dirs w1 /\ trace w1 = trace w
    /\ (clock w1 = clock w \/ clock w1 = S (clock w)).
Proof.
  intros Hfault Hfile. unfold ensure_dir, os.path_exists. mstep.
  destruct (os.path_exists_in w d) eqn:Hthere; mstep.
  - exists w. repeat split; try done; [|by left].
    unfold os.path_exists_in in Hthere. apply orb_true_iff in Hthere as [Hd|Hf].
    + by apply bool_decide_eq_true in Hd.
    + by apply bool_decide_eq_true in Hf.
  - unfold os.makedirs, os.fault, os.path_exists. mstep. rewrite Hfault. mstep.
    change (os.path_exists_in (tick_clock w) d) with (os.path_exists_in w d).
    rewrite Hthere. eexists. split; [reflexivity|].
    cbn [files dirs trace clock with_dirs tick_clock].
    repeat split; try done; [set_solver|set_solver|by right].
Qed.
End MoreEffects.

(** ** [generate_speech] *)

(** When the speech service answers and the disk does not fail,
    [generate_speech] stores the voice of the scene and returns. *)
Lemma generate_speech_returns (E : env) (self : SceneGenerator)
    (scene_id video_id text : string) (synthesis : wav) (w : world) :
  Py.dict_get scene_id (scene_transcriptions self) = Some text ->
  speech_synthesize E (clock w) text VOICE_ID "wav" = Returns synthesis ->
  (forall t p, fs_fault E t p = None) ->
  scene_dir scene_id video_id ∉ dom (files w) ->
  exists w',
    generate_speech E self scene_id video_id w = (Ok (Some scene_id), w')
    /\ files w' = <[ get_audio_path scene_id video_id := WavFile synthesis ]> (files w)
    /\ dirs w ⊆ dirs w'
    /\ scene_dir scene_id video_id ∈ dirs w'
    /\ trace w'
       = trace w ++ [SpeechRequest text VOICE_ID "wav"; Logged (LogSpeechGenerated scene_id)].
Proof.
  intros Htext Hspeech Hdisk Hfile.
  unfold generate_speech, transcription_of. rewrite Htext. mstep.
  cbn [clock emit tick_clock]. rewrite Hspeech. mstep.
  match goal with
  | |- context [ensure_dir E ?d ?w0] =>
      destruct (ensure_dir_returns E d w0 (Hdisk _ _) Hfile)
        as (w1 & -> & Hfiles & Hdirs & Hdir & Htrace & _)
  end.
  mstep.
  rewrite write_file_returns; [|apply Hdisk|by rewrite dirname_get_audio_path].
  mstep. eexists. split; [reflexivity|].
  cbn [files dirs trace emit with_files tick_clock] in *. rewrite Hfiles, Htrace.
  split; [done|]. split; [done|]. split; [done|]. by rewrite <- app_assoc.
Qed.

(** X4: when the speech service answers and the disk does not fail,
    [generate_speech] returns the scene id; the voice is then stored where
    [get_audio_path] says, in the directory of the scene, no other file has
    changed, and reading that file back as [combine_manim_and_speech] does
    gives a clip that lasts as long as the synthesis. *)
Theorem speech_is_stored_for_the_mux (E : env) (self : SceneGenerator)
    (scene_id video_id text : string) (synthesis : wav) (w : world) :
  Py.dict_get scene_id (scene_transcriptions self) = Some text ->
  speech_synthesize E (clock w) text VOICE_ID "wav" = Returns synthesis ->
  (forall t p, fs_fault E t p = None) ->
  scene_dir scene_id video_id ∉ dom (files w) ->
  exists w',
    generate_speech E self scene_id video_id w = (Ok (Some scene_id), w')
    /\ files w' = <[ get_audio_path scene_id video_id := WavFile synthesis ]> (files w)
    /\ scene_dir scene_id video_id ∈ dirs w'
    /\ moviepy.AudioFileClip (get_audio_path scene_id video_id) w'
       = (Ok (moviepy.new_AudioClip (wav_duration synthesis)), w')
    /\ trace w'
       = trace w ++ [SpeechRequest text VOICE_ID "wav"; Logged (LogSpeechGenerated scene_id)].
Proof.
  intros Htext Hspeech Hdisk Hfile.
  destruct (generate_speech_returns E self scene_id video_id text synthesis w
              Htext Hspeech Hdisk Hfile) as (w' & Hrun & Hfiles & _ & Hdir & Htrace).
  exists w'. split; [done|]. split; [done|]. split; [done|]. split; [|done].
  unfold moviepy.AudioFileClip. by rewrite Hfiles, lookup_insert_eq.
Qed.

Lemma speech_is_stored_for_the_mux_witness :
  exists w',
    generate_speech quiet_env two_scenes "a" "v" empty_world = (Ok (Some "a"), w')
    /\ files w' = <[ get_audio_path "a" "v" := WavFile (Wav 1.5) ]> (files empty_world)
    /\ scene_dir "a" "v" ∈ dirs w'
    /\ moviepy.AudioFileClip (get_audio_path "a" "v") w'
       = (Ok (moviepy.new_AudioClip (wav_duration (Wav 1.5))), w')
    /\ trace w'
       = trace empty_world
         ++ [SpeechRequest "one" VOICE_ID "wav"; Logged (LogSpeechGenerated "a")].
Proof.
  apply (speech_is_stored_for_the_mux quiet_env two_scenes "a" "v" "one" (Wav 1.5)
           empty_world).
  - reflexivity.
  - reflexivity.
  - reflexivity.
  - vm_compute. intros H. apply (bool_decide_pack _) in H. vm_compute in H. exact H.
Defined.


(** ** [render_scene] *)


(** ** The files a task works on *)

Lemma generate_manim_frame (E : env) (self : SceneGenerator) (scene_id : string)
    (w : world) r w' :
  generate_manim E self scene_id w = (r, w') ->
  dirs w ⊆ dirs w'
  /\ forall p,
      p <> code_path scene_id (video_id self) ->
      p <> get_scene_path scene_id (video_id self) ->
      files w' !! p = files w !! p.
Proof.
  intros Hrun.
  destruct (Py.dict_get scene_id (scene_transcriptions self)) as [text|] eqn:Htext.
  - destruct (generate_manim_run E self scene_id text w Htext) as (r1 & w1 & Hrun' & Hloop).
    rewrite Hrun in Hrun'. inversion Hrun'; subst r1 w1.
    by apply loop_run_frame in Hloop.
  - unfold generate_manim, transcription_of in Hrun. rewrite Htext in Hrun.
    mstep_in Hrun. by inversion Hrun.
Qed.

Lemma generate_speech_frame (E : env) (self : SceneGenerator) (scene_id video_id : string)
    (w : world) r w' :
  generate_speech E self scene_id video_id w = (r, w') ->
  dirs w ⊆ dirs w'
  /\ forall p, p <> get_audio_path scene_id video_id -> files w' !! p = files w !! p.
Proof.
  unfold generate_speech, transcription_of.
  destruct (Py.dict_get _ _) as [text|]; mstep.
  2:{ intros H; inversion H; subst. done. }
  destruct (speech_synthesize E _ _ _ _) as [synthesis|e]; mstep.
  2:{ intros H; inversion H; subst. done. }
  destruct (ensure_dir E _ _) as [[[]|e|] w1] eqn:Hdir;
    apply ensure_dir_effect in Hdir as (Hfiles & Hdirs & _ & Hr); [| |done].
  2:{ intros H; inversion H; subst. cbn [files dirs emit tick_clock] in *. by rewrite Hfiles. }
  mstep.
  destruct (os.write_file E _ _ w1) as [[[]|e|] w2] eqn:Hwrite;
    apply write_file_effect in Hwrite as (Hdirs' & _ & Hr'); [| |done]; mstep;
    intros H; inversion H; subst; cbn [files dirs emit tick_clock] in *;
    rewrite ?Hdirs', Hr', Hfiles; (split; [done|]); intros p Hp;
    by rewrite ?lookup_insert_ne.
Qed.

(** X11: a task of [generate_all_scenes] works on the files of its own
    scene only. It removes no directory, and of the files of this
    embedding, where manim leaves the clip and nothing else, it changes
    none but the program, the voice and the clip of its scene; so the files
    of the other scenes and the final video are as they were, whatever the
    outcome of the task. *)
Theorem task_touches_only_its_scene (E : env) (self : SceneGenerator) (t : task)
    (w : world) :
  let w' := snd (run_task E self t w) in
  let vid := video_id self in
  dirs w ⊆ dirs w'
  /\ (forall p,
        p <> code_path (fst t) vid -> p <> get_audio_path (fst t) vid ->
        p <> get_scene_path (fst t) vid ->
        files w' !! p = files w !! p)
  /\ (forall other,
        other <> fst t ->
        files w' !! code_path other vid = files w !! code_path other vid
        /\ files w' !! get_audio_path other vid = files w !! get_audio_path other vid
        /\ files w' !! get_scene_path other vid = files w !! get_scene_path other vid)
  /\ files w' !! final_video_path vid = files w !! final_video_path vid.
Proof.
  intros w' vid.
  assert (Hframe : dirs w ⊆ dirs w'
            /\ forall p,
                p <> code_path (fst t) vid -> p <> get_audio_path (fst t) vid ->
                p <> get_scene_path (fst t) vid ->
                files w' !! p = files w !! p).
  { subst w'. unfold run_task. destruct t as [scene_id []]; cbn [fst snd].
    - destruct (generate_manim E self scene_id w) as [r w1] eqn:Hrun.
      apply generate_manim_frame in Hrun as [Hdirs Hfiles]. split; [done|].
      intros p Hcode _ Hclip. by apply Hfiles.
    - destruct (generate_speech E self scene_id (video_id self) w) as [r w1] eqn:Hrun.
      apply generate_speech_frame in Hrun as [Hdirs Hfiles]. split; [done|].
      intros p _ Haudio _. by apply Hfiles. }
  destruct Hframe as [Hdirs Hfiles]. split; [done|]. split; [done|]. split.
  - intros other Hother. repeat split; apply Hfiles;
      first [ intros Heq; apply code_path_inj in Heq; done
            | intros Heq; apply get_audio_path_inj in Heq; done
            | intros Heq; apply get_scene_path_inj in Heq; done
            | apply code_path_not_audio | apply code_path_not_clip
            | apply get_audio_path_not_clip
            | intros Heq; symmetry in Heq; revert Heq; apply code_path_not_audio
            | intros Heq; symmetry in Heq; revert Heq; apply code_path_not_clip
            | intros Heq; symmetry in Heq; revert Heq; apply get_audio_path_not_clip ].
  - apply Hfiles;
      [apply final_video_path_not_code|apply final_video_path_not_audio
      |apply final_video_path_not_scene].
Qed.


(** ** The mux, step by step *)

Lemma ltb_irrefl (x : float) : (x <? x)%float = false.
Proof.
  destruct (x <? x)%float eqn:H; [|done].
  pose proof (FloatFacts.ltb_asym x x H). congruence.
Qed.

(** The two tracks of a scene, a clip of [v] seconds without sound and a
    voice of [a] seconds, are reconciled and cut without an error; the
    duration [d] they end with is not below that of the voice and not
    above the longer of the two. *)
Lemma reconcile_returns (path : string) (v a : float) (ps : list string) (w : world) :
  (0 <? v)%float = true -> (0 <? a)%float = true ->
  exists video' audio' evs final_clip d,
    adjust_clips (moviepy.mkVideo path 0 v v None ps) (moviepy.new_AudioClip a) w
    = (Ok (video', audio'), emit_all evs w)
    /\ trim_and_mux video' audio' (emit_all evs w) = (Ok final_clip, emit_all evs w)
    /\ moviepy.media_of final_clip = Media d (Some d) ps
    /\ (d <? a)%float = false /\ (Py.max v a <? d)%float = false.
Proof.
  intros Hv Ha. rewrite adjust_clips_spec.
  cbn [moviepy.v_duration moviepy.a_duration moviepy.new_AudioClip moviepy.filename].
  set (video := moviepy.mkVideo path 0 v v None ps).
  set (audio := moviepy.mkAudio 0 a a).
  destruct (a <? v)%float eqn:Hav; [|destruct (v <? a)%float eqn:Hva].
  - pose proof (FloatFacts.ltb_asym a v Hav) as Hva.
    destruct (trim_and_mux_equal video (pad_with_silence v a audio) (emit_all [] w))
      as (final_clip & Hmux & Hmedia); [done|by apply FloatFacts.pos_not_neg| |].
    { cbn. by apply max_not_negative. }
    exists video, (pad_with_silence v a audio), [], final_clip. eexists.
    split; [by rewrite emit_all_nil|]. split; [exact Hmux|]. split; [exact Hmedia|].
    cbn [pad_with_silence moviepy.a_duration moviepy.CompositeAudioClip Py.max_list
         fold_left map moviepy.a_end moviepy.a_set_start moviepy.new_AudioClip
         moviepy.v_duration video audio].
    set (y := Py.max a (a + (v - a))%float).
    assert (Hmax : Py.max v a = v) by (unfold Py.max; by rewrite Hva).
    rewrite Hmax. unfold Py.min. destruct (y <? v)%float eqn:Hyv.
    + split; [|by apply FloatFacts.ltb_asym].
      unfold y, Py.max. destruct (a <? a + (v - a))%float eqn:Has.
      * by apply FloatFacts.ltb_asym.
      * apply ltb_irrefl.
    + split; [done|apply ltb_irrefl].
  - destruct (trim_and_mux_equal (hold_last_frame v a video) audio
                (emit_all [Logged LogAudioLonger; FrameRead path (last_frame_time v)] w))
      as (final_clip & Hmux & Hmedia); [done| |by apply FloatFacts.pos_not_neg|].
    { cbn. by apply FloatFacts.pos_not_neg. }
    exists (hold_last_frame v a video), audio,
      [Logged LogAudioLonger; FrameRead path (last_frame_time v)], final_clip. eexists.
    split; [done|]. split; [exact Hmux|]. split; [exact Hmedia|].
    cbn [hold_last_frame moviepy.v_set_duration moviepy.v_duration moviepy.a_duration audio].
    unfold Py.min, Py.max. rewrite Hva, !ltb_irrefl. done.
  - destruct (trim_and_mux_equal video audio (emit_all [] w))
      as (final_clip & Hmux & Hmedia);
      [done|by apply FloatFacts.pos_not_neg|by apply FloatFacts.pos_not_neg|].
    exists video, audio, [], final_clip. eexists.
    split; [by rewrite emit_all_nil|]. split; [exact Hmux|]. split; [exact Hmedia|].
    cbn [moviepy.v_duration moviepy.a_duration video audio].
    unfold Py.min, Py.max. rewrite Hav, Hva. split; [done|apply ltb_irrefl].
Qed.

(** With a clip and a voice on disk, [combine_manim_and_speech] gets as
    far as replacing the clip. *)
Lemma combine_reaches_replacement (E : env) (self : SceneGenerator)
    (scene_id video_id : string) (w : world) (v a : float) (ps : list string) :
  let scene_path := get_scene_path scene_id video_id in
  files w !! scene_path = Some (Mp4File (Media v None ps)) ->
  files w !! get_audio_path scene_id video_id = Some (WavFile (Wav a)) ->
  (0 <? v)%float = true -> (0 <? a)%float = true ->
  exists evs final_clip d,
    combine_manim_and_speech E self scene_id video_id w
    = (os.remove E scene_path ;;;
       moviepy.write_videofile E scene_path final_clip ;;;
       record (Closed scene_id VideoVar) ;;;
       record (Closed scene_id AudioVar) ;;;
       record (Closed scene_id FinalClipVar) ;;;
       log (LogAudioAdded scene_id))%py (emit_all evs w)
    /\ moviepy.media_of final_clip = Media d (Some d) ps
    /\ (d <? a)%float = false /\ (Py.max v a <? d)%float = false.
Proof.
  intros scene_path Hvideo Haudio Hv Ha.
  unfold combine_manim_and_speech. fold scene_path.
  unfold moviepy.VideoFileClip, moviepy.AudioFileClip. mstep.
  rewrite Hvideo. mstep. cbn [files emit]. rewrite Haudio. mstep.
  cbn [video_duration audio_duration option_map parts wav_duration].
  match goal with
  | |- context [adjust_clips _ _ ?w0] =>
      destruct (reconcile_returns scene_path v a ps w0 Hv Ha)
        as (video' & audio' & evs & final_clip & d & Hadjust & Hmux & Hmedia & Hbounds)
  end.
  rewrite Hadjust. mstep. rewrite Hmux. rewrite emit_all_emit.
  by exists (Logged (LogDurations v a) :: evs), final_clip, d.
Qed.

(** X14: the rendered clip is deleted before the muxed clip is written:
    when the encoder fails, [combine_manim_and_speech] raises, and the
    rendered clip is lost; with an encoder that writes nothing when it
    fails, the scene is left with no clip at all. The voice is still
    there. *)
Theorem failed_encoding_loses_the_clip (E : env) (self : SceneGenerator)
    (scene_id video_id : string) (w : world) (v a : float) (ps : list string) (e : exn) :
  let scene_path := get_scene_path scene_id video_id in
  files w !! scene_path = Some (Mp4File (Media v None ps)) ->
  files w !! get_audio_path scene_id video_id = Some (WavFile (Wav a)) ->
  (0 <? v)%float = true -> (0 <? a)%float = true ->
  fs_fault E (clock w) scene_path = None ->
  encode_fault E (S (clock w)) scene_path = Some e ->
  exists w',
    combine_manim_and_speech E self scene_id video_id w = (Raise e, w')
    /\ files w' = delete scene_path (files w)
    /\ files w' !! scene_path = None
    /\ files w' !! get_audio_path scene_id video_id = Some (WavFile (Wav a)).
Proof.
  intros scene_path Hvideo Haudio Hv Ha Hfs Henc.
  destruct (combine_reaches_replacement E self scene_id video_id w v a ps
              Hvideo Haudio Hv Ha) as (evs & final_clip & d & -> & _).
  fold scene_path. unfold os.remove, os.fault, moviepy.write_videofile. mstep.
  cbn [clock emit_all]. rewrite Hfs. mstep. cbn [files tick_clock].
  rewrite bool_decide_eq_true_2 by (apply elem_of_dom; eauto).
  mstep. cbn [clock with_files tick_clock emit_all]. rewrite Henc. mstep.
  eexists. split; [reflexivity|]. cbn [files tick_clock with_files].
  split; [done|]. split; [apply lookup_delete_eq|].
  rewrite lookup_delete_ne; [done|].
  intros Heq. symmetry in Heq. revert Heq. apply get_audio_path_not_clip.
Qed.

Lemma failed_encoding_loses_the_clip_witness :
  exists w',
    combine_manim_and_speech broken_encoder_env two_scenes "a" "v" (ready_world 2.5 1.5)
    = (Raise (Exn "OSError" "[Errno 32] Broken pipe"), w')
    /\ files w' = delete (get_scene_path "a" "v") (files (ready_world 2.5 1.5))
    /\ files w' !! get_scene_path "a" "v" = None
    /\ files w' !! get_audio_path "a" "v" = Some (WavFile (Wav 1.5)).
Proof.
  apply (failed_encoding_loses_the_clip broken_encoder_env two_scenes "a" "v"
           (ready_world 2.5 1.5) 2.5 1.5 []); vm_compute; reflexivity.
Defined.

(** X13: whatever the two durations, both positive, the muxed clip is not
    shorter than the voice, so that the narration is never cut, and not
    longer than the longer of the clip and the voice; only the clip of the
    scene changes on disk. *)
Theorem narration_is_never_cut (E : env) (self : SceneGenerator)
    (scene_id video_id : string) (w : world) (v a : float) (ps : list string) :
  let scene_path := get_scene_path scene_id video_id in
  files w !! scene_path = Some (Mp4File (Media v None ps)) ->
  files w !! get_audio_path scene_id video_id = Some (WavFile (Wav a)) ->
  (0 <? v)%float = true -> (0 <? a)%float = true ->
  fs_fault E (clock w) scene_path = None ->
  encode_fault E (S (clock w)) scene_path = None ->
  exists w' d,
    combine_manim_and_speech E self scene_id video_id w = (Ok tt, w')
    /\ files w' !! scene_path = Some (Mp4File (Media d (Some d) ps))
    /\ (d <? a)%float = false
    /\ (Py.max v a <? d)%float = false
    /\ (forall p, p <> scene_path -> files w' !! p = files w !! p)
    /\ dirs w' = dirs w.
Proof.
  intros scene_path Hvideo Haudio Hv Ha Hfs Henc.
  destruct (combine_reaches_replacement E self scene_id video_id w v a ps
              Hvideo Haudio Hv Ha) as (evs & final_clip & d & -> & Hmedia & Hda & Hdv).
  fold scene_path. unfold os.remove, os.fault, moviepy.write_videofile. mstep.
  cbn [clock emit_all]. rewrite Hfs. mstep. cbn [files tick_clock].
  rewrite bool_decide_eq_true_2 by (apply elem_of_dom; eauto).
  mstep. cbn [clock with_files tick_clock emit_all]. rewrite Henc. mstep.
  eexists. exists d. split; [reflexivity|]. cbn [files dirs emit tick_clock with_files emit_all].
  split; [by rewrite lookup_insert_eq, Hmedia|]. split; [done|]. split; [done|].
  split; [|done]. intros p Hp. by rewrite lookup_insert_ne, lookup_delete_ne.
Qed.

Lemma narration_is_never_cut_witness :
  exists w' d,
    combine_manim_and_speech quiet_env two_scenes "a" "v" (ready_world f_1_7 f_0_36)
    = (Ok tt, w')
    /\ files w' !! get_scene_path "a" "v" = Some (Mp4File (Media d (Some d) []))
    /\ (d <? f_0_36)%float = false
    /\ (Py.max f_1_7 f_0_36 <? d)%float = false
    /\ (forall p, p <> get_scene_path "a" "v" ->
          files w' !! p = files (ready_world f_1_7 f_0_36) !! p)
    /\ dirs w' = dirs (ready_world f_1_7 f_0_36).
Proof.
  apply (narration_is_never_cut quiet_env two_scenes "a" "v" (ready_world f_1_7 f_0_36)
           f_1_7 f_0_36 []); vm_compute; reflexivity.
Defined.

(** X12: without a video file at the place of the clip, or without a
    sound file at the place of the voice, [combine_manim_and_speech] raises
    before it has done anything: nothing is logged and nothing is deleted. *)
Theorem mux_needs_both_files (E : env) (self : SceneGenerator)
    (scene_id video_id : string) (w : world) :
  (forall m, files w !! get_scene_path scene_id video_id <> Some (Mp4File m))
  \/ (forall a, files w !! get_audio_path scene_id video_id <> Some (WavFile a)) ->
  exists e, combine_manim_and_speech E self scene_id video_id w = (Raise e, w).
Proof.
  intros Hmissing. unfold combine_manim_and_speech.
  unfold moviepy.VideoFileClip, moviepy.AudioFileClip. mstep.
  destruct (files w !! get_scene_path scene_id video_id) as [[s|a|m]|] eqn:Hvideo;
    try (eexists; reflexivity).
  destruct Hmissing as [Hmissing|Hmissing]; [by destruct (Hmissing m)|].
  mstep.
  destruct (files w !! get_audio_path scene_id video_id) as [[s|a|m']|] eqn:Haudio;
    try (eexists; reflexivity).
  by destruct (Hmissing a).
Qed.

Lemma mux_needs_both_files_witness :
  exists e,
    combine_manim_and_speech quiet_env two_scenes "b" "v" only_a_on_disk
    = (Raise e, only_a_on_disk).
Proof.
  apply (mux_needs_both_files quiet_env two_scenes "b" "v" only_a_on_disk).
  left. intros m H. vm_compute in H. discriminate H.
Defined.


(** ** More on the orchestration *)

(** A task that raises wherever it is started makes [gather] raise,
    whatever the order in which the tasks finish. *)
Lemma run_tasks_raises_at (E : env) (self : SceneGenerator) (t0 : task)
    (order : list task) :
  forall finished w,
    (forall w1, exists e w2, run_task E self t0 w1 = (Raise e, w2)) ->
    In t0 order ->
    exists e w', run_tasks E self order finished w = (Raise e, w').
Proof.
  induction order as [|t rest IH]; intros finished w Hraises Hin; [done|].
  cbn [run_tasks]. rewrite bind_unfold.
  destruct Hin as [->|Hin].
  - destruct (Hraises w) as (e & w2 & ->). eauto.
  - destruct (run_task E self t w) as [[r|e|] w1] eqn:Hrun.
    + by apply IH.
    + eauto.
    + exfalso. unfold run_task in Hrun. destruct (snd t).
      * apply (generate_manim_ends E self (fst t) w). by rewrite Hrun.
      * apply (generate_speech_ends E self (fst t) (video_id self) w). by rewrite Hrun.
Qed.

Lemma manim_task_in_run_order (schedule : list task) (ids : list string) (scene_id : string) :
  In scene_id ids -> In (scene_id, ManimTask) (run_order schedule (all_tasks ids)).
Proof.
  intros Hin. unfold run_order. apply in_first_occurrences, in_or_app. right.
  unfold all_tasks. apply in_flat_map. exists scene_id. split; [done|]. by left.
Qed.

(** X15: the exceptions of the language model are not caught either:
    with a model that raises and at least one scene, [generate_all_scenes]
    raises, whatever the order in which the tasks finish, and the caller
    receives no video id. *)
Theorem failed_model_aborts_the_run (E : env) (self : SceneGenerator)
    (schedule : list task) (w : world) :
  (forall t conversation, exists e, chat_completions_create E t conversation = Raises e) ->
  scene_transcriptions self <> [] ->
  exists e w', generate_all_scenes E self schedule w = (Raise e, w').
Proof.
  intros Hdown Hscenes. unfold generate_all_scenes.
  destruct (scene_transcriptions self) as [|[scene_id text] d] eqn:Hd; [done|].
  destruct (run_tasks_raises_at E self (scene_id, ManimTask)
              (run_order schedule (all_tasks (Py.keys ((scene_id, text) :: d))))
              [] w) as (e & w' & Hrun).
  - intros w1. unfold run_task. cbn [fst snd].
    unfold generate_manim, transcription_of. rewrite Hd. cbn [Py.dict_get].
    rewrite String.eqb_refl. mstep. cbn [generate_manim_loop Nat.ltb Nat.leb MAX_ITERATIONS negb].
    mstep. cbn [clock emit tick_clock].
    destruct (Hdown (clock w1)
                [Message "system" SYSTEM_SCENE_PROMPT; Message "user" text]) as [e ->].
    mstep. eauto.
  - apply manim_task_in_run_order. by left.
  - rewrite bind_unfold, Hrun. eauto.
Qed.

Lemma failed_model_aborts_the_run_witness :
  exists e w',
    generate_all_scenes model_down_env two_scenes second_scene_first empty_world
    = (Raise e, w').
Proof.
  apply (failed_model_aborts_the_run model_down_env two_scenes second_scene_first
           empty_world).
  - intros t conversation. eexists. reflexivity.
  - discriminate.
Defined.

Lemma run_order_nil (schedule : list task) : run_order schedule [] = [].
Proof.
  unfold run_order. rewrite app_nil_r.
  induction schedule as [|t schedule IH]; [done|].
  cbn [List.filter]. rewrite bool_decide_eq_false_2 by apply not_elem_of_nil. exact IH.
Qed.

(** X16: a generator without scenes starts no task and calls no service;
    [generate_all_scenes] logs the empty results and that no scene was
    generated, writes nothing, and still returns the video id. *)
Theorem no_scene_still_gives_an_id (E : env) (self : SceneGenerator)
    (schedule : list task) (w : world) :
  scene_transcriptions self = [] ->
  generate_all_scenes E self schedule w
  = (Ok (video_id self), emit_all [Logged (LogResults []); Logged LogNoScenes] w).
Proof.
  intros Hnone. unfold generate_all_scenes, combine_video_scenes. rewrite Hnone.
  cbn [Py.keys map all_tasks flat_map]. rewrite run_order_nil.
  cbn [run_tasks zip_with combine_each collect_clips]. mstep.
  unfold emit, emit_all. cbn. by rewrite <- app_assoc.
Qed.

Lemma no_scene_still_gives_an_id_witness :
  generate_all_scenes quiet_env (mkSceneGenerator [] "v") second_scene_first empty_world
  = (Ok (video_id (mkSceneGenerator [] "v")),
     emit_all [Logged (LogResults []); Logged LogNoScenes] empty_world).
Proof.
  apply (no_scene_still_gives_an_id quiet_env (mkSceneGenerator [] "v") second_scene_first
           empty_world).
  reflexivity.
Defined.

(** ** More on the constructor *)

Lemma dict_set_keys {V} (k : string) (v : V) (d : list (string * V)) :
  Py.keys (Py.dict_set k v d)
  = if bool_decide (k ∈ Py.keys d) then Py.keys d else Py.keys d ++ [k].
Proof.
  unfold Py.keys. induction d as [|[k' v'] d IH]; [done|].
  cbn [Py.dict_set map fst]. destruct (String.eqb_spec k' k) as [->|Hne].
  - rewrite bool_decide_eq_true_2 by apply list_elem_of_here. done.
  - cbn [map fst]. rewrite IH. destruct (bool_decide (k ∈ map fst d)) eqn:Hin.
    + apply bool_decide_eq_true in Hin.
      rewrite bool_decide_eq_true_2 by (by apply list_elem_of_further). done.
    + apply bool_decide_eq_false in Hin.
      rewrite bool_decide_eq_false_2; [done|].
      intros H. apply elem_of_cons in H as [?|?]; done.
Qed.

Lemma dict_set_values {V} (k k' : string) (v v' : V) (d : list (string * V)) :
  In (k', v') (Py.dict_set k v d) -> (k', v') = (k, v) \/ In (k', v') d.
Proof.
  induction d as [|[k0 v0] d IH]; cbn [Py.dict_set].
  - intros [H|[]]. by left.
  - destruct (String.eqb_spec k0 k) as [->|Hne].
    + intros [H|H]; [by left|right; by right].
    + intros [H|H]; [right; by left|]. destruct (IH H) as [?|?]; [by left|right; by right].
Qed.

(** The dictionary the comprehension builds: its keys are distinct, they
    are the keys it started from and the UUIDs drawn, and its values are
    those it started from and the transcriptions. *)
Lemma dict_comprehension_keys (E : env) (ts : list string) :
  forall d w,
    NoDup (Py.keys d) ->
    exists d',
      dict_comprehension E ts d w
      = (Ok d', World (clock w + length ts) (dirs w) (files w) (trace w))
      /\ NoDup (Py.keys d')
      /\ (forall k, In k (Py.keys d')
                    <-> In k (Py.keys d) \/ In k (map (uuid4 E) (seq (clock w) (length ts))))
      /\ (forall k t, In (k, t) d' -> In (k, t) d \/ In t ts)
      /\ (length d' <= length d + length ts)%nat.
Proof.
  induction ts as [|t ts IH]; intros d w Hnodup.
  - exists d. cbn. rewrite Nat.add_0_r. destruct w. cbn.
    split; [done|]. split; [done|]. split; [tauto|]. split; [tauto|lia].
  - cbn [dict_comprehension]. unfold new_uuid. mstep.
    destruct (IH (Py.dict_set (uuid4 E (clock w)) t d) (tick_clock w))
      as (d' & Hrun & Hnodup' & Hkeys & Hvalues & Hlen).
    { rewrite dict_set_keys. destruct (bool_decide _) eqn:Hin; [done|].
      apply bool_decide_eq_false in Hin. apply NoDup_app. split; [done|]. split.
      - intros x Hx Hx'. apply list_elem_of_singleton in Hx'. by subst x.
      - apply NoDup_singleton. }
    exists d'. rewrite Hrun. cbn [clock dirs files trace tick_clock length seq map].
    split; [do 2 f_equal; lia|]. split; [done|]. split; [|split].
    + intros k. rewrite Hkeys, dict_set_keys. cbn [clock tick_clock].
      destruct (bool_decide _) eqn:Hin.
      * apply bool_decide_eq_true in Hin. apply list_elem_of_In in Hin.
        cbn [In]. split; [tauto|]. intros [?|[<-|?]]; tauto.
      * rewrite in_app_iff. cbn [In]. tauto.
    + intros k t' Hin. destruct (Hvalues k t' Hin) as [Hd|Hts]; [|right; by right].
      apply dict_set_values in Hd as [Heq|Hd]; [|by left].
      inversion Heq; subst. right. by left.
    + assert (length (Py.dict_set (uuid4 E (clock w)) t d) <= S (length d))%nat.
      { clear. induction d as [|[k0 v0] d IHd]; cbn [Py.dict_set length]; [lia|].
        destruct (String.eqb k0 _); cbn [length]; lia. }
      cbn [length]. lia.
Qed.

(** X1: the constructor never fails and touches nothing but the source of
    UUIDs: one is drawn per transcription, then one for the video. The
    scenes are keyed by the UUIDs drawn, each key once, every scene holds
    one of the transcriptions given, and there are no more scenes than
    transcriptions. *)
Theorem constructor_keys_scenes_by_uuid (E : env) (ts : list string) (w : world) :
  let ids := map (uuid4 E) (seq (clock w) (length ts)) in
  exists self,
    init E ts w
    = (Ok self, World (S (clock w + length ts)) (dirs w) (files w) (trace w))
    /\ video_id self = uuid4 E (clock w + length ts)
    /\ NoDup (Py.keys (scene_transcriptions self))
    /\ (forall k, In k (Py.keys (scene_transcriptions self)) <-> In k ids)
    /\ (forall k t, In (k, t) (scene_transcriptions self) -> In t ts)
    /\ (length (scene_transcriptions self) <= length ts)%nat.
Proof.
  intros ids. unfold init. rewrite bind_unfold.
  destruct (dict_comprehension_keys E ts [] w) as (d & -> & Hnodup & Hkeys & Hvalues & Hlen).
  { constructor. }
  unfold new_uuid. mstep. eexists. split; [reflexivity|].
  cbn [video_id scene_transcriptions clock]. split; [done|]. split; [done|].
  split; [|split].
  - intros k. rewrite Hkeys. cbn. tauto.
  - intros k t Hin. destruct (Hvalues k t Hin) as [[]|?]. done.
  - exact Hlen.
Qed.


(** ** The events of a run, by origin *)

Lemma speech_requests_app (l1 l2 : list event) :
  speech_requests (l1 ++ l2) = (speech_requests l1 + speech_requests l2)%nat.
Proof. unfold speech_requests. by rewrite List.filter_app, length_app. Qed.

Lemma manim_events_no_speech (l : list event) :
  Forall (fun e => manim_event e = true) l -> speech_requests l = 0%nat.
Proof.
  induction 1 as [|e l He _ IH]; [done|].
  unfold speech_requests in *. cbn [List.filter].
  destruct e; try discriminate He; cbn [is_speech_request]; exact IH.
Qed.

Lemma speech_events_no_llm (l : list event) :
  Forall (fun e => speech_event e = true) l -> llm_requests l = 0%nat.
Proof.
  induction 1 as [|e l He _ IH]; [done|].
  unfold llm_requests in *. cbn [List.filter].
  destruct e; try discriminate He; cbn [is_llm_request]; exact IH.
Qed.

Lemma mux_events_no_request (l : list event) :
  Forall (fun e => mux_event e = true) l ->
  llm_requests l = 0%nat /\ speech_requests l = 0%nat.
Proof.
  induction 1 as [|e l He _ IH]; [done|].
  unfold llm_requests, speech_requests in *. cbn [List.filter].
  destruct e; try discriminate He; cbn [is_llm_request is_speech_request]; exact IH.
Qed.

Lemma assembly_events_no_request (l : list event) :
  Forall (fun e => assembly_event e = true) l ->
  llm_requests l = 0%nat /\ speech_requests l = 0%nat.
Proof.
  induction 1 as [|e l He _ IH]; [done|].
  unfold llm_requests, speech_requests in *. cbn [List.filter].
  destruct e; try discriminate He; cbn [is_llm_request is_speech_request]; exact IH.
Qed.

Section Origins.
Variable E : env.
Variable self : SceneGenerator.

Lemma render_scene_events (scene_id : string) (w : world) r w' :
  render_scene E self scene_id w = (r, w') ->
  exists new,
    trace w' = trace w ++ new
    /\ Forall (fun e => manim_event e = true) new /\ llm_requests new = 0%nat.
Proof.
  unfold render_scene. mstep.
  destruct (subprocess_run E _ _) as [stdout rendered|returncode stderr|e]; mstep;
    intros H; inversion H; subst; clear H; eexists;
    cbn [trace emit with_files with_dirs tick_clock]; rewrite <- ?app_assoc;
    (split; [reflexivity|]); (split; [|reflexivity]); repeat constructor.
Qed.

(** The events of a run of the loop are those of [generate_manim], and
    the requests to the model are no more than the attempts left. *)
Lemma loop_run_events (scene_id : string) iteration messages w r w' :
  loop_run E self scene_id iteration messages w r w' ->
  exists new,
    trace w' = trace w ++ new
    /\ Forall (fun e => manim_event e = true) new
    /\ (llm_requests new <= MAX_ITERATIONS - iteration)%nat.
Proof.
  induction 1 as [iteration messages w Hle
                 |iteration messages w e Hlt Hchat
                 |iteration messages w response e w1 Hlt Hchat Hput
                 |iteration messages w response w1 msg w2 Hlt Hchat Hput Hrender
                 |iteration messages w response w1 msg w2 r w3 Hlt Hchat Hput Hrender Hrun IH].
  - exists []. rewrite app_nil_r. split; [done|]. split; [constructor|cbn; lia].
  - eexists. split; [reflexivity|]. split; [by repeat constructor|].
    cbn. unfold MAX_ITERATIONS in *. lia.
  - apply put_code_in_file_effect in Hput as (_ & Htrace & _).
    eexists. cbn [trace emit]. rewrite Htrace. unfold answered. cbn [trace emit tick_clock].
    rewrite <- !app_assoc. split; [reflexivity|]. split; [by repeat constructor|].
    cbn. unfold MAX_ITERATIONS in *. lia.
  - apply put_code_in_file_effect in Hput as (_ & Htrace & _).
    apply render_scene_events in Hrender as (new & Htrace2 & Hnew & Hreq).
    eexists. cbn [trace emit]. rewrite Htrace2, Htrace. unfold answered.
    cbn [trace emit tick_clock]. rewrite <- !app_assoc. split; [reflexivity|]. split.
    + cbn [app]. repeat (apply Forall_cons; split; [done|]).
      apply Forall_app. split; [done|]. by repeat constructor.
    + cbn [app]. count_events. rewrite Hreq. cbn. unfold MAX_ITERATIONS in *. lia.
  - apply put_code_in_file_effect in Hput as (_ & Htrace & _).
    apply render_scene_events in Hrender as (new & Htrace2 & Hnew & Hreq).
    destruct IH as (new' & Htrace3 & Hnew' & Hreq').
    eexists. rewrite Htrace3. cbn [trace emit]. rewrite Htrace2, Htrace. unfold answered.
    cbn [trace emit tick_clock]. rewrite <- !app_assoc. split; [reflexivity|]. split.
    + cbn [app]. repeat (apply Forall_cons; split; [done|]).
      apply Forall_app. split; [done|]. by apply Forall_cons.
    + cbn [app]. count_events. rewrite Hreq. cbn [Nat.add]. lia.
Qed.

Lemma generate_manim_events (scene_id : string) (w : world) r w' :
  generate_manim E self scene_id w = (r, w') ->
  exists new,
    trace w' = trace w ++ new
    /\ Forall (fun e => manim_event e = true) new
    /\ (llm_requests new <= MAX_ITERATIONS)%nat.
Proof.
  intros Hrun.
  destruct (Py.dict_get scene_id (scene_transcriptions self)) as [text|] eqn:Htext.
  - destruct (generate_manim_run E self scene_id text w Htext) as (r1 & w1 & Hrun' & Hloop).
    rewrite Hrun in Hrun'. inversion Hrun'; subst r1 w1.
    apply loop_run_events in Hloop as (new & Htrace & Hnew & Hreq).
    exists new. split; [done|]. split; [done|lia].
  - unfold generate_manim, transcription_of in Hrun. rewrite Htext in Hrun.
    mstep_in Hrun. inversion Hrun; subst. exists []. rewrite app_nil_r.
    split; [done|]. split; [constructor|cbn; lia].
Qed.

Lemma generate_speech_events (scene_id video_id : string) (w : world) r w' :
  generate_speech E self scene_id video_id w = (r, w') ->
  exists new,
    trace w' = trace w ++ new
    /\ Forall (fun e => speech_event e = true) new
    /\ (speech_requests new <= 1)%nat.
Proof.
  unfold generate_speech, transcription_of.
  destruct (Py.dict_get _ _) as [text|]; mstep.
  2:{ intros H; inversion H; subst. exists []. rewrite app_nil_r.
      split; [done|]. split; [constructor|cbn; lia]. }
  destruct (speech_synthesize E _ _ _ _) as [synthesis|e]; mstep.
  2:{ intros H; inversion H; subst. eexists. split; [reflexivity|].
      split; [by repeat constructor|cbn; lia]. }
  destruct (ensure_dir E _ _) as [[[]|e|] w1] eqn:Hdir;
    apply ensure_dir_effect in Hdir as (_ & _ & Htrace & Hr); [| |done].
  2:{ intros H; inversion H; subst. eexists. rewrite Htrace. split; [reflexivity|].
      split; [by repeat constructor|cbn; lia]. }
  mstep.
  destruct (os.write_file E _ _ w1) as [[[]|e|] w2] eqn:Hwrite;
    apply write_file_effect in Hwrite as (_ & Htrace' & Hr'); [| |done]; mstep;
    intros H; inversion H; subst; eexists; cbn [trace emit]; rewrite ?Htrace', Htrace;
    cbn [trace emit tick_clock]; rewrite <- ?app_assoc;
    (split; [reflexivity|]); (split; [by repeat constructor|cbn; lia]).
Qed.
End Origins.


(** ** The phases of a run *)

Lemma scene_outcomes_app (l1 l2 : list event) :
  scene_outcomes (l1 ++ l2) = scene_outcomes l1 ++ scene_outcomes l2.
Proof. apply flat_map_app. Qed.

Lemma task_events_no_outcome (l : list event) :
  Forall (fun e => manim_event e || speech_event e = true) l -> scene_outcomes l = [].
Proof.
  induction 1 as [|e l He _ IH]; [done|].
  unfold scene_outcomes in *. cbn [flat_map]. rewrite IH.
  destruct e as [| | | |r| |]; try done. by destruct r.
Qed.

Lemma assembly_events_no_outcome (l : list event) :
  Forall (fun e => assembly_event e = true) l -> scene_outcomes l = [].
Proof.
  induction 1 as [|e l He _ IH]; [done|].
  unfold scene_outcomes in *. cbn [flat_map]. rewrite IH.
  destruct e as [| | | |r| |]; try done. by destruct r.
Qed.

Section Phases.
Variable E : env.
Variable self : SceneGenerator.

(** What [combine_manim_and_speech] leaves in the log: events of the mux,
    the last of which says that the sound was added when the call returns. *)
Lemma combine_manim_and_speech_events (scene_id video_id : string) (w : world) r w' :
  combine_manim_and_speech E self scene_id video_id w = (r, w') ->
  exists new,
    trace w' = trace w ++ new
    /\ Forall (fun e => mux_event e = true) new
    /\ r <> OutOfFuel
    /\ scene_outcomes new = match r with Ok _ => [(scene_id, true)] | _ => [] end.
Proof.
  unfold combine_manim_and_speech, moviepy.VideoFileClip, moviepy.AudioFileClip. mstep.
  destruct (files w !! get_scene_path scene_id video_id) as [[| |m]|];
    try (intros H; inversion H; subst; exists []; rewrite app_nil_r;
         repeat split; (done || constructor)).
  mstep.
  destruct (files w !! get_audio_path scene_id video_id) as [[|a|]|];
    try (intros H; inversion H; subst; exists []; rewrite app_nil_r;
         repeat split; (done || constructor)).
  mstep. rewrite adjust_clips_spec.
  assert (Hend : forall video' audio' w0 before,
            trace w0 = trace w ++ before ->
            Forall (fun e => mux_event e = true) before -> scene_outcomes before = [] ->
            (let* final_clip := trim_and_mux video' audio' in
             os.remove E (get_scene_path scene_id video_id) ;;;
             moviepy.write_videofile E (get_scene_path scene_id video_id) final_clip ;;;
             record (Closed scene_id VideoVar) ;;;
             record (Closed scene_id AudioVar) ;;;
             record (Closed scene_id FinalClipVar) ;;;
             log (LogAudioAdded scene_id))%py w0 = (r, w') ->
            exists new,
              trace w' = trace w ++ new
              /\ Forall (fun e => mux_event e = true) new
              /\ r <> OutOfFuel
              /\ scene_outcomes new = match r with Ok _ => [(scene_id, true)] | _ => [] end).
  { intros video' audio' w0 before Hbefore Hmux Hnone. rewrite bind_unfold.
    destruct (trim_and_mux video' audio' w0) as [[final_clip|e|] w3] eqn:Htrim;
      apply trim_and_mux_pure in Htrim as [-> Hfuel]; [| |done].
    2:{ intros H; inversion H; subst. by exists before. }
    unfold os.remove, os.fault, moviepy.write_videofile. mstep.
    destruct (fs_fault E _ _); mstep.
    { intros H; inversion H; subst. by exists before. }
    destruct (bool_decide _); mstep.
    2:{ intros H; inversion H; subst. by exists before. }
    destruct (encode_fault E _ _); mstep.
    { intros H; inversion H; subst. by exists before. }
    intros H; inversion H; subst. eexists.
    cbn [trace emit with_files tick_clock]. rewrite Hbefore, <- !app_assoc.
    split; [reflexivity|]. split.
    - apply Forall_app. split; [done|]. by repeat constructor.
    - split; [done|]. by rewrite scene_outcomes_app, Hnone. }
  destruct (_ <? _)%float; [|destruct (_ <? _)%float].
  - eapply Hend; [cbn [trace emit]; reflexivity|by repeat constructor|done].
  - eapply Hend; [cbn [trace emit emit_all]; rewrite <- app_assoc; reflexivity
                 |by repeat constructor|done].
  - eapply Hend; [cbn [trace emit]; reflexivity|by repeat constructor|done].
Qed.

(** The [for] loop of [generate_all_scenes]: when it comes to its end,
    every scene was handled once, in the order of the list. *)
Lemma combine_each_events (pairs : list ((option string * option string) * string)) :
  forall w r w',
    combine_each E self pairs w = (r, w') ->
    exists new,
      trace w' = trace w ++ new
      /\ llm_requests new = 0%nat /\ speech_requests new = 0%nat
      /\ r <> OutOfFuel
      /\ (forall u, r = Ok u ->
            scene_outcomes new = map (fun p => (snd p, both_done (fst p))) pairs).
Proof.
  induction pairs as [|[[manim_result speech_result] scene_id] rest IH]; intros w r w' Hrun.
  - cbn in Hrun. inversion Hrun; subst. exists []. rewrite app_nil_r. done.
  - cbn [combine_each] in Hrun.
    assert (Hskip : (log (LogSceneNotGenerated scene_id) ;;; combine_each E self rest)%py w
                    = (r, w') ->
              both_done (manim_result, speech_result) = false ->
              exists new,
                trace w' = trace w ++ new
                /\ llm_requests new = 0%nat /\ speech_requests new = 0%nat
                /\ r <> OutOfFuel
                /\ (forall u, r = Ok u ->
                      scene_outcomes new
                      = map (fun p => (snd p, both_done (fst p)))
                            (((manim_result, speech_result), scene_id) :: rest))).
    { intros Hrun' Hboth. mstep_in Hrun'.
      apply IH in Hrun' as (new & Htrace & Hllm & Hspeech & Hfuel & Hout).
      exists (Logged (LogSceneNotGenerated scene_id) :: new).
      cbn [trace emit] in Htrace. rewrite Htrace, <- app_assoc.
      split; [done|]. split; [done|]. split; [done|]. split; [done|].
      intros u Hu. cbn [map fst snd]. rewrite Hboth.
      change (scene_outcomes (?e :: ?l)) with (scene_outcome e ++ scene_outcomes l).
      by rewrite (Hout u Hu). }
    destruct manim_result as [m|]; [|by apply Hskip].
    destruct speech_result as [s|]; [|by apply Hskip].
    clear Hskip. rewrite bind_unfold in Hrun.
    destruct (combine_manim_and_speech E self scene_id (video_id self) w)
      as [[[]|e|] w1] eqn:Hmux;
      apply combine_manim_and_speech_events in Hmux as (new & Htrace & Hnew & Hfuel & Hout);
      [| |done].
    + apply IH in Hrun as (new' & Htrace' & Hllm & Hspeech & Hfuel' & Hout').
      destruct (mux_events_no_request new Hnew) as [Hllm0 Hspeech0].
      exists (new ++ new'). rewrite Htrace', Htrace, <- app_assoc.
      split; [done|]. rewrite llm_requests_app, speech_requests_app.
      split; [lia|]. split; [lia|]. split; [done|].
      intros u Hu. rewrite scene_outcomes_app, Hout, (Hout' u Hu). done.
    + inversion Hrun; subst. destruct (mux_events_no_request new Hnew) as [Hllm0 Hspeech0].
      exists new. done.
Qed.

Lemma collect_clips_events (ids : list string) :
  forall sids clips w r w',
    collect_clips self ids sids clips w = (r, w') ->
    exists new,
      trace w' = trace w ++ new /\ Forall (fun e => assembly_event e = true) new
      /\ r <> OutOfFuel.
Proof.
  induction ids as [|scene_id rest IH]; intros sids clips w r w' Hrun.
  - cbn in Hrun. inversion Hrun; subst. exists []. rewrite app_nil_r. done.
  - cbn [collect_clips] in Hrun. unfold os.path_exists in Hrun. mstep_in Hrun.
    destruct (os.path_exists_in w _).
    + rewrite bind_unfold in Hrun. unfold moviepy.VideoFileClip in Hrun.
      destruct (files w !! _) as [[| |m]|];
        try (inversion Hrun; subst; exists []; rewrite app_nil_r; done).
      by apply IH in Hrun.
    + mstep_in Hrun. apply IH in Hrun as (new & Htrace & Hnew & Hfuel).
      eexists. cbn [trace emit] in Htrace. rewrite Htrace, <- app_assoc.
      split; [reflexivity|]. split; [|done]. by apply Forall_cons.
Qed.

Lemma combine_video_scenes_events (w : world) r w' :
  combine_video_scenes E self w = (r, w') ->
  exists new,
    trace w' = trace w ++ new /\ Forall (fun e => assembly_event e = true) new
    /\ r <> OutOfFuel.
Proof.
  unfold combine_video_scenes. rewrite bind_unfold.
  destruct (collect_clips self _ [] [] w) as [[[sids clips]|e|] w1] eqn:Hcollect;
    apply collect_clips_events in Hcollect as (new & Htrace & Hnew & Hfuel); [| |done].
  2:{ intros H; inversion H; subst. by exists new. }
  destruct clips as [|clip clips]; mstep.
  - intros H; inversion H; subst. eexists. cbn [trace emit]. rewrite Htrace, <- app_assoc.
    split; [reflexivity|]. split; [|done]. apply Forall_app. split; [done|].
    by repeat constructor.
  - unfold moviepy.write_videofile. mstep. destruct (encode_fault E _ _); mstep.
    + intros H; inversion H; subst. by exists new.
    + intros H; inversion H; subst. eexists. cbn [trace emit with_files tick_clock].
      rewrite Htrace, <- app_assoc. split; [reflexivity|]. split; [|done].
      apply Forall_app. split; [done|]. by repeat constructor.
Qed.

(** The tasks: their events, and the requests they send at most. *)
Lemma run_tasks_events (order : list task) :
  forall finished w r w',
    run_tasks E self order finished w = (r, w') ->
    exists new,
      trace w' = trace w ++ new
      /\ Forall (fun e => manim_event e || speech_event e = true) new
      /\ (llm_requests new <= MAX_ITERATIONS * length (tasks_of_kind ManimTask order))%nat
      /\ (speech_requests new <= length (tasks_of_kind SpeechTask order))%nat
      /\ r <> OutOfFuel.
Proof.
  induction order as [|t rest IH]; intros finished w r w' Hrun.
  - cbn in Hrun. inversion Hrun; subst. exists []. rewrite app_nil_r.
    split; [done|]. split; [constructor|]. cbn. split; [lia|]. split; [lia|done].
  - cbn [run_tasks] in Hrun. rewrite bind_unfold in Hrun.
    assert (Hone : forall r1 w1, run_task E self t w = (r1, w1) ->
              exists new,
                trace w1 = trace w ++ new
                /\ Forall (fun e => manim_event e || speech_event e = true) new
                /\ (llm_requests new
                    <= MAX_ITERATIONS * length (tasks_of_kind ManimTask [t]))%nat
                /\ (speech_requests new <= length (tasks_of_kind SpeechTask [t]))%nat
                /\ r1 <> OutOfFuel).
    { intros r1 w1 Hr1. unfold run_task in Hr1. destruct t as [scene_id []]; cbn [fst snd] in Hr1.
      - pose proof (generate_manim_ends E self scene_id w) as Hfuel. rewrite Hr1 in Hfuel.
        apply generate_manim_events in Hr1 as (new & Htrace & Hnew & Hreq).
        exists new. split; [done|]. split.
        { eapply Forall_impl; [exact Hnew|]. intros e He. by rewrite He. }
        rewrite (manim_events_no_speech new Hnew).
        change (length (tasks_of_kind ManimTask [(scene_id, ManimTask)])) with 1%nat.
        split; [lia|]. split; [lia|done].
      - pose proof (generate_speech_ends E self scene_id (video_id self) w) as Hfuel.
        rewrite Hr1 in Hfuel.
        apply generate_speech_events in Hr1 as (new & Htrace & Hnew & Hreq).
        exists new. split; [done|]. split.
        { eapply Forall_impl; [exact Hnew|]. intros e He. rewrite He. apply orb_true_r. }
        rewrite (speech_events_no_llm new Hnew).
        change (length (tasks_of_kind SpeechTask [(scene_id, SpeechTask)])) with 1%nat.
        split; [lia|]. split; [lia|done]. }
    assert (Hcount : forall k,
              length (tasks_of_kind k (t :: rest))
              = (length (tasks_of_kind k [t]) + length (tasks_of_kind k rest))%nat).
    { intros k. unfold tasks_of_kind. cbn [List.filter].
      destruct (bool_decide (snd t = k)); cbn [length]; lia. }
    destruct (run_task E self t w) as [[r1|e|] w1] eqn:Htask;
      destruct (Hone _ _ eq_refl) as (new & Htrace & Hnew & Hllm & Hspeech & Hfuel);
      [| |done].
    + apply IH in Hrun as (new' & Htrace' & Hnew' & Hllm' & Hspeech' & Hfuel').
      exists (new ++ new'). rewrite Htrace', Htrace, <- app_assoc. split; [done|].
      split; [by apply Forall_app|].
      rewrite llm_requests_app, speech_requests_app, !Hcount. split; [lia|]. split; [lia|done].
    + inversion Hrun; subst. exists new. rewrite !Hcount. split; [done|]. split; [done|].
      split; [lia|]. split; [lia|done].
Qed.
End Phases.


(** ** The tasks of a run *)

Lemma first_occurrences_In (t : task) (l : list task) :
  In t (first_occurrences l) -> In t l.
Proof.
  induction l as [|u l IH]; [done|]. cbn [first_occurrences].
  intros [->|Hin]; [by left|]. right. apply filter_In in Hin as [Hin _]. by apply IH.
Qed.

Lemma first_occurrences_NoDup (l : list task) : NoDup (first_occurrences l).
Proof.
  induction l as [|u l IH]; [constructor|]. cbn [first_occurrences]. constructor.
  - intros Hin. apply list_elem_of_In, filter_In in Hin as [_ Hne].
    by rewrite bool_decide_eq_true_2 in Hne.
  - by apply NoDup_ListNoDup, List.NoDup_filter, NoDup_ListNoDup.
Qed.

(** Whatever the schedule, the tasks that run are the tasks created, each
    of them once. *)
Lemma run_order_tasks (schedule : list task) (ids : list string) :
  NoDup (run_order schedule (all_tasks ids))
  /\ forall t, In t (run_order schedule (all_tasks ids)) -> In (fst t) ids.
Proof.
  split; [apply first_occurrences_NoDup|].
  intros t Hin. unfold run_order in Hin. apply first_occurrences_In in Hin.
  assert (Hall : In t (all_tasks ids)).
  { apply in_app_or in Hin as [Hin|Hin]; [|done].
    apply filter_In in Hin as [_ Hin]. apply bool_decide_eq_true in Hin.
    by apply list_elem_of_In. }
  unfold all_tasks in Hall. apply in_flat_map in Hall as (scene_id & Hid & Ht).
  destruct Ht as [<-|[<-|[]]]; done.
Qed.

Lemma tasks_of_kind_length (k : task_kind) (order : list task) (ids : list string) :
  NoDup order -> (forall t, In t order -> In (fst t) ids) ->
  (length (tasks_of_kind k order) <= length ids)%nat.
Proof.
  intros Hnodup Hids. apply NoDup_ListNoDup in Hnodup.
  rewrite <- (@length_map task string fst (tasks_of_kind k order)).
  apply List.NoDup_incl_length.
  - apply List.NoDup_map_NoDup_ForallPairs.
    + intros [a ka] [b kb] Ha Hb Heq. cbn in Heq. subst b.
      apply filter_In in Ha as [_ Ha]. apply filter_In in Hb as [_ Hb].
      apply bool_decide_eq_true in Ha, Hb. cbn in Ha, Hb. by subst.
    + by apply List.NoDup_filter.
  - intros s Hs. apply in_map_iff in Hs as (t & <- & Ht).
    apply filter_In in Ht as [Ht _]. by apply Hids.
Qed.

(** A run of [generate_all_scenes], phase by phase: the tasks; then, unless
    one of them raised, the results, the mux of the scenes and the
    assembly. *)
Lemma generate_all_scenes_phases (E : env) (self : SceneGenerator) (schedule : list task)
    (w : world) r w' :
  generate_all_scenes E self schedule w = (r, w') ->
  let ids := Py.keys (scene_transcriptions self) in
  exists before,
    (llm_requests before <= MAX_ITERATIONS * length ids)%nat
    /\ (speech_requests before <= length ids)%nat
    /\ scene_outcomes before = []
    /\ r <> OutOfFuel
    /\ ((trace w' = trace w ++ before /\ exists e, r = Raise e)
        \/ exists results after,
            trace w' = trace w ++ before ++ [Logged (LogResults results)] ++ after
            /\ length results = length ids
            /\ llm_requests after = 0%nat /\ speech_requests after = 0%nat
            /\ forall out, r = Ok out ->
                 out = video_id self
                 /\ scene_outcomes after
                    = map (fun p => (snd p, both_done (fst p))) (zip results ids)).
Proof.
  intros Hrun ids. unfold generate_all_scenes in Hrun. fold ids in Hrun.
  rewrite bind_unfold in Hrun.
  destruct (run_order_tasks schedule ids) as [Hnodup Hids].
  destruct (run_tasks E self (run_order schedule (all_tasks ids)) [] w)
    as [[finished|e|] w1] eqn:Htasks;
    apply run_tasks_events in Htasks as (before & Htrace & Hbefore & Hllm & Hspeech & Hfuel);
    [| |done];
    pose proof (tasks_of_kind_length ManimTask _ ids Hnodup Hids) as Hm;
    pose proof (tasks_of_kind_length SpeechTask _ ids Hnodup Hids) as Hs;
    exists before; (split; [unfold MAX_ITERATIONS in *; lia|]); (split; [lia|]);
    (split; [by apply task_events_no_outcome|]).
  2:{ inversion Hrun; subst. split; [done|]. left. eauto. }
  mstep_in Hrun.
  set (results := map (fun scene_id => (result_of finished (scene_id, ManimTask),
                                        result_of finished (scene_id, SpeechTask))) ids) in *.
  assert (Hlen : length results = length ids) by (unfold results; apply length_map).
  destruct (combine_each E self (zip results ids) _) as [[[]|e|] w2] eqn:Hmux;
    apply combine_each_events in Hmux as (mux & Htrace2 & Hllm2 & Hspeech2 & Hfuel2 & Hout);
    [| |done].
  2:{ inversion Hrun; subst. split; [done|]. right. exists results, mux.
      rewrite Htrace2. cbn [trace emit]. rewrite Htrace, <- !app_assoc. done. }
  rewrite bind_unfold in Hrun.
  destruct (combine_video_scenes E self w2) as [[final|e|] w3] eqn:Hassembly;
    apply combine_video_scenes_events in Hassembly as (asm & Htrace3 & Hasm & Hfuel3);
    [| |done];
    destruct (assembly_events_no_request asm Hasm) as [Hllm3 Hspeech3];
    cbn [ret] in Hrun; inversion Hrun; subst; (split; [done|]); right;
    exists results, (mux ++ asm);
    rewrite Htrace3, Htrace2; cbn [trace emit]; rewrite Htrace, <- !app_assoc;
    (split; [done|]); (split; [done|]);
    rewrite llm_requests_app, speech_requests_app; (split; [lia|]); (split; [lia|]).
  - intros out Hout'. inversion Hout'; subst. split; [done|].
    rewrite scene_outcomes_app, (Hout tt eq_refl), (assembly_events_no_outcome asm Hasm).
    by rewrite app_nil_r.
  - discriminate.
Qed.





(** ** Directories and flat names *)

(** An ancestor of a path is the part of the path before one of its
    slashes. *)
Lemma ancestors_from_prefix (rest : list ascii) :
  forall seen d,
    In d (os.ancestors_from seen rest) ->
    exists tail, rev seen ++ rest = list_ascii_of_string d ++ os.slash :: tail.
Proof.
  induction rest as [|c rest IH]; intros seen d Hin; [done|].
  cbn [os.ancestors_from] in Hin. apply in_app_or in Hin as [Hin|Hin].
  - destruct (Ascii.eqb_spec c os.slash) as [->|]; [|done].
    destruct (negb _); [|done]. destruct Hin as [<-|[]].
    exists rest. by rewrite list_ascii_of_string_of_list_ascii.
  - destruct (IH _ _ Hin) as [tail Htail]. exists tail.
    rewrite <- Htail. cbn [rev]. by rewrite <- app_assoc.
Qed.

Lemma ancestors_prefix (p d : string) :
  In d (os.ancestors p) -> exists tail, p = d +:+ "/" +:+ tail.
Proof.
  intros Hin. apply ancestors_from_prefix in Hin as [tail Htail]. cbn [rev app] in Htail.
  exists (string_of_list_ascii tail).
  rewrite <- (string_of_list_ascii_of_string p), Htail.
  rewrite <- (string_of_list_ascii_of_string (d +:+ "/" +:+ string_of_list_ascii tail)).
  rewrite !list_ascii_of_string_append, list_ascii_of_string_of_list_ascii. done.
Qed.

(** Two flat names followed by a slash and the same text, longer or not,
    are the same name. *)
Lemma flat_split (a b : list ascii) (x y : list ascii) :
  Forall (fun c => c <> os.slash) a -> Forall (fun c => c <> os.slash) b ->
  a ++ os.slash :: x = b ++ os.slash :: y -> a = b /\ x = y.
Proof.
  revert b. induction a as [|c a IH]; intros [|c' b] Ha Hb Heq; cbn [app] in Heq.
  - by inversion Heq.
  - inversion Heq; subst. apply Forall_inv in Hb. done.
  - inversion Heq; subst. apply Forall_inv in Ha. done.
  - inversion Heq; subst. apply Forall_cons in Ha as [_ Ha]. apply Forall_cons in Hb as [_ Hb].
    destruct (IH b Ha Hb) as [-> ->]; done.
Qed.

Lemma flat_name_no_slash (a b tail : string) : flat_name a -> a <> b +:+ "/" +:+ tail.
Proof.
  unfold flat_name. intros Hflat ->. rewrite !list_ascii_of_string_append in Hflat.
  apply Forall_app in Hflat as [_ Hflat]. apply Forall_app in Hflat as [Hflat _].
  apply Forall_inv in Hflat. by apply Hflat.
Qed.

(** The clip of a scene with a flat name is not the directory of a scene
    with a flat name, nor an ancestor of that directory or of its clip. *)
Lemma clip_is_no_directory (video_id a b : string) :
  flat_name a -> flat_name b ->
  get_scene_path a video_id <> scene_dir b video_id
  /\ ~ In (get_scene_path a video_id) (os.ancestors (scene_dir b video_id))
  /\ ~ In (get_scene_path a video_id) (os.ancestors (get_scene_path b video_id)).
Proof.
  intros Ha Hb. split; [|split].
  - unfold get_scene_path, scene_dir. intros Heq. do 4 apply String.app_inj in Heq.
    symmetry in Heq. revert Heq. by apply flat_name_no_slash.
  - intros Hin. apply ancestors_prefix in Hin as [tail Heq].
    unfold get_scene_path, scene_dir in Heq. rewrite !append_assoc in Heq.
    do 4 apply String.app_inj in Heq. revert Heq. by apply flat_name_no_slash.
  - intros Hin. apply ancestors_prefix in Hin as [tail Heq].
    unfold get_scene_path in Heq. rewrite !append_assoc in Heq.
    do 4 apply String.app_inj in Heq.
    apply (f_equal list_ascii_of_string) in Heq.
    rewrite !list_ascii_of_string_append in Heq.
    change (list_ascii_of_string "/") with [os.slash] in Heq. cbn [app] in Heq.
    apply flat_split in Heq as [_ Heq]; [|done|done].
    apply (f_equal (@length ascii)) in Heq. rewrite length_app in Heq. cbn in Heq. lia.
Qed.

(** ** The directories a task creates *)

Section Directories.
Variable E : env.

Lemma ensure_dir_dirs (d : string) (w : world) r w' :
  ensure_dir E d w = (r, w') ->
  forall x, x ∈ dirs w' -> x ∈ dirs w \/ x = d \/ In x (os.ancestors d).
Proof.
  unfold ensure_dir, os.path_exists. mstep.
  destruct (os.path_exists_in w d); mstep.
  - intros H; inversion H; subst. auto.
  - unfold os.makedirs, os.fault, os.path_exists. mstep.
    destruct (fs_fault E _ _); mstep.
    + intros H; inversion H; subst. auto.
    + destruct (os.path_exists_in _ _); intros H; inversion H; subst;
        cbn [dirs with_dirs tick_clock]; [auto|].
      intros x Hx. apply elem_of_union in Hx as [Hx|Hx]; [|apply elem_of_singleton in Hx; auto].
      apply elem_of_union in Hx as [Hx|Hx]; [auto|].
      apply elem_of_list_to_set, list_elem_of_In in Hx. auto.
Qed.

Variable self : SceneGenerator.
Variable scene_id : string.

Lemma render_scene_dirs (w : world) r w' :
  render_scene E self scene_id w = (r, w') ->
  forall x,
    x ∈ dirs w' ->
    x ∈ dirs w \/ In x (os.ancestors (get_scene_path scene_id (video_id self))).
Proof.
  unfold render_scene. cbv zeta.
  generalize (os.ancestors (get_scene_path scene_id (video_id self))). intros up. mstep.
  destruct (subprocess_run E _ _); mstep; intros H; inversion H; subst; clear H;
    intros x Hx; cbn [dirs emit with_files with_dirs tick_clock] in Hx; auto.
  apply elem_of_union in Hx as [Hx|Hx]; [auto|].
  apply elem_of_list_to_set, list_elem_of_In in Hx. auto.
Qed.

(** The directories a task leaves are those it found, the directory of
    its scene, and ancestors of that directory and of the clip. *)
Let within (w w' : world) : Prop :=
  forall x,
    x ∈ dirs w' ->
    x ∈ dirs w \/ x = scene_dir scene_id (video_id self)
    \/ In x (os.ancestors (scene_dir scene_id (video_id self)))
    \/ In x (os.ancestors (get_scene_path scene_id (video_id self))).

Lemma loop_run_dirs iteration messages w r w' :
  loop_run E self scene_id iteration messages w r w' -> within w w'.
Proof.
  induction 1 as [iteration messages w Hle
                 |iteration messages w e Hlt Hchat
                 |iteration messages w response e w1 Hlt Hchat Hput
                 |iteration messages w response w1 msg w2 Hlt Hchat Hput Hrender
                 |iteration messages w response w1 msg w2 r w3 Hlt Hchat Hput Hrender Hrun IH];
    intros x Hx; cbn [dirs emit tick_clock] in Hx; auto.
  - unfold put_code_in_file in Hput. mstep_in Hput.
    destruct (ensure_dir E _ _) as [[[]|e'|] wd] eqn:Hdir; [|inversion Hput; subst|done].
    + apply write_file_effect in Hput as (Hdirs & _).
      rewrite Hdirs in Hx. apply (ensure_dir_dirs _ _ _ _ Hdir) in Hx. tauto.
    + apply (ensure_dir_dirs _ _ _ _ Hdir) in Hx. tauto.
  - assert (Hw1 : within w w1).
    { clear x Hx. intros x Hx. unfold put_code_in_file in Hput. mstep_in Hput.
      destruct (ensure_dir E _ _) as [[[]|e'|] wd] eqn:Hdir; [|done|done].
      apply write_file_effect in Hput as (Hdirs & _).
      rewrite Hdirs in Hx. apply (ensure_dir_dirs _ _ _ _ Hdir) in Hx.
      cbn [dirs answered emit tick_clock] in Hx. tauto. }
    pose proof (render_scene_dirs _ _ _ Hrender) as Hup. cbn [dirs emit] in Hx.
    destruct (Hup x Hx) as [Hx'|Hx']; [by apply Hw1|auto].
  - assert (Hw1 : within w w1).
    { clear x Hx. intros x Hx. unfold put_code_in_file in Hput. mstep_in Hput.
      destruct (ensure_dir E _ _) as [[[]|e'|] wd] eqn:Hdir; [|done|done].
      apply write_file_effect in Hput as (Hdirs & _).
      rewrite Hdirs in Hx. apply (ensure_dir_dirs _ _ _ _ Hdir) in Hx.
      cbn [dirs answered emit tick_clock] in Hx. tauto. }
    apply render_scene_effect in Hrender as (ok & msg' & new & Hr & _ & _ & _ & _ & Hok).
    inversion Hr; subst ok msg'. destruct Hok as (_ & Hdirs2 & _).
    apply IH in Hx. cbn [dirs emit] in Hx. rewrite Hdirs2 in Hx.
    destruct Hx as [Hx|Hx]; [by apply Hw1|tauto].
Qed.

Lemma generate_manim_dirs (w : world) r w' :
  generate_manim E self scene_id w = (r, w') -> within w w'.
Proof.
  intros Hrun.
  destruct (Py.dict_get scene_id (scene_transcriptions self)) as [text|] eqn:Htext.
  - destruct (generate_manim_run E self scene_id text w Htext) as (r1 & w1 & Hrun' & Hloop).
    rewrite Hrun in Hrun'. inversion Hrun'; subst r1 w1. by apply loop_run_dirs in Hloop.
  - unfold generate_manim, transcription_of in Hrun. rewrite Htext in Hrun.
    mstep_in Hrun. inversion Hrun; subst. intros x Hx. by left.
Qed.

Lemma generate_speech_dirs (w : world) r w' :
  generate_speech E self scene_id (video_id self) w = (r, w') -> within w w'.
Proof.
  unfold generate_speech, transcription_of.
  destruct (Py.dict_get _ _) as [text|]; mstep.
  2:{ intros H; inversion H; subst. intros x Hx. by left. }
  destruct (speech_synthesize E _ _ _ _) as [synthesis|e]; mstep.
  2:{ intros H; inversion H; subst. intros x Hx. by left. }
  destruct (ensure_dir E _ _) as [[[]|e|] w1] eqn:Hdir.
  2,3: intros H; inversion H; subst; intros x Hx;
    apply (ensure_dir_dirs _ _ _ _ Hdir) in Hx; cbn [dirs emit tick_clock] in Hx; tauto.
  mstep.
  destruct (os.write_file E _ _ w1) as [[[]|e|] w2] eqn:Hwrite;
    apply write_file_effect in Hwrite as (Hdirs' & _ & Hr'); [| |done]; mstep;
    intros H; inversion H; subst; intros x Hx; cbn [dirs emit] in Hx;
    rewrite ?Hdirs' in Hx; apply (ensure_dir_dirs _ _ _ _ Hdir) in Hx;
    cbn [dirs emit tick_clock] in Hx; tauto.
Qed.
End Directories.


(** ** A run in which nothing fails but manim *)

(** The directory of a scene with a flat name is not one of the files the
    tasks write. *)
Lemma scene_dir_not_task_file (video_id a : string) (t : task) :
  flat_name a -> ~ In (scene_dir a video_id) (task_files video_id t).
Proof.
  intros Hflat. unfold task_files. destruct (snd t); cbn [In].
  - rewrite code_path_in_scene_dir.
    change (get_scene_path (fst t) video_id)
      with (GENERATIONS_PATH +:+ "/" +:+ video_id +:+ "/" +:+ fst t +:+ "/"
            +:+ VIDEO_INTERNAL_PATH).
    unfold scene_dir. rewrite !append_assoc.
    intros [Heq|[Heq|[]]]; do 4 apply String.app_inj in Heq;
      symmetry in Heq; revert Heq; by apply flat_name_no_slash.
  - rewrite get_audio_path_in_scene_dir. unfold scene_dir. rewrite !append_assoc.
    intros [Heq|[]]. do 4 apply String.app_inj in Heq.
    symmetry in Heq. revert Heq. by apply flat_name_no_slash.
Qed.

Lemma written_task_files (good : string -> bool) (video_id p : string) (t : task) :
  In p (written good video_id t) -> In p (task_files video_id t).
Proof.
  unfold written, task_files. destruct (snd t); [|done].
  destruct (good (fst t)); cbn [In]; tauto.
Qed.

(** The file of a task is not written by another task. *)
Lemma main_file_not_written (video_id : string) (t t' : task) :
  t <> t' -> ~ In (main_file video_id t) (task_files video_id t').
Proof.
  intros Hne. unfold main_file, task_files.
  destruct t as [s []], t' as [s' []]; cbn [fst snd In].
  - intros [Heq|[Heq|[]]].
    + revert Heq. apply code_path_not_clip.
    + apply get_scene_path_inj in Heq. congruence.
  - intros [Heq|[]]. revert Heq. apply get_audio_path_not_clip.
  - intros [Heq|[Heq|[]]].
    + revert Heq. apply code_path_not_audio.
    + symmetry in Heq. revert Heq. apply get_audio_path_not_clip.
  - intros [Heq|[]]. apply get_audio_path_inj in Heq. congruence.
Qed.

Lemma result_of_finished (f : task -> option string) (order : list task) (t : task) :
  In t order -> result_of (map (fun t => (t, f t)) order) t = f t.
Proof.
  unfold result_of. induction order as [|u order IH]; [done|].
  intros Hin. cbn [map list_find]. cbn [fst]. destruct (decide (u = t)) as [->|Hne]; [done|].
  destruct Hin as [?|Hin]; [done|]. specialize (IH Hin).
  destruct (list_find _ _) as [[i [u' r]]|]; [exact IH|].
  by rewrite <- IH.
Qed.

Lemma zip_map_self {A B} (f : A -> B) (l : list A) :
  zip (map f l) l = map (fun x => (f x, x)) l.
Proof. induction l as [|x l IH]; [done|]. cbn. by rewrite <- IH. Qed.

Section QuietRun.
Variable E : env.
Variable self : SceneGenerator.
Variable good : string -> bool.
Hypothesis Hdisk : forall t p, fs_fault E t p = None.
Hypothesis Hencoder : forall t p, encode_fault E t p = None.
Hypothesis Hmodel :
  forall t conversation, exists response,
    chat_completions_create E t conversation = Returns response.
Hypothesis Hvoice :
  forall t text, exists a,
    speech_synthesize E t text VOICE_ID "wav" = Returns (Wav a) /\ (0 <? a)%float = true.
Hypothesis Hmanim :
  forall t scene_id,
    In scene_id (Py.keys (scene_transcriptions self)) ->
    if good scene_id then
      exists stdout rendered,
        subprocess_run E t (render_command self scene_id) = Completed stdout rendered
        /\ (0 <? rendered)%float = true
    else render_message (subprocess_run E t (render_command self scene_id)) <> None.
Hypothesis Hflat :
  forall scene_id, In scene_id (Py.keys (scene_transcriptions self)) -> flat_name scene_id.

Lemma put_code_in_file_returns (scene_id output : string) (w : world) :
  scene_dir scene_id (video_id self) ∉ dom (files w) ->
  exists w1,
    put_code_in_file E self scene_id output w = (Ok tt, w1)
    /\ files w1 = <[ code_path scene_id (video_id self) := TextFile output ]> (files w)
    /\ dirs w ⊆ dirs w1.
Proof.
  clear Hencoder Hmodel Hvoice Hmanim Hflat.
  intros Hfile. unfold put_code_in_file. mstep.
  destruct (ensure_dir_returns E _ w (Hdisk _ _) Hfile)
    as (w1 & -> & Hfiles & Hdirs & Hdir & _).
  mstep. rewrite write_file_returns; [|apply Hdisk|by rewrite dirname_code_path].
  eexists. split; [reflexivity|]. cbn [files dirs with_files tick_clock].
  by rewrite Hfiles.
Qed.

Lemma render_scene_completed (scene_id stdout : string) (rendered : float) (w : world) :
  subprocess_run E (clock w) (render_command self scene_id) = Completed stdout rendered ->
  exists w2,
    render_scene E self scene_id w = (Ok (true, ""), w2)
    /\ files w2 = <[ get_scene_path scene_id (video_id self)
                     := Mp4File (Media rendered None []) ]> (files w)
    /\ dirs w ⊆ dirs w2.
Proof.
  clear Hdisk Hencoder Hmodel Hvoice Hmanim Hflat.
  intros Hdone. unfold render_scene. mstep. cbn [clock emit tick_clock].
  fold (render_command self scene_id). rewrite Hdone. mstep.
  eexists. split; [reflexivity|]. cbn [files dirs emit with_files with_dirs tick_clock].
  split; [done|set_solver].
Qed.

Lemma render_scene_failed (scene_id : string) (w : world) :
  render_message (subprocess_run E (clock w) (render_command self scene_id)) <> None ->
  exists msg w2, render_scene E self scene_id w = (Ok (false, msg), w2).
Proof.
  clear Hdisk Hencoder Hmodel Hvoice Hmanim Hflat.
  intros Hfailed. unfold render_scene. mstep. cbn [clock emit tick_clock].
  fold (render_command self scene_id).
  destruct (subprocess_run E (clock w) (render_command self scene_id)); [done| |];
    mstep; eauto.
Qed.

(** For a scene that renders, the first attempt of [generate_manim]
    succeeds. *)
Lemma generate_manim_returns (scene_id text : string) (w : world) :
  In scene_id (Py.keys (scene_transcriptions self)) -> good scene_id = true ->
  Py.dict_get scene_id (scene_transcriptions self) = Some text ->
  scene_dir scene_id (video_id self) ∉ dom (files w) ->
  exists w' response rendered,
    generate_manim E self scene_id w = (Ok (Some scene_id), w')
    /\ (0 <? rendered)%float = true
    /\ files w'
       = <[ get_scene_path scene_id (video_id self) := Mp4File (Media rendered None []) ]>
           (<[ code_path scene_id (video_id self) := TextFile (Py.strip response fence) ]>
              (files w)).
Proof.
  clear Hencoder Hvoice Hflat.
  intros Hkey Hgood Htext Hfile.
  destruct (generate_manim_run E self scene_id text w Htext) as (r & w' & Hrun & Hloop).
  rewrite Hrun. clear Hrun.
  assert (Hrenders : forall t, exists stdout rendered,
            subprocess_run E t (render_command self scene_id) = Completed stdout rendered
            /\ (0 <? rendered)%float = true).
  { intros t. specialize (Hmanim t scene_id Hkey). by rewrite Hgood in Hmanim. }
  inversion Hloop as [? ? ? Hle
                     |? ? ? e Hlt Hchat
                     |? ? ? response e w1 Hlt Hchat Hput
                     |? ? ? response w1 msg w2 Hlt Hchat Hput Hrender
                     |? ? ? response w1 msg w2 ? ? Hlt Hchat Hput Hrender Hnext]; subst.
  - unfold MAX_ITERATIONS in Hle. lia.
  - destruct (Hmodel (clock w)
                [Message "system" SYSTEM_SCENE_PROMPT; Message "user" text]) as [? Heq].
    rewrite Heq in Hchat. discriminate.
  - destruct (put_code_in_file_returns scene_id (Py.strip response fence)
                (answered [Message "system" SYSTEM_SCENE_PROMPT; Message "user" text]
                   response w) Hfile) as (? & Heq & _).
    rewrite Heq in Hput. discriminate.
  - destruct (put_code_in_file_returns scene_id (Py.strip response fence)
                (answered [Message "system" SYSTEM_SCENE_PROMPT; Message "user" text]
                   response w) Hfile) as (? & Heq & Hfiles & _).
    rewrite Heq in Hput. inversion Hput; subst. clear Hput.
    destruct (Hrenders (clock w1)) as (stdout & rendered & Hdone & Hpos).
    destruct (render_scene_completed scene_id stdout rendered w1 Hdone)
      as (? & Heq' & Hfiles' & _).
    rewrite Heq' in Hrender. inversion Hrender; subst. clear Hrender.
    eexists. exists response, rendered. split; [reflexivity|]. split; [done|].
    cbn [files emit answered tick_clock] in *. by rewrite Hfiles', Hfiles.
  - destruct (Hrenders (clock w1)) as (stdout & rendered & Hdone & Hpos).
    destruct (render_scene_completed scene_id stdout rendered w1 Hdone) as (? & Heq' & _).
    rewrite Heq' in Hrender. discriminate.
Qed.

(** For a scene that does not render, the loop ends with [None], the
    program being the only file it has written. *)
Lemma loop_run_gives_up (scene_id : string) iteration messages w r w' :
  loop_run E self scene_id iteration messages w r w' ->
  In scene_id (Py.keys (scene_transcriptions self)) -> good scene_id = false ->
  scene_dir scene_id (video_id self) ∉ dom (files w) ->
  r = Ok None
  /\ forall p, p <> code_path scene_id (video_id self) -> files w' !! p = files w !! p.
Proof.
  clear Hencoder Hvoice.
  intros Hrun Hkey Hbad.
  assert (Hfails : forall t,
            render_message (subprocess_run E t (render_command self scene_id)) <> None).
  { intros t. specialize (Hmanim t scene_id Hkey). by rewrite Hbad in Hmanim. }
  induction Hrun as [iteration messages w Hle
                 |iteration messages w e Hlt Hchat
                 |iteration messages w response e w1 Hlt Hchat Hput
                 |iteration messages w response w1 msg w2 Hlt Hchat Hput Hrender
                 |iteration messages w response w1 msg w2 r w3 Hlt Hchat Hput Hrender Hnext IH];
    intros Hfile.
  - done.
  - destruct (Hmodel (clock w) messages) as [? Heq]. rewrite Heq in Hchat. discriminate.
  - destruct (put_code_in_file_returns scene_id (Py.strip response fence)
                (answered messages response w) Hfile) as (? & Heq & _).
    rewrite Heq in Hput. discriminate.
  - destruct (render_scene_failed scene_id w1 (Hfails _)) as (? & ? & Heq).
    rewrite Heq in Hrender. discriminate.
  - apply put_code_in_file_effect in Hput as (_ & _ & Hfiles).
    apply render_scene_effect in Hrender as (ok & msg' & new & Hr & _ & _ & _ & _ & Hok).
    inversion Hr; subst ok msg'. destruct Hok as (Hfiles2 & _).
    cbn [files answered emit tick_clock] in Hfiles.
    destruct IH as [-> Hframe].
    { cbn [files emit]. rewrite Hfiles2, Hfiles. intros Hin.
      apply elem_of_dom in Hin. rewrite lookup_insert_ne in Hin.
      - by apply Hfile, elem_of_dom.
      - intros Heq. apply (scene_dir_not_task_file (video_id self) scene_id
                             (scene_id, ManimTask) (Hflat _ Hkey)).
        rewrite <- Heq. by left. }
    split; [done|]. intros p Hp. rewrite Hframe by done. cbn [files emit].
    by rewrite Hfiles2, Hfiles, lookup_insert_ne.
Qed.

Lemma generate_manim_gives_up (scene_id text : string) (w : world) :
  In scene_id (Py.keys (scene_transcriptions self)) -> good scene_id = false ->
  Py.dict_get scene_id (scene_transcriptions self) = Some text ->
  scene_dir scene_id (video_id self) ∉ dom (files w) ->
  exists w',
    generate_manim E self scene_id w = (Ok None, w')
    /\ forall p, p <> code_path scene_id (video_id self) -> files w' !! p = files w !! p.
Proof.
  clear Hencoder Hvoice.
  intros Hkey Hbad Htext Hfile.
  destruct (generate_manim_run E self scene_id text w Htext) as (r & w' & Hrun & Hloop).
  destruct (loop_run_gives_up _ _ _ _ _ _ Hloop Hkey Hbad Hfile) as [-> Hframe].
  by exists w'.
Qed.

(** No directory of a scene is the name of a file, and no scene that does
    not render has something at the place of its clip. *)
Let dirs_free (w : world) : Prop :=
  forall scene_id,
    In scene_id (Py.keys (scene_transcriptions self)) ->
    scene_dir scene_id (video_id self) ∉ dom (files w).

Let unrendered (w : world) : Prop :=
  forall scene_id,
    In scene_id (Py.keys (scene_transcriptions self)) -> good scene_id = false ->
    os.path_exists_in w (get_scene_path scene_id (video_id self)) = false.

Lemma run_task_returns (t : task) (w : world) :
  In (fst t) (Py.keys (scene_transcriptions self)) -> dirs_free w -> unrendered w ->
  exists w1,
    run_task E self t w = (Ok (task_result good t), w1)
    /\ dirs_free w1 /\ unrendered w1
    /\ (forall p, ~ In p (written good (video_id self) t) -> files w1 !! p = files w !! p)
    /\ (task_result good t <> None -> task_done (video_id self) t w1).
Proof.
  clear Hencoder.
  intros Hkey Hfree Hnone. destruct (dict_get_key _ _ Hkey) as [text Htext].
  assert (Hstays : forall r w1,
            run_task E self t w = (r, w1) ->
            (forall p, ~ In p (written good (video_id self) t) ->
                       files w1 !! p = files w !! p) ->
            dirs_free w1 /\ unrendered w1).
  { intros r w1 Hrun Hframe. split.
    - intros s Hs Hin. apply (Hfree s Hs).
      apply elem_of_dom. rewrite <- Hframe; [by apply elem_of_dom|].
      intros Hw. apply written_task_files in Hw. revert Hw.
      apply scene_dir_not_task_file. by apply Hflat.
    - intros s Hs Hbad. specialize (Hnone s Hs Hbad).
      unfold os.path_exists_in in *. apply orb_false_iff in Hnone as [Hd Hf].
      apply bool_decide_eq_false in Hd, Hf.
      destruct (clip_is_no_directory (video_id self) s (fst t) (Hflat _ Hs) (Hflat _ Hkey))
        as (Hne & Hup & Hup').
      apply orb_false_iff. split; apply bool_decide_eq_false.
      + intros Hx.
        assert (Hcases :
                  get_scene_path s (video_id self) ∈ dirs w
                  \/ get_scene_path s (video_id self) = scene_dir (fst t) (video_id self)
                  \/ In (get_scene_path s (video_id self))
                        (os.ancestors (scene_dir (fst t) (video_id self)))
                  \/ In (get_scene_path s (video_id self))
                        (os.ancestors (get_scene_path (fst t) (video_id self)))).
        { unfold run_task in Hrun. destruct (snd t).
          - by apply (generate_manim_dirs E self (fst t) w r w1 Hrun).
          - by apply (generate_speech_dirs E self (fst t) w r w1 Hrun). }
        tauto.
      + intros Hin. apply Hf. apply elem_of_dom. rewrite <- Hframe; [by apply elem_of_dom|].
        unfold written. destruct t as [s' []]; cbn [fst snd In] in *.
        * intros [Heq|Hin']; [by apply code_path_not_clip in Heq|].
          destruct (good s') eqn:Hgood; [|done]. destruct Hin' as [Heq|[]].
          apply get_scene_path_inj in Heq. congruence.
        * intros [Heq|[]]. by apply get_audio_path_not_clip in Heq. }
  unfold task_result, task_done, main_file.
  destruct t as [scene_id []] eqn:Ht; cbn [fst snd] in *.
  - destruct (good scene_id) eqn:Hgood.
    + destruct (generate_manim_returns scene_id text w Hkey Hgood Htext (Hfree _ Hkey))
        as (w1 & response & rendered & Hrun & Hpos & Hfiles).
      assert (Hframe : forall p,
                ~ In p (written good (video_id self) (scene_id, ManimTask)) ->
                files w1 !! p = files w !! p).
      { unfold written. cbn [fst snd]. rewrite Hgood. intros p Hp.
        rewrite Hfiles, !lookup_insert_ne; [done| |]; intros Heq; apply Hp; cbn; auto. }
      destruct (Hstays _ w1 Hrun Hframe) as [Hfree1 Hnone1].
      exists w1. split; [done|]. split; [done|]. split; [done|]. split; [done|].
      intros _. exists rendered. split; [done|]. by rewrite Hfiles, lookup_insert_eq.
    + destruct (generate_manim_gives_up scene_id text w Hkey Hgood Htext (Hfree _ Hkey))
        as (w1 & Hrun & Hfiles).
      assert (Hframe : forall p,
                ~ In p (written good (video_id self) (scene_id, ManimTask)) ->
                files w1 !! p = files w !! p).
      { unfold written. cbn [fst snd]. rewrite Hgood. intros p Hp.
        apply Hfiles. intros Heq. apply Hp. by left. }
      destruct (Hstays _ w1 Hrun Hframe) as [Hfree1 Hnone1].
      exists w1. done.
  - destruct (Hvoice (clock w) text) as (a & Hspeech & Hpos).
    destruct (generate_speech_returns E self scene_id (video_id self) text (Wav a) w
                Htext Hspeech Hdisk (Hfree _ Hkey))
      as (w1 & Hrun & Hfiles & _).
    assert (Hframe : forall p,
              ~ In p (written good (video_id self) (scene_id, SpeechTask)) ->
              files w1 !! p = files w !! p).
    { unfold written. cbn [fst snd]. intros p Hp. rewrite Hfiles, !lookup_insert_ne; [done|].
      intros Heq; apply Hp; cbn; auto. }
    destruct (Hstays _ w1 Hrun Hframe) as [Hfree1 Hnone1].
    exists w1. split; [done|]. split; [done|]. split; [done|]. split; [done|].
    intros _. exists a. split; [done|]. by rewrite Hfiles, lookup_insert_eq.
Qed.

(** Every task returns, and the file of every task that returns a scene
    id is in place when all of them have finished. *)
Lemma run_tasks_returns (order : list task) :
  forall finished w,
    NoDup order ->
    (forall t, In t order -> In (fst t) (Py.keys (scene_transcriptions self))) ->
    dirs_free w -> unrendered w ->
    exists w',
      run_tasks E self order finished w
      = (Ok (finished ++ map (fun t => (t, task_result good t)) order), w')
      /\ dirs_free w' /\ unrendered w'
      /\ (forall p, (forall t, In t order -> ~ In p (written good (video_id self) t)) ->
            files w' !! p = files w !! p)
      /\ (forall t, In t order -> task_result good t <> None ->
            task_done (video_id self) t w').
Proof.
  clear Hencoder.
  induction order as [|t rest IH]; intros finished w Hnodup Hkeys Hfree Hnone.
  - exists w. cbn. rewrite app_nil_r. done.
  - apply NoDup_cons in Hnodup as [Hnew Hnodup].
    destruct (run_task_returns t w (Hkeys t (or_introl eq_refl)) Hfree Hnone)
      as (w1 & Hrun & Hfree1 & Hnone1 & Hframe1 & Hdone1).
    destruct (IH (finished ++ [(t, task_result good t)]) w1 Hnodup
                (fun u Hu => Hkeys u (or_intror Hu)) Hfree1 Hnone1)
      as (w' & Hrest & Hfree' & Hnone' & Hframe' & Hdone').
    exists w'. cbn [run_tasks]. rewrite bind_unfold, Hrun, Hrest.
    split; [by rewrite <- app_assoc|]. split; [done|]. split; [done|]. split.
    + intros p Hp. rewrite Hframe', Hframe1; [done| |].
      * apply Hp. by left.
      * intros u Hu. apply Hp. by right.
    + intros u [<-|Hu] Hsome; [|by apply Hdone'].
      destruct (Hdone1 Hsome) as (d & Hpos & Hfile). exists d. split; [done|].
      rewrite Hframe'; [done|]. intros u Hu Hw. apply written_task_files in Hw. revert Hw.
      apply main_file_not_written. intros ->. apply Hnew. by apply list_elem_of_In.
Qed.

(** With its two files in place, a scene is muxed. *)
Lemma mux_returns (scene_id : string) (w : world) :
  task_done (video_id self) (scene_id, ManimTask) w ->
  task_done (video_id self) (scene_id, SpeechTask) w ->
  exists w' d,
    combine_manim_and_speech E self scene_id (video_id self) w = (Ok tt, w')
    /\ files w' !! get_scene_path scene_id (video_id self)
       = Some (Mp4File (Media d (Some d) []))
    /\ (forall p, p <> get_scene_path scene_id (video_id self) ->
          files w' !! p = files w !! p)
    /\ dirs w' = dirs w.
Proof.
  clear Hmodel Hvoice Hmanim Hflat.
  intros (v & Hv & Hvideo) (a & Ha & Haudio). unfold main_file in *. cbn [fst snd] in *.
  destruct (combine_reaches_replacement E self scene_id (video_id self) w v a []
              Hvideo Haudio Hv Ha) as (evs & final_clip & d & -> & Hmedia & _).
  unfold os.remove, os.fault, moviepy.write_videofile. mstep.
  rewrite Hdisk. mstep. cbn [files tick_clock emit_all].
  rewrite bool_decide_eq_true_2 by (apply elem_of_dom; eauto).
  mstep. rewrite Hencoder. mstep.
  eexists. exists d. split; [reflexivity|].
  cbn [files dirs emit tick_clock with_files emit_all].
  split; [by rewrite lookup_insert_eq, Hmedia|]. split; [|done].
  intros p Hp. by rewrite lookup_insert_ne, lookup_delete_ne.
Qed.

(** The [for] loop of [generate_all_scenes] muxes the scenes that rendered
    and passes over the others. *)
Lemma combine_each_returns (todo : list string) :
  forall w,
    NoDup todo ->
    (forall s, In s todo -> good s = true ->
       task_done (video_id self) (s, ManimTask) w
       /\ task_done (video_id self) (s, SpeechTask) w) ->
    exists w',
      combine_each E self
        (map (fun s => ((task_result good (s, ManimTask),
                         task_result good (s, SpeechTask)), s)) todo) w
      = (Ok tt, w')
      /\ dirs w' = dirs w
      /\ (forall p, (forall s, In s todo -> good s = true ->
                       p <> get_scene_path s (video_id self)) ->
            files w' !! p = files w !! p)
      /\ (forall s, In s todo -> good s = true ->
            exists d, files w' !! get_scene_path s (video_id self)
                      = Some (Mp4File (Media d (Some d) []))).
Proof.
  clear Hmodel Hvoice Hmanim Hflat.
  induction todo as [|s rest IH]; intros w Hnodup Hdone.
  - exists w. done.
  - apply NoDup_cons in Hnodup as [Hnew Hnodup].
    cbn [map combine_each]. unfold task_result at 1 2. cbn [fst snd].
    destruct (good s) eqn:Hgood.
    + destruct (Hdone s (or_introl eq_refl) Hgood) as [Hclip Hvoice'].
      destruct (mux_returns s w Hclip Hvoice') as (w1 & d & Hrun & Hmuxed & Hframe & Hdirs).
      destruct (IH w1 Hnodup) as (w' & Hrest & Hdirs' & Hframe' & Hmuxed').
      { intros s' Hs' Hgood'.
        destruct (Hdone s' (or_intror Hs') Hgood') as [(v & Hv & Hfile) (a & Ha & Hfile')].
        unfold task_done, main_file in *. cbn [fst snd] in *. split.
        - exists v. split; [done|]. rewrite Hframe; [done|].
          intros Heq. apply get_scene_path_inj in Heq. subst s'.
          apply Hnew. by apply list_elem_of_In.
        - exists a. split; [done|]. rewrite Hframe; [done|]. apply get_audio_path_not_clip. }
      exists w'. rewrite bind_unfold, Hrun, Hrest.
      split; [done|]. split; [congruence|]. split.
      * intros p Hp. rewrite Hframe', Hframe; [done| |].
        -- apply Hp; [by left|done].
        -- intros s' Hs'. apply Hp. by right.
      * intros s' [<-|Hs'] Hgood'; [|by apply Hmuxed'].
        exists d. rewrite Hframe'; [done|].
        intros s' Hs' _ Heq. apply get_scene_path_inj in Heq. subst s'.
        apply Hnew. by apply list_elem_of_In.
    + destruct (IH (emit (Logged (LogSceneNotGenerated s)) w) Hnodup)
        as (w' & Hrest & Hdirs' & Hframe' & Hmuxed').
      { intros s' Hs' Hgood'. by apply (Hdone s' (or_intror Hs') Hgood'). }
      exists w'. mstep. rewrite Hrest. split; [done|]. split; [done|]. split.
      * intros p Hp. rewrite Hframe'; [done|]. intros s' Hs'. apply Hp. by right.
      * intros s' [<-|Hs'] Hgood'; [congruence|by apply Hmuxed'].
Qed.

Lemma present_scenes_filter (w : world) (ids : list string) :
  (forall s, In s ids ->
     if good s then is_Some (files w !! get_scene_path s (video_id self))
     else os.path_exists_in w (get_scene_path s (video_id self)) = false) ->
  present_scenes w (video_id self) ids = List.filter good ids.
Proof.
  clear Hdisk Hencoder Hmodel Hvoice Hmanim Hflat.
  intros Hall. unfold present_scenes.
  induction ids as [|s ids IH]; [done|]. cbn [List.filter].
  assert (Hs : scene_on_disk w (video_id self) s = good s).
  { specialize (Hall s (or_introl eq_refl)). unfold scene_on_disk.
    destruct (good s); [|done]. unfold os.path_exists_in. apply orb_true_iff. right.
    by apply bool_decide_eq_true, elem_of_dom. }
  rewrite Hs, IH; [done|]. intros s' Hs'. apply Hall. by right.
Qed.
End QuietRun.




(** ** What [generate_speech] returns *)

